(** * openalgo-flow: the workflow variable store and its neighbours, verified

    A shallow embedding of [frontend/src/stores/variableStore.ts] (the zustand
    store holding workflow variables, its numeric and string mutators, dotted
    path access, [{{...}}] interpolation and the operation dispatcher), of
    the variable picker that writes the placeholders, and of the WebSocket
    service that streams market data, together with models of the
    option-strike resolution and of order splitting, which the repository only
    documents.

    Layout:
    - [Js]: the part of the JavaScript runtime the code relies on (strings,
      IEEE-754 numbers, values, coercions, [JSON.stringify]);
    - [VariableStore]: the store itself, one definition per source function;
    - [VariablePicker]: the entries, the search and the text the picker
      inserts;
    - [WebSocketService]: the service, one definition per method and per
      socket event;
    - [OptionResolver], [SplitOrder]: models written from the specification;
    - [Reading], [Streaming]: definitions the statements are written with;
    - lemmas and theorems. *)

From Stdlib Require Import ZArith List Ascii String Lia DecimalString.
From Stdlib Require Import Floats.PrimFloat Floats.SpecFloat Floats.FloatOps Floats.FloatAxioms.
From stdpp Require Import base gmap strings list.

Set Warnings "-inexact-float,-register-all".

(** ** The JavaScript runtime *)

Module Js.

(** *** Strings

    A JavaScript string is a sequence of UTF-16 code units.  The model keeps
    the code units below 256, so that a [string] of Rocq is a JavaScript
    string and every [ascii] is one code unit. *)

Definition char_is (c : ascii) (n : nat) : bool := Nat.eqb (nat_of_ascii c) n.

(** White space and line terminators, as [String.prototype.trim] and the
    string-to-number conversion strip them: TAB, LF, VT, FF, CR, SP, NBSP. *)
Definition is_white_space (c : ascii) : bool :=
  let n := nat_of_ascii c in
  ((9 <=? n)%nat && (n <=? 13)%nat) || Nat.eqb n 32 || Nat.eqb n 160.

Fixpoint trimStart (s : string) : string :=
  match s with
  | String c r => if is_white_space c then trimStart r else s
  | EmptyString => EmptyString
  end.

Definition trimEnd (s : string) : string := String.rev (trimStart (String.rev s)).

(** [s.trim()] *)
Definition trim (s : string) : string := trimEnd (trimStart s).

(** [s.includes(c)] for a one-character search string. *)
Fixpoint includes (c : ascii) (s : string) : bool :=
  match s with
  | EmptyString => false
  | String d r => Ascii.eqb d c || includes c r
  end.

(** [s.split(c)] for a one-character separator: never the empty list,
    [""] splits into [[""]]. *)
Fixpoint split (sep : ascii) (s : string) : list string :=
  match s with
  | EmptyString => [EmptyString]
  | String c r =>
      if Ascii.eqb c sep then EmptyString :: split sep r
      else match split sep r with
           | h :: t => String c h :: t
           | [] => [String c EmptyString]
           end
  end.

(** [xs.join(sep)] on an array of strings. *)
Fixpoint join (sep : string) (xs : list string) : string :=
  match xs with
  | [] => EmptyString
  | [x] => x
  | x :: rest => x +:+ sep +:+ join sep rest
  end.

(** The longest prefix of [s] whose characters all satisfy [p], and what
    follows it. *)
Fixpoint span (p : ascii -> bool) (s : string) : string * string :=
  match s with
  | String c r =>
      if p c then let '(a, b) := span p r in (String c a, b)
      else (EmptyString, s)
  | EmptyString => (EmptyString, EmptyString)
  end.

Definition is_digit (c : ascii) : bool :=
  let n := nat_of_ascii c in (48 <=? n)%nat && (n <=? 57)%nat.

Definition str_take (n : Z) (s : string) : string :=
  String.substring 0 (Z.to_nat n) s.

Definition str_drop (n : Z) (s : string) : string :=
  String.substring (Z.to_nat n) (String.length s - Z.to_nat n) s.

Definition zeros (n : Z) : string :=
  string_of_list_ascii (repeat "0"%char (Z.to_nat n)).

(** The decimal digits of a natural number, ["0"] for zero. *)
Definition digits_of_Z (z : Z) : string :=
  NilZero.string_of_uint (N.to_uint (Z.to_N z)).

(** *** Numbers

    A JavaScript number is an IEEE-754 binary64 value: Rocq's primitive
    [float], whose arithmetic rounds to nearest, ties to even, as
    JavaScript's does. *)

Open Scope Z_scope.

(** [m * 2^e], rounded. *)
Definition round_binary (m e : Z) : float :=
  SF2Prim (binary_normalize prec emax m e false).

(** [m * 10^e] for [0 <= m], rounded: exact when [e] is not negative, and
    otherwise through a quotient of at least 64 bits with a sticky bit. *)
Definition round_decimal (m e : Z) : float :=
  if m =? 0 then zero
  else if 0 <=? e then round_binary (m * 10 ^ e) 0
  else
    let d := 10 ^ (- e) in
    let p := Z.log2 d + 66 in
    let q := (m * 2 ^ p) / d in
    let r := (m * 2 ^ p) mod d in
    round_binary (2 * q + (if r =? 0 then 0 else 1)) (- p - 1).

(** The same with the magnitude bounded first: above [10^310] the result is
    [Infinity] and below [2^-1100] it is [0], whatever the digits are. *)
Definition decimal_value (m e : Z) : float :=
  if m =? 0 then zero
  else
    if 310 <? Z.log2 m * 3 / 10 + e then infinity
    else if Z.log2 m + 1 + 3 * e <? -1100 then zero
    else round_decimal m e.

(** A positive rational [num / den] times [10^j]. *)
Definition scale10 (q : Z * Z) (j : Z) : Z * Z :=
  let '(num, den) := q in
  if 0 <=? j then (num * 10 ^ j, den) else (num, den * 10 ^ (- j)).

Definition at_least_one (q : Z * Z) : bool := snd q <=? fst q.

(** The [n] with [10^(n-1) <= q < 10^n], from an estimate off by a few. *)
Fixpoint decimal_exponent (fuel : nat) (q : Z * Z) (n : Z) : Z :=
  match fuel with
  | O => n
  | S fuel' =>
      if negb (at_least_one (scale10 q (1 - n))) then decimal_exponent fuel' q (n - 1)
      else if at_least_one (scale10 q (- n)) then decimal_exponent fuel' q (n + 1)
      else n
  end.

(** The [k]-digit decimals next to [x = q]: the one that reads back as [x],
    the closer one when both do, the even one on a tie. *)
Definition shortest_at (x : float) (q : Z * Z) (n k : Z) : option (Z * Z) :=
  let '(num, den) := scale10 q (k - n) in
  let lo := num / den in
  let r := num mod den in
  if r =? 0 then Some (lo, n)
  else
    let hi := lo + 1 in
    let reads_back c := (round_decimal c (n - k) =? x)%float in
    let carry c := if c =? 10 ^ k then (10 ^ (k - 1), n + 1) else (c, n) in
    match reads_back lo, reads_back hi with
    | true, true =>
        match 2 * r ?= den with
        | Lt => Some (lo, n)
        | Gt => Some (carry hi)
        | Eq => Some (if Z.even lo then (lo, n) else carry hi)
        end
    | true, false => Some (lo, n)
    | false, true => Some (carry hi)
    | false, false => None
    end.

Fixpoint shortest (fuel : nat) (x : float) (q : Z * Z) (n k : Z) : Z * Z :=
  match fuel with
  | O => (0, n)
  | S fuel' =>
      match shortest_at x q n k with
      | Some r => r
      | None => shortest fuel' x q n (k + 1)
      end
  end.

(** The layout of [Number::toString]: digits [ds] and decimal exponent [n]. *)
Definition format_decimal (ds : string) (n : Z) : string :=
  let k := Z.of_nat (String.length ds) in
  if (k <=? n) && (n <=? 21) then ds +:+ zeros (n - k)
  else if (0 <? n) && (n <=? 21) then str_take n ds +:+ "." +:+ str_drop n ds
  else if (-6 <? n) && (n <=? 0) then "0." +:+ zeros (- n) +:+ ds
  else
    let e := n - 1 in
    let es := (if e <? 0 then "-" else "+") +:+ digits_of_Z (Z.abs e) in
    if k =? 1 then ds +:+ "e" +:+ es
    else str_take 1 ds +:+ "." +:+ str_drop 1 ds +:+ "e" +:+ es.

Definition finite_to_string (x : float) : string :=
  match Prim2SF x with
  | S754_finite _ m e =>
      let q := if 0 <=? e then (Zpos m * 2 ^ e, 1) else (Zpos m, 2 ^ (- e)) in
      let estimate := ((Z.log2 (Zpos m) + e) * 30103) / 100000 + 1 in
      let n := decimal_exponent 4 q estimate in
      let '(s, n') := shortest 17 x q n 1 in
      format_decimal (digits_of_Z s) n'
  | _ => EmptyString
  end.

(** [Number::toString(x)] in radix 10: the shortest decimal that reads back
    as [x]. *)
Definition NumberToString (x : float) : string :=
  if is_nan x then "NaN"
  else if is_zero x then "0"
  else if is_infinity x then (if get_sign x then "-Infinity" else "Infinity")
  else if get_sign x then "-" +:+ finite_to_string (- x)%float
  else finite_to_string x.

Definition digit_value (c : ascii) : option Z :=
  let n := Z.of_nat (nat_of_ascii c) in
  if (48 <=? n) && (n <=? 57) then Some (n - 48)
  else if (97 <=? n) && (n <=? 102) then Some (n - 87)
  else if (65 <=? n) && (n <=? 70) then Some (n - 55)
  else None.

(** The value of a non-empty run of digits in [radix], [None] on any other
    character. *)
Fixpoint digits_value_from (radix acc : Z) (s : string) : option Z :=
  match s with
  | EmptyString => Some acc
  | String c r =>
      match digit_value c with
      | Some d => if d <? radix then digits_value_from radix (radix * acc + d) r else None
      | None => None
      end
  end.

Definition digits_value (radix : Z) (s : string) : option Z :=
  match s with
  | EmptyString => None
  | _ => digits_value_from radix 0 s
  end.

(** [ExponentPart] of a decimal literal, when [s] is all of it. *)
Definition exponent_value (s : string) : option Z :=
  match s with
  | EmptyString => Some 0
  | String c r =>
      if char_is c 101 || char_is c 69 then
        match r with
        | String "+" ds => digits_value 10 ds
        | String "-" ds => option_map Z.opp (digits_value 10 ds)
        | _ => digits_value 10 r
        end
      else None
  end.

(** [StrUnsignedDecimalLiteral]: [Infinity], or digits with an optional
    fraction and exponent, at least one digit before the exponent. *)
Definition unsigned_decimal (s : string) : option float :=
  if String.eqb s "Infinity" then Some infinity
  else
    let '(int_part, after_int) := span is_digit s in
    let '(frac_part, after_frac) :=
      match after_int with
      | String "." r => span is_digit r
      | _ => (EmptyString, after_int)
      end in
    match int_part +:+ frac_part with
    | EmptyString => None
    | ds =>
        match digits_value 10 ds, exponent_value after_frac with
        | Some m, Some e => Some (decimal_value m (e - Z.of_nat (String.length frac_part)))
        | _, _ => None
        end
    end.

Definition radix_literal (radix : Z) (ds : string) : float :=
  match digits_value radix ds with
  | Some m => round_binary m 0
  | None => nan
  end.

(** [StringToNumber(s)]: the number a string converts to, [NaN] when it is
    not a numeric literal. *)
Definition StringToNumber (s : string) : float :=
  match trim s with
  | EmptyString => zero
  | String "0" (String c ds) as t =>
      if char_is c 120 || char_is c 88 then radix_literal 16 ds
      else if char_is c 111 || char_is c 79 then radix_literal 8 ds
      else if char_is c 98 || char_is c 66 then radix_literal 2 ds
      else match unsigned_decimal t with Some x => x | None => nan end
  | String "+" r => match unsigned_decimal r with Some x => x | None => nan end
  | String "-" r => match unsigned_decimal r with Some x => (- x)%float | None => nan end
  | t => match unsigned_decimal t with Some x => x | None => nan end
  end.

Close Scope Z_scope.

(** *** Values

    What a variable can hold: the JSON values and [undefined].  A mapping is
    kept as the list of its properties in enumeration order, which is the
    order [JSON.stringify] writes them in; its keys are pairwise distinct.
    A mapping or a list is read by its own properties.  The members it
    inherits ([Object_prototype], [Array_prototype]) are functions, which are
    no values of the model: a key that names one of them is read as the
    source reads it only where the key is an own property.  [inherited]
    tells these keys. *)

Inductive value : Type :=
| VUndefined
| VNull
| VBool (b : bool)
| VNum (n : float)
| VStr (s : string)
| VArr (xs : list value)
| VObj (fields : list (string * value)).

Definition is_undefined (v : value) : bool :=
  match v with VUndefined => true | _ => false end.

Definition is_null (v : value) : bool :=
  match v with VNull => true | _ => false end.

(** [typeof v === 'object'] *)
Definition typeof_object (v : value) : bool :=
  match v with VNull | VArr _ | VObj _ => true | _ => false end.

(** [ToBoolean]: the falsy values are [undefined], [null], [false], [NaN],
    both zeros and the empty string. *)
Definition ToBoolean (v : value) : bool :=
  match v with
  | VUndefined | VNull => false
  | VBool b => b
  | VNum n => negb (is_nan n || is_zero n)
  | VStr EmptyString => false
  | VStr _ | VArr _ | VObj _ => true
  end.

(** [a || b] *)
Definition or_else (a b : value) : value := if ToBoolean a then a else b.

(** [Object.hasOwn(obj, key)] on the properties of a mapping. *)
Definition has_own_property (key : string) (fields : list (string * value)) : bool :=
  existsb (fun kv => String.eqb (fst kv) key) fields.

(** The names of the members of [Object.prototype] and of [Array.prototype]
    (ECMAScript 2023 with its Annex B). *)
Definition Object_prototype : list string :=
  [ "constructor"; "hasOwnProperty"; "isPrototypeOf"; "propertyIsEnumerable";
    "toLocaleString"; "toString"; "valueOf"; "__proto__"; "__defineGetter__";
    "__defineSetter__"; "__lookupGetter__"; "__lookupSetter__" ]%string.

Definition Array_prototype : list string :=
  [ "at"; "concat"; "copyWithin"; "entries"; "every"; "fill"; "filter"; "find";
    "findIndex"; "findLast"; "findLastIndex"; "flat"; "flatMap"; "forEach";
    "includes"; "indexOf"; "join"; "keys"; "lastIndexOf"; "map"; "pop"; "push";
    "reduce"; "reduceRight"; "reverse"; "shift"; "slice"; "some"; "sort"; "splice";
    "toReversed"; "toSorted"; "toSpliced"; "unshift"; "values"; "with" ]%string.

(** A key that names a member a mapping or a list inherits. *)
Definition inherited (key : string) : bool :=
  existsb (String.eqb key) (Object_prototype ++ Array_prototype).

(** Whether [ToPrimitive] returns.  The values of the model are not
    callable, so a mapping with an own property [toString] has no method to
    convert it (the inherited [valueOf] returns the mapping itself) and the
    conversion throws a [TypeError]; any other mapping is converted by the
    inherited [toString].  A list is converted by [join], which converts its
    elements. *)
Fixpoint converts (v : value) : bool :=
  match v with
  | VArr xs => forallb converts xs
  | VObj fields => negb (has_own_property "toString" fields)
  | _ => true
  end.

(** [ToString]: of a primitive, and of a list or a mapping what it is of
    their primitive, when [ToPrimitive] returns ([converts]). *)
Fixpoint ToString (v : value) : string :=
  match v with
  | VUndefined => "undefined"
  | VNull => "null"
  | VBool b => if b then "true" else "false"
  | VNum n => NumberToString n
  | VStr s => s
  | VArr xs =>
      join "," (map (fun x => match x with
                              | VUndefined | VNull => EmptyString
                              | _ => ToString x
                              end) xs)
  | VObj _ => "[object Object]"
  end.

(** [ToNumber]: of a primitive, and of a list or a mapping what it is of
    their primitive, their text, when [ToPrimitive] returns ([converts]). *)
Definition ToNumber (v : value) : float :=
  match v with
  | VUndefined => nan
  | VNull => zero
  | VBool b => if b then one else zero
  | VNum n => n
  | VStr s => StringToNumber s
  | VArr _ | VObj _ => StringToNumber (ToString v)
  end.

(** [String(v)], and [${v}] in a template: [None] when it throws. *)
Definition callString (v : value) : option string :=
  if converts v then Some (ToString v) else None.

(** [Number(v)]: [None] when it throws. *)
Definition callNumber (v : value) : option float :=
  if converts v then Some (ToNumber v) else None.

Definition quote_char : ascii := ascii_of_nat 34.

Definition hex_digit (n : nat) : ascii :=
  ascii_of_nat (if (n <? 10)%nat then 48 + n else 87 + n).

Definition json_escape (c : ascii) : string :=
  let n := nat_of_ascii c in
  if Nat.eqb n 34 then String "\" (String quote_char EmptyString)
  else if Nat.eqb n 92 then "\\"
  else if Nat.eqb n 8 then "\b"
  else if Nat.eqb n 9 then "\t"
  else if Nat.eqb n 10 then "\n"
  else if Nat.eqb n 12 then "\f"
  else if Nat.eqb n 13 then "\r"
  else if (n <? 32)%nat then
    "\u00" +:+ String (hex_digit (n / 16)) (String (hex_digit (n mod 16)) EmptyString)
  else String c EmptyString.

Fixpoint json_escape_all (s : string) : string :=
  match s with
  | EmptyString => EmptyString
  | String c r => json_escape c +:+ json_escape_all r
  end.

Definition QuoteJSONString (s : string) : string :=
  String quote_char (json_escape_all s +:+ String quote_char EmptyString).

(** [JSON.stringify(v)] without indentation; [None] is [undefined].  In a
    list [undefined] is written [null]; in a mapping the property is left
    out. *)
Fixpoint JSON_stringify (v : value) : option string :=
  match v with
  | VUndefined => None
  | VNull => Some "null"
  | VBool b => Some (if b then "true" else "false")
  | VNum n => Some (if is_finite n then NumberToString n else "null")
  | VStr s => Some (QuoteJSONString s)
  | VArr xs =>
      Some ("[" +:+ join "," (map (fun x => match JSON_stringify x with
                                            | Some t => t
                                            | None => "null"
                                            end) xs) +:+ "]")
  | VObj fields =>
      Some ("{" +:+ join "," (flat_map (fun kv => match kv with
                                                  | (k, x) =>
                                                      match JSON_stringify x with
                                                      | Some t => [QuoteJSONString k +:+ ":" +:+ t]
                                                      | None => []
                                                      end
                                                  end) fields) +:+ "}")
  end.

(** The first property named [key], [undefined] when there is none. *)
Fixpoint own_property (key : string) (fields : list (string * value)) : value :=
  match fields with
  | [] => VUndefined
  | (k, x) :: rest => if String.eqb k key then x else own_property key rest
  end.

(** The element index a property key denotes: the decimal digits of a natural
    number, with no leading zero. *)
Definition array_index (key : string) : option Z :=
  match digits_value 10 key with
  | Some i => if String.eqb (digits_of_Z i) key then Some i else None
  | None => None
  end.

(** [obj[key]] on a mapping or a list, for a key that is an own property or
    is not [inherited]. *)
Definition get_property (obj : value) (key : string) : value :=
  match obj with
  | VObj fields => own_property key fields
  | VArr xs =>
      if String.eqb key "length" then VNum (round_binary (Z.of_nat (length xs)) 0)
      else match array_index key with
           | Some i =>
               if (i <? Z.of_nat (length xs))%Z then nth (Z.to_nat i) xs VUndefined
               else VUndefined
           | None => VUndefined
           end
  | _ => VUndefined
  end.

Definition newline : string := String (ascii_of_nat 10) EmptyString.

(** [JSON.stringify(v, null, gap)] for a [gap] that is not empty: members
    on lines of their own, indented by [indent] and one [gap] more, a space
    after the colon; an empty list or mapping stays [[]] or [{}]. *)
Fixpoint JSON_stringify_spaced (gap indent : string) (v : value) : option string :=
  match v with
  | VUndefined => None
  | VNull => Some "null"
  | VBool b => Some (if b then "true" else "false")
  | VNum n => Some (if is_finite n then NumberToString n else "null")
  | VStr s => Some (QuoteJSONString s)
  | VArr xs =>
      let inner := indent +:+ gap in
      match map (fun x => match JSON_stringify_spaced gap inner x with
                          | Some t => t
                          | None => "null"
                          end) xs with
      | [] => Some "[]"
      | items =>
          Some ("[" +:+ newline +:+ inner +:+ join ("," +:+ newline +:+ inner) items
                +:+ newline +:+ indent +:+ "]")
      end
  | VObj fields =>
      let inner := indent +:+ gap in
      match flat_map (fun kv => match kv with
                                | (k, x) =>
                                    match JSON_stringify_spaced gap inner x with
                                    | Some t => [QuoteJSONString k +:+ ": " +:+ t]
                                    | None => []
                                    end
                                end) fields with
      | [] => Some "{}"
      | members =>
          Some ("{" +:+ newline +:+ inner +:+ join ("," +:+ newline +:+ inner) members
                +:+ newline +:+ indent +:+ "}")
      end
  end.

(** [typeof v] *)
Definition typeof (v : value) : string :=
  match v with
  | VUndefined => "undefined"
  | VNull | VArr _ | VObj _ => "object"
  | VBool _ => "boolean"
  | VNum _ => "number"
  | VStr _ => "string"
  end.

End Js.

(** ** The variable store ([variableStore.ts])

    One definition per function of the store, under the name the source
    gives it.  [parseJson], [stringifyValue] and the dispatcher
    [executeVariableOperation], which add nothing to the state handling, are
    left out. *)

Module VariableStore.
Import Js.

(** The fields of [VariableState] that hold data: the variables of every
    workflow, by workflow id and then by name, and the current workflow. *)
Record VariableState : Type := mkState {
  variables : gmap string (gmap string value);
  currentWorkflowId : option string
}.

(** The store is one object of the module, created once by [create] and
    reached through [get] and [set]; the console is where the store logs. *)
Record World : Type := mkWorld {
  state : VariableState;
  console : list string
}.

Definition Action (A : Type) : Type := World -> A * World.

Definition ret {A : Type} (a : A) : Action A := fun w => (a, w).

Definition bind {A B : Type} (m : Action A) (k : A -> Action B) : Action B :=
  fun w => let (a, w') := m w in k a w'.

Declare Scope action_scope.
Delimit Scope action_scope with action.
Notation "'let!' x ':=' m 'in' k" := (bind m (fun x => k))
  (at level 10, x name, m at level 100, k at level 200) : action_scope.
Notation "m '>>' k" := (bind m (fun _ => k))
  (at level 100, k at level 200, right associativity) : action_scope.
Local Open Scope action_scope.

Definition exec {A : Type} (m : Action A) (w : World) : World := snd (m w).
Definition eval {A : Type} (m : Action A) (w : World) : A := fst (m w).

(** zustand's [get()] and [set({...})], the latter one field at a time. *)
Definition get : Action VariableState := fun w => (state w, w).

Definition set_currentWorkflowId (id : option string) : Action unit :=
  fun w => (tt, mkWorld (mkState (variables (state w)) id) (console w)).

Definition set_variables (vs : gmap string (gmap string value)) : Action unit :=
  fun w => (tt, mkWorld (mkState vs (currentWorkflowId (state w))) (console w)).

Definition console_error (msg : string) : Action unit :=
  fun w => (tt, mkWorld (state w) (console w ++ [msg])).

(** The store as [create] makes it. *)
Definition initial : World := mkWorld (mkState ∅ None) [].

(** The workflow id when [!currentWorkflowId] is false: neither [null] nor
    the empty string. *)
Definition selected (id : option string) : option string :=
  match id with
  | Some (String _ _ as wf) => Some wf
  | _ => None
  end.

(** [{ ...variables[wf] }]: spreading [undefined] gives the empty object. *)
Definition spread (vs : gmap string (gmap string value)) (wf : string) : gmap string value :=
  match vs !! wf with
  | Some vars => vars
  | None => ∅
  end.

(** [variables[wf]?.[name]], for a workflow id and a name that are own
    properties or are not [inherited]. *)
Definition read (vs : gmap string (gmap string value)) (wf name : string) : value :=
  match vs !! wf with
  | Some vars => match vars !! name with Some v => v | None => VUndefined end
  | None => VUndefined
  end.

(** The loop of [getNestedValue], with its early returns. *)
Fixpoint walk (current : value) (keys : list string) : value :=
  match keys with
  | [] => current
  | key :: rest =>
      if is_null current || is_undefined current then VUndefined
      else if negb (typeof_object current) then VUndefined
      else walk (get_property current key) rest
  end.

Definition getNestedValue (obj : value) (path : string) : value :=
  if negb (ToBoolean obj) || negb (typeof_object obj) then VUndefined
  else walk obj (split "." path).

(** [variables[workflowId]] is truthy when the id has its variables, and
    also when the id names a member that [variables] inherits. *)
Definition setCurrentWorkflow (workflowId : string) : Action unit :=
  set_currentWorkflowId (Some workflowId) >>
  let! s := get in
  match variables s !! workflowId with
  | Some _ => ret tt
  | None =>
      if existsb (String.eqb workflowId) Object_prototype then ret tt
      else set_variables (<[workflowId := ∅]> (variables s))
  end.

Definition setVariable (name : string) (v : value) : Action unit :=
  let! s := get in
  match selected (currentWorkflowId s) with
  | None => ret tt
  | Some wf =>
      set_variables (<[wf := <[name := v]> (spread (variables s) wf)]> (variables s))
  end.

Definition getVariable (name : string) : Action value :=
  let! s := get in
  match selected (currentWorkflowId s) with
  | None => ret VUndefined
  | Some wf => ret (read (variables s) wf name)
  end.

(** [const [varName, ...rest] = path.split('.')]: of an empty array
    [varName] would be [undefined], which as a key reads ["undefined"]. *)
Definition getVariableByPath (path : string) : Action value :=
  let! s := get in
  match selected (currentWorkflowId s) with
  | None => ret VUndefined
  | Some wf =>
      if includes "." path then
        let parts := split "." path in
        let varName := match parts with h :: _ => h | [] => "undefined" end in
        let rest := tail parts in
        let variable := read (variables s) wf varName in
        if Nat.eqb (length rest) 0 then ret variable
        else ret (getNestedValue variable (join "." rest))
      else ret (read (variables s) wf path)
  end.

Definition deleteVariable (name : string) : Action unit :=
  let! s := get in
  match selected (currentWorkflowId s) with
  | None => ret tt
  | Some wf =>
      let workflowVars := delete name (spread (variables s) wf) in
      set_variables (<[wf := workflowVars]> (variables s))
  end.

Definition clearVariables : Action unit :=
  let! s := get in
  match selected (currentWorkflowId s) with
  | None => ret tt
  | Some wf => set_variables (<[wf := ∅]> (variables s))
  end.

(** [variables[currentWorkflowId] || {}], for a workflow id that has its
    variables or is not [inherited]. *)
Definition getAllVariables : Action (gmap string value) :=
  let! s := get in
  match selected (currentWorkflowId s) with
  | None => ret ∅
  | Some wf => ret (spread (variables s) wf)
  end.

(** How a call ends: it returns, or a conversion in it throws a
    [TypeError] and the call ends there. *)
Inductive outcome : Type := Returned | Thrown.

(** A call that does not throw. *)
Definition returns (m : Action unit) : Action outcome :=
  m >> ret Returned.

(** [n || 0] for a number. *)
Definition or_zero (n : float) : float :=
  if ToBoolean (VNum n) then n else zero.

(** [Number(v) || 0], where [Number(v)] returns. *)
Definition number_or_zero (v : value) : float := or_zero (ToNumber v).

Definition addToVariable (name : string) (v : float) : Action outcome :=
  let! x := getVariable name in
  match callNumber x with
  | Some n =>
      let current := or_zero n in
      returns (setVariable name (VNum (current + v)%float))
  | None => ret Thrown
  end.

Definition subtractFromVariable (name : string) (v : float) : Action outcome :=
  let! x := getVariable name in
  match callNumber x with
  | Some n =>
      let current := or_zero n in
      returns (setVariable name (VNum (current - v)%float))
  | None => ret Thrown
  end.

Definition multiplyVariable (name : string) (v : float) : Action outcome :=
  let! x := getVariable name in
  match callNumber x with
  | Some n =>
      let current := or_zero n in
      returns (setVariable name (VNum (current * v)%float))
  | None => ret Thrown
  end.

(** The current value is converted before the divisor is looked at.
    [value === 0] holds of both zeros and not of [NaN]. *)
Definition divideVariable (name : string) (v : float) : Action outcome :=
  let! x := getVariable name in
  match callNumber x with
  | Some n =>
      let current := or_zero n in
      if (v =? zero)%float then returns (console_error "Division by zero")
      else returns (setVariable name (VNum (current / v)%float))
  | None => ret Thrown
  end.

Definition incrementVariable (name : string) : Action outcome :=
  addToVariable name one.

Definition decrementVariable (name : string) : Action outcome :=
  subtractFromVariable name one.

(** [String(getVariable(name) || '')] *)
Definition appendToVariable (name : string) (v : string) : Action outcome :=
  let! x := getVariable name in
  match callString (or_else x (VStr EmptyString)) with
  | Some current => returns (setVariable name (VStr (current +:+ v)))
  | None => ret Thrown
  end.

(** *** Interpolation

    [template.replace(/\{\{([^}]+)\}\}/g, callback)].  A match at the start of
    [s] is two opening braces, the longest run of characters other than a
    closing brace, which must not be empty, and two closing braces.  (A
    shorter run cannot be followed by a closing brace, so the longest one is
    the only candidate.) *)

Definition not_closing (c : ascii) : bool := negb (Ascii.eqb c "}").

(** The captured group of the match at the start of [s], if there is one. *)
Definition match_here (s : string) : option string :=
  match s with
  | String a (String b r) =>
      if Ascii.eqb a "{" && Ascii.eqb b "{" then
        match span not_closing r with
        | (String _ _ as path, String c (String d _)) =>
            if Ascii.eqb c "}" && Ascii.eqb d "}" then Some path else None
        | _ => None
        end
      else None
  | _ => None
  end.

(** What the global search finds, left to right: a character no match
    covers, or a match with its captured group. *)
Inductive piece : Type :=
| Char (c : ascii)
| Match (path : string).

Definition matched_text (path : string) : string := "{{" +:+ path +:+ "}}".

(** The search resumes after the end of a match: [skip] counts the
    characters of the last match that are still ahead. *)
Fixpoint search (s : string) (skip : nat) : list piece :=
  match s with
  | EmptyString => []
  | String c r =>
      match skip with
      | S k => search r k
      | O =>
          match match_here s with
          | Some path => Match path :: search r (String.length path + 3)
          | None => Char c :: search r 0
          end
      end
  end.

(** The replacement callback of [interpolate]. *)
Definition replacement (whole path : string) : Action string :=
  let trimmedPath := trim path in
  let! v := getVariableByPath trimmedPath in
  if is_undefined v || is_null v then ret whole
  else if typeof_object v then
    ret (match JSON_stringify v with Some t => t | None => "undefined" end)
  else ret (ToString v).   (* a boolean, a number or a string: [String] returns *)

Fixpoint replace_pieces (ps : list piece) : Action string :=
  match ps with
  | [] => ret EmptyString
  | Char c :: rest =>
      let! out := replace_pieces rest in ret (String c out)
  | Match path :: rest =>
      let! t := replacement (matched_text path) path in
      let! out := replace_pieces rest in
      ret (t +:+ out)
  end.

Definition interpolate (template : string) : Action string :=
  replace_pieces (search template 0).

(** *** System variables

    [new Date()] is read from the environment: a [Clock] is what the runtime
    answers at the moment of the call. *)
Record Clock : Type := mkClock {
  Date_now : float;
  toISOString : string;
  toTimeString : string
}.

Definition first_part (sep : ascii) (s : string) : value :=
  match split sep s with
  | h :: _ => VStr h
  | [] => VUndefined
  end.

Definition SYSTEM_VARIABLES : list (string * (Clock -> value)) :=
  [ ("timestamp", fun c => VNum (Date_now c));
    ("date", fun c => first_part "T" (toISOString c));
    ("time", fun c => first_part " " (toTimeString c));
    ("datetime", fun c => VStr (toISOString c)) ].

(** *** JSON operations and the dispatcher *)

Definition console_warn (msg : string) : Action unit :=
  fun w => (tt, mkWorld (state w) (console w ++ [msg])).

(** [stringifyValue]: a string as it is, anything else as indented JSON.
    [JSON.stringify] does not throw on the values of the model; it returns
    [undefined] for [undefined], and so does [stringifyValue]. *)
Definition stringifyValue (v : value) : value :=
  match v with
  | VStr s => VStr s
  | _ =>
      match JSON_stringify_spaced "  " EmptyString v with
      | Some t => VStr t
      | None => VUndefined
      end
  end.

(** A string argument that was given and is not empty: what [if (s)] tests
    for an optional string. *)
Definition provided (s : option string) : option string :=
  match s with
  | Some (String _ _ as t) => Some t
  | _ => None
  end.

Section Operations.

(** [JSON.parse] is the runtime's: [None] when it throws. *)
Variable JSON_parse : string -> option value.

Definition parseJson (jsonString : string) : Action value :=
  match JSON_parse jsonString with
  | Some v => ret v
  | None =>
      console_error ("Failed to parse JSON: " +:+ jsonString) >>
      ret VNull
  end.

Definition executeVariableOperation (operation variableName : string) (v : value)
    (sourceVariable jsonPath : option string) : Action outcome :=
  if String.eqb operation "set" then returns (setVariable variableName v)
  else if String.eqb operation "get" then
    match provided sourceVariable with
    | Some source =>
        let! sourceValue :=
          match provided jsonPath with
          | Some path => getVariableByPath (source +:+ "." +:+ path)
          | None => getVariable source
          end in
        returns (setVariable variableName sourceValue)
    | None => ret Returned
    end
  else if String.eqb operation "add" then
    match callNumber v with
    | Some n => addToVariable variableName n
    | None => ret Thrown
    end
  else if String.eqb operation "subtract" then
    match callNumber v with
    | Some n => subtractFromVariable variableName n
    | None => ret Thrown
    end
  else if String.eqb operation "multiply" then
    match callNumber v with
    | Some n => multiplyVariable variableName n
    | None => ret Thrown
    end
  else if String.eqb operation "divide" then
    match callNumber v with
    | Some n => divideVariable variableName n
    | None => ret Thrown
    end
  else if String.eqb operation "increment" then incrementVariable variableName
  else if String.eqb operation "decrement" then decrementVariable variableName
  else if String.eqb operation "parse_json" then
    match callString v with
    | Some text =>
        let! parsed := parseJson text in
        returns (setVariable variableName parsed)
    | None => ret Thrown
    end
  else if String.eqb operation "stringify" then
    match provided sourceVariable with
    | Some source =>
        let! toStringify := getVariable source in
        returns (setVariable variableName (stringifyValue toStringify))
    | None => returns (setVariable variableName (stringifyValue v))
    end
  else if String.eqb operation "append" then
    match callString v with
    | Some text => appendToVariable variableName text
    | None => ret Thrown
    end
  else returns (console_warn ("Unknown variable operation: " +:+ operation)).

End Operations.

End VariableStore.

(** ** The variable picker ([VariablePicker], [VariableInput])

    What the picker computes: the entries it lists, the filter of its search
    box and the text a click inserts.  The rendering is left out. *)

Module VariablePicker.
Import Js VariableStore.

(** [s.toLowerCase()] on the code units of the model: the letters A to Z and
    the capital letters of Latin-1 (U+00C0 to U+00DE but the multiplication
    sign) move up by 32. *)
Definition lower_char (c : ascii) : ascii :=
  let n := nat_of_ascii c in
  if ((65 <=? n)%nat && (n <=? 90)%nat)
     || ((192 <=? n)%nat && (n <=? 222)%nat && negb (Nat.eqb n 215))
  then ascii_of_nat (n + 32) else c.

Fixpoint toLowerCase (s : string) : string :=
  match s with
  | EmptyString => EmptyString
  | String c r => String (lower_char c) (toLowerCase r)
  end.

Fixpoint starts_with (t s : string) : bool :=
  match t, s with
  | EmptyString, _ => true
  | String a t', String b s' => Ascii.eqb a b && starts_with t' s'
  | String _ _, EmptyString => false
  end.

(** [s.includes(t)] *)
Fixpoint includes_text (t s : string) : bool :=
  starts_with t s ||
  match s with
  | EmptyString => false
  | String _ r => includes_text t r
  end.

Record VariableInfo : Type := mkInfo {
  name : string;
  source : string;
  type : string
}.

(** A node of the workflow as the picker reads it: its type and its data,
    either of which may be missing. *)
Record Node : Type := mkNode {
  node_type : option string;
  node_data : option (list (string * value))
}.

(** [data?.key] *)
Definition data_get (data : option (list (string * value))) (key : string) : value :=
  match data with
  | Some fields => own_property key fields
  | None => VUndefined
  end.

Definition system_entries : list VariableInfo :=
  [ mkInfo "timestamp" "System" "number";
    mkInfo "date" "System" "string";
    mkInfo "time" "System" "string";
    mkInfo "datetime" "System" "string" ].

Definition type_is (t : option string) (known : string) : bool :=
  match t with
  | Some s => String.eqb s known
  | None => false
  end.

(** The entries one node adds, in the order of the two [if]s; [None] when
    [String(...)] of a name throws. *)
Definition node_entries (node : Node) : option (list VariableInfo) :=
  let data := node_data node in
  match
    (if type_is (node_type node) "variable" && ToBoolean (data_get data "variableName")
     then
       match callString (data_get data "variableName") with
       | Some name =>
           Some [ mkInfo name "Variable Node"
                    (if String.eqb (typeof (data_get data "value")) "object" then "object"
                     else typeof (data_get data "value")) ]
       | None => None
       end
     else Some [])
  with
  | Some variable =>
      if ToBoolean (data_get data "outputVariable")
      then
        let t0 := "object"%string in
        let t1 := if type_is (node_type node) "getQuote" then "quote"%string else t0 in
        let t2 := if type_is (node_type node) "getDepth" then "depth"%string else t1 in
        let t3 := if type_is (node_type node) "openPosition" then "position"%string else t2 in
        let t4 := if type_is (node_type node) "history" then "array"%string else t3 in
        match callString (data_get data "outputVariable") with
        | Some name =>
            Some (variable ++
                  [ mkInfo name
                      (match provided (node_type node) with
                       | Some t => t
                       | None => "Data Node"%string
                       end)
                      t4 ])
        | None => None
        end
      else Some variable
  | None => None
  end.

(** [nodes.forEach(...)]: a throw ends the loop and the hook. *)
Fixpoint pushed_by (nodes : list Node) : option (list VariableInfo) :=
  match nodes with
  | [] => Some []
  | node :: rest =>
      match node_entries node with
      | Some entries =>
          match pushed_by rest with
          | Some more => Some (entries ++ more)
          | None => None
          end
      | None => None
      end
  end.

Definition useWorkflowVariables (nodes : list Node) : option (list VariableInfo) :=
  match pushed_by nodes with
  | Some entries => Some (system_entries ++ entries)
  | None => None
  end.

Definition COMMON_PATHS : list (string * list string) :=
  [ ("quote", ["ltp"; "open"; "high"; "low"; "close"; "volume"; "prev_close"]);
    ("depth", ["buy[0].price"; "buy[0].quantity"; "sell[0].price"; "sell[0].quantity"]);
    ("position", ["quantity"; "average_price"; "pnl"; "ltp"]);
    ("order", ["order_id"; "status"; "filled_quantity"; "average_price"]) ]%string.

(** [COMMON_PATHS[type]] *)
Fixpoint common_paths_from (table : list (string * list string)) (t : string)
    : option (list string) :=
  match table with
  | [] => None
  | (k, paths) :: rest => if String.eqb k t then Some paths else common_paths_from rest t
  end.

Definition common_paths (t : string) : option (list string) :=
  common_paths_from COMMON_PATHS t.

Definition filteredVariables (variables : list VariableInfo) (search : string)
    : list VariableInfo :=
  match search with
  | EmptyString => variables
  | _ =>
      let lower := toLowerCase search in
      List.filter (fun v => includes_text lower (toLowerCase (name v))
                            || includes_text lower (toLowerCase (source v)))
                  variables
  end.

(** The state of the picker: whether the list is open, and the search text. *)
Record PickerState : Type := mkPicker {
  open : bool;
  search : string
}.

(** [handleSelect]: the text handed to [onSelect], and the picker closed
    with its search cleared. *)
Definition handleSelect (variable : string) (st : PickerState) : string * PickerState :=
  (matched_text variable, mkPicker false EmptyString).

(** The paths shown under an entry: [COMMON_PATHS[variable.type].slice(0, 4)]
    when the type has common paths.  (The types the picker gives its entries
    are never names of inherited properties of the table.) *)
Definition offered_paths (v : VariableInfo) : list string :=
  match common_paths (type v) with
  | Some paths => firstn 4 paths
  | None => []
  end.

(** What the buttons of one entry pass to [handleSelect]: the name, and the
    name with each of the first four common paths of its type. *)
Definition entry_choices (v : VariableInfo) : list string :=
  name v ::
  match common_paths (type v) with
  | Some paths => map (fun path => name v +:+ "." +:+ path) (firstn 4 paths)
  | None => []
  end.

(** [VariableInput]'s [handleVariableSelect]: the new text of the input. *)
Definition handleVariableSelect (current variable : string) : string :=
  current +:+ variable.

End VariablePicker.

(** ** The market data stream ([WebSocketService])

    The service keeps one socket, the subscriptions by key, the messages
    that wait for the socket to open and the connection handlers.  The
    socket, the timers, the console and the handlers belong to the runtime
    and to the callers: what the service does to them is recorded, oldest
    first, in [effects].  The four handlers [connect] installs on a socket
    ([onopen], [onmessage], [onerror], [onclose]) are functions of their
    own, which the runtime calls. *)

Module WebSocketService.
Import Js.

(** [WebSocket.readyState] *)
Inductive ReadyState : Type := CONNECTING | OPEN | CLOSING | CLOSED.

(** A function is known by its identity: [removeHandler] compares with
    [!==]. *)
Definition MessageHandler : Type := nat.
Definition ConnectionHandler : Type := nat.

Record Instrument : Type := mkInstrument {
  symbol : string;
  exchange : string
}.

Record Subscription : Type := mkSubscription {
  type : string;
  instrument : Instrument;
  callback : MessageHandler
}.

Inductive Effect : Type :=
| NewWebSocket (url : string)
| WsSend (frame : string)
| WsClose
| Callback (handler : MessageHandler) (update : value)
| Handler (handler : ConnectionHandler)
| ConsoleLog (text : string) (rest : list value)
| ConsoleError (text : string)
| SetTimeout (delay : Z)
| SetInterval
| ClearInterval
| Resolve
| Reject.

(** The fields of the class.  [ws] is [None] for [null] and otherwise the
    [readyState] of the socket; [subscriptions] is the [Map] in insertion
    order. *)
Record Service : Type := mkService {
  ws : option ReadyState;
  wsUrl : string;
  subscriptions : list (string * list Subscription);
  reconnectAttempts : Z;
  isConnecting : bool;
  messageQueue : list value;
  onConnectHandlers : list ConnectionHandler;
  onDisconnectHandlers : list ConnectionHandler;
  onErrorHandlers : list ConnectionHandler;
  effects : list Effect
}.

Definition maxReconnectAttempts : Z := 5.
Definition reconnectDelay : Z := 1000.

(** [new WebSocketService()] *)
Definition wsService : Service :=
  mkService None EmptyString [] 0 false [] [] [] [] [].

Definition set_ws (x : option ReadyState) (s : Service) : Service :=
  mkService x (wsUrl s) (subscriptions s) (reconnectAttempts s) (isConnecting s)
    (messageQueue s) (onConnectHandlers s) (onDisconnectHandlers s) (onErrorHandlers s)
    (effects s).

Definition set_wsUrl (x : string) (s : Service) : Service :=
  mkService (ws s) x (subscriptions s) (reconnectAttempts s) (isConnecting s)
    (messageQueue s) (onConnectHandlers s) (onDisconnectHandlers s) (onErrorHandlers s)
    (effects s).

Definition set_subscriptions (x : list (string * list Subscription)) (s : Service) : Service :=
  mkService (ws s) (wsUrl s) x (reconnectAttempts s) (isConnecting s)
    (messageQueue s) (onConnectHandlers s) (onDisconnectHandlers s) (onErrorHandlers s)
    (effects s).

Definition set_reconnectAttempts (x : Z) (s : Service) : Service :=
  mkService (ws s) (wsUrl s) (subscriptions s) x (isConnecting s)
    (messageQueue s) (onConnectHandlers s) (onDisconnectHandlers s) (onErrorHandlers s)
    (effects s).

Definition set_isConnecting (x : bool) (s : Service) : Service :=
  mkService (ws s) (wsUrl s) (subscriptions s) (reconnectAttempts s) x
    (messageQueue s) (onConnectHandlers s) (onDisconnectHandlers s) (onErrorHandlers s)
    (effects s).

Definition set_messageQueue (x : list value) (s : Service) : Service :=
  mkService (ws s) (wsUrl s) (subscriptions s) (reconnectAttempts s) (isConnecting s)
    x (onConnectHandlers s) (onDisconnectHandlers s) (onErrorHandlers s)
    (effects s).

Definition set_onConnectHandlers (x : list ConnectionHandler) (s : Service) : Service :=
  mkService (ws s) (wsUrl s) (subscriptions s) (reconnectAttempts s) (isConnecting s)
    (messageQueue s) x (onDisconnectHandlers s) (onErrorHandlers s)
    (effects s).

Definition set_onDisconnectHandlers (x : list ConnectionHandler) (s : Service) : Service :=
  mkService (ws s) (wsUrl s) (subscriptions s) (reconnectAttempts s) (isConnecting s)
    (messageQueue s) (onConnectHandlers s) x (onErrorHandlers s)
    (effects s).

Definition set_onErrorHandlers (x : list ConnectionHandler) (s : Service) : Service :=
  mkService (ws s) (wsUrl s) (subscriptions s) (reconnectAttempts s) (isConnecting s)
    (messageQueue s) (onConnectHandlers s) (onDisconnectHandlers s) x
    (effects s).

Definition emit (e : Effect) (s : Service) : Service :=
  mkService (ws s) (wsUrl s) (subscriptions s) (reconnectAttempts s) (isConnecting s)
    (messageQueue s) (onConnectHandlers s) (onDisconnectHandlers s) (onErrorHandlers s)
    (effects s ++ [e]).

(** What the service takes from outside: [JSON.parse] ([None] when it
    throws), whether [new WebSocket(url)] returns, and of a handler or a
    callback only whether a call of it throws, taken to be the same at every
    call.  A handler that calls back into the service is outside the
    model. *)
Record Runtime : Type := mkRuntime {
  JSON_parse : string -> option value;
  WebSocket_constructs : string -> bool;
  handler_throws : ConnectionHandler -> bool;
  callback_throws : MessageHandler -> value -> bool
}.

(** *** The [Map] of subscriptions *)

Fixpoint map_get {A : Type} (key : string) (m : list (string * A)) : option A :=
  match m with
  | [] => None
  | (k, x) :: rest => if String.eqb k key then Some x else map_get key rest
  end.

(** [m.set(key, x)]: an entry that exists keeps its place. *)
Fixpoint map_set {A : Type} (key : string) (x : A) (m : list (string * A))
    : list (string * A) :=
  match m with
  | [] => [(key, x)]
  | (k, y) :: rest =>
      if String.eqb k key then (k, x) :: rest else (k, y) :: map_set key x rest
  end.

Definition map_delete {A : Type} (key : string) (m : list (string * A))
    : list (string * A) :=
  List.filter (fun entry => negb (String.eqb (fst entry) key)) m.

(** *** Sending *)

(** [this.ws?.readyState === WebSocket.OPEN] *)
Definition isConnected (s : Service) : bool :=
  match ws s with
  | Some OPEN => true
  | _ => false
  end.

(** The text [ws.send(JSON.stringify(message))] writes. *)
Definition frame (message : value) : string :=
  match JSON_stringify message with
  | Some text => text
  | None => "undefined"
  end.

Definition send (message : value) (s : Service) : Service :=
  if isConnected s then emit (WsSend (frame message)) s
  else set_messageQueue (messageQueue s ++ [message]) s.

(** *** Subscriptions *)

Definition getSubscriptionKey (type : string) (instrument : Instrument) : string :=
  type +:+ ":" +:+ exchange instrument +:+ ":" +:+ symbol instrument.

Definition addSubscription (type : string) (instrument : Instrument)
    (callback : MessageHandler) (s : Service) : Service :=
  let key := getSubscriptionKey type instrument in
  let existing := match map_get key (subscriptions s) with
                  | Some subs => subs
                  | None => []
                  end in
  set_subscriptions
    (map_set key (existing ++ [mkSubscription type instrument callback]) (subscriptions s)) s.

Definition removeSubscription (type : string) (instrument : Instrument) (s : Service)
    : Service :=
  set_subscriptions (map_delete (getSubscriptionKey type instrument) (subscriptions s)) s.

(** [{ symbol: i.symbol, exchange: i.exchange }] *)
Definition instrument_value (i : Instrument) : value :=
  VObj [("symbol", VStr (symbol i)); ("exchange", VStr (exchange i))]%string.

(** [{ action, type, instruments }] *)
Definition request (action type : string) (instruments : list value) : value :=
  VObj [("action", VStr action); ("type", VStr type);
        ("instruments", VArr instruments)]%string.

Definition subscribeLTP (instruments : list Instrument) (callback : MessageHandler)
    (s : Service) : Service :=
  send (request "subscribe" "ltp" (map instrument_value instruments))
    (fold_left (fun s' i => addSubscription "ltp" i callback s') instruments s).

Definition unsubscribeLTP (instruments : list Instrument) (s : Service) : Service :=
  send (request "unsubscribe" "ltp" (map instrument_value instruments))
    (fold_left (fun s' i => removeSubscription "ltp" i s') instruments s).

Definition subscribeQuote (instruments : list Instrument) (callback : MessageHandler)
    (s : Service) : Service :=
  send (request "subscribe" "quote" (map instrument_value instruments))
    (fold_left (fun s' i => addSubscription "quote" i callback s') instruments s).

Definition unsubscribeQuote (instruments : list Instrument) (s : Service) : Service :=
  send (request "unsubscribe" "quote" (map instrument_value instruments))
    (fold_left (fun s' i => removeSubscription "quote" i s') instruments s).

Definition subscribeDepth (instruments : list Instrument) (callback : MessageHandler)
    (s : Service) : Service :=
  send (request "subscribe" "depth" (map instrument_value instruments))
    (fold_left (fun s' i => addSubscription "depth" i callback s') instruments s).

Definition unsubscribeDepth (instruments : list Instrument) (s : Service) : Service :=
  send (request "unsubscribe" "depth" (map instrument_value instruments))
    (fold_left (fun s' i => removeSubscription "depth" i s') instruments s).

(** *** Connection handlers *)

Definition onConnect (handler : ConnectionHandler) (s : Service) : Service :=
  set_onConnectHandlers (onConnectHandlers s ++ [handler]) s.

Definition onDisconnect (handler : ConnectionHandler) (s : Service) : Service :=
  set_onDisconnectHandlers (onDisconnectHandlers s ++ [handler]) s.

Definition onError (handler : ConnectionHandler) (s : Service) : Service :=
  set_onErrorHandlers (onErrorHandlers s ++ [handler]) s.

Definition removeHandler (handler : ConnectionHandler) (s : Service) : Service :=
  let others := List.filter (fun h => negb (Nat.eqb h handler)) in
  set_onErrorHandlers (others (onErrorHandlers s))
    (set_onDisconnectHandlers (others (onDisconnectHandlers s))
       (set_onConnectHandlers (others (onConnectHandlers s)) s)).

(** [handlers.forEach(handler => handler(...))]: the calls in order, up to
    the first that throws; [false] when one threw. *)
Fixpoint notify (rt : Runtime) (handlers : list ConnectionHandler) (s : Service)
    : Service * bool :=
  match handlers with
  | [] => (s, true)
  | h :: rest =>
      let s1 := emit (Handler h) s in
      if handler_throws rt h then (s1, false) else notify rt rest s1
  end.

(** *** Disconnecting *)

Definition disconnect (s : Service) : Service :=
  let s1 := match ws s with
            | Some _ => set_ws None (emit WsClose s)
            | None => s
            end in
  set_messageQueue [] (set_subscriptions [] s1).

(** *** Incoming messages *)

Definition is_text (v : value) (text : string) : bool :=
  match v with
  | VStr t => String.eqb t text
  | _ => false
  end.

(** [handleMessage]; [None] when it throws, which reading a property of
    [null] does, and writing the key from a type, exchange or symbol that
    does not convert to a string.  [now] is what [Date.now()] returns. *)
Definition handleMessage (rt : Runtime) (now : float) (data : value) (s : Service)
    : option Service :=
  match data with
  | VUndefined | VNull => None
  | _ =>
      let type := get_property data "type" in
      let symbol := get_property data "symbol" in
      let exchange := get_property data "exchange" in
      if negb (ToBoolean type) || negb (ToBoolean symbol) || negb (ToBoolean exchange) then
        let action := get_property data "action" in
        if is_text action "subscribed" || is_text action "unsubscribed" then
          Some (emit (ConsoleLog ("[WebSocket] " +:+ ToString action +:+ ":")
                        [get_property data "instruments"]) s)
        else Some s
      else
        match callString type, callString exchange, callString symbol with
        | Some type_text, Some exchange_text, Some symbol_text =>
            let key := getSubscriptionKey type_text
                         (mkInstrument symbol_text exchange_text) in
            match map_get key (subscriptions s) with
            | Some subs =>
                let update :=
                  VObj ([("type", type); ("symbol", symbol); ("exchange", exchange)]%string
                        ++ (if is_text type "ltp"
                            then [("ltp", get_property data "ltp");
                                  ("timestamp", VNum now)]%string
                            else [])
                        ++ (if is_text type "quote"
                            then [("data", get_property data "data");
                                  ("timestamp", VNum now)]%string
                            else [])
                        ++ (if is_text type "depth"
                            then [("data", get_property data "data");
                                  ("timestamp", VNum now)]%string
                            else [])) in
                Some (fold_left
                        (fun s' sub =>
                           let s1 := emit (Callback (callback sub) update) s' in
                           if callback_throws rt (callback sub) update
                           then emit (ConsoleError "[WebSocket] Callback error:") s1
                           else s1)
                        subs s)
            | None => Some s
            end
        | _, _, _ => None
        end
  end.

(** [ws.onmessage], for the text [event.data]. *)
Definition onmessage (rt : Runtime) (now : float) (text : string) (s : Service) : Service :=
  let failed := emit (ConsoleError "[WebSocket] Failed to parse message:") s in
  match JSON_parse rt text with
  | Some data =>
      match handleMessage rt now data s with
      | Some s' => s'
      | None => failed
      end
  | None => failed
  end.

(** *** Subscribing again *)

(** One step of the [forEach] in [resubscribeAll]: the three arrays, and
    the entry of the map. *)
Definition group (arrays : list value * list value * list value)
    (entry : string * list Subscription) : list value * list value * list value :=
  let '(ltpInstruments, quoteInstruments, depthInstruments) := arrays in
  let '(key, subs) := entry in
  match subs with
  | [] => arrays
  | _ :: _ =>
      let parts := split ":" key in
      let part i := match nth_error parts i with
                    | Some text => VStr text
                    | None => VUndefined
                    end in
      let instrument := VObj [("symbol", part 2%nat); ("exchange", part 1%nat)]%string in
      if is_text (part 0%nat) "ltp"
      then (ltpInstruments ++ [instrument], quoteInstruments, depthInstruments)
      else if is_text (part 0%nat) "quote"
      then (ltpInstruments, quoteInstruments ++ [instrument], depthInstruments)
      else if is_text (part 0%nat) "depth"
      then (ltpInstruments, quoteInstruments, depthInstruments ++ [instrument])
      else arrays
  end.

Definition resubscribeAll (s : Service) : Service :=
  let '(ltpInstruments, quoteInstruments, depthInstruments) :=
    fold_left group (subscriptions s) ([], [], []) in
  let s1 := match ltpInstruments with
            | [] => s
            | _ :: _ => send (request "subscribe" "ltp" ltpInstruments) s
            end in
  let s2 := match quoteInstruments with
            | [] => s1
            | _ :: _ => send (request "subscribe" "quote" quoteInstruments) s1
            end in
  match depthInstruments with
  | [] => s2
  | _ :: _ => send (request "subscribe" "depth" depthInstruments) s2
  end.

(** *** Connecting *)

(** The body of the promise [connect] returns. *)
Definition connect (rt : Runtime) (url : string) (s : Service) : Service :=
  if isConnected s then emit Resolve s
  else if isConnecting s then emit SetInterval s
  else
    let s1 := set_wsUrl url (set_isConnecting true s) in
    if WebSocket_constructs rt url
    then set_ws (Some CONNECTING) (emit (NewWebSocket url) s1)
    else emit Reject (set_isConnecting false s1).

(** One tick of the interval of a [connect] that waits. *)
Definition checkConnection (s : Service) : Service :=
  if isConnected s then emit Resolve (emit ClearInterval s) else s.

(** The [while] loop of [ws.onopen]: [None] when [fuel] rounds do not empty
    the queue. *)
Fixpoint flush (fuel : nat) (s : Service) : option Service :=
  match messageQueue s with
  | [] => Some s
  | msg :: rest =>
      match fuel with
      | O => None
      | S fuel' =>
          let s1 := set_messageQueue rest s in
          flush fuel' (if ToBoolean msg then send msg s1 else s1)
      end
  end.

(** [ws.onopen] of the socket [connect(url)] made. *)
Definition onopen (rt : Runtime) (url : string) (fuel : nat) (s : Service)
    : option Service :=
  let s1 := set_reconnectAttempts 0
              (set_isConnecting false
                 (emit (ConsoleLog "[WebSocket] Connected to" [VStr url]) s)) in
  match flush fuel s1 with
  | Some s2 =>
      let s3 := resubscribeAll s2 in
      let '(s4, returned) := notify rt (onConnectHandlers s3) s3 in
      Some (if returned then emit Resolve s4 else s4)
  | None => None
  end.

(** [ws.onerror] *)
Definition onerror (rt : Runtime) (s : Service) : Service :=
  let s1 := set_isConnecting false (emit (ConsoleError "[WebSocket] Error:") s) in
  let '(s2, returned) := notify rt (onErrorHandlers s1) s1 in
  if returned then emit Reject s2 else s2.

(** [ws.onclose] *)
Definition onclose (rt : Runtime) (s : Service) : Service :=
  let s1 := set_isConnecting false (emit (ConsoleLog "[WebSocket] Disconnected" []) s) in
  let '(s2, returned) := notify rt (onDisconnectHandlers s1) s1 in
  if returned && (reconnectAttempts s2 <? maxReconnectAttempts)%Z then
    let s3 := set_reconnectAttempts (reconnectAttempts s2 + 1) s2 in
    let s4 := emit (ConsoleLog ("[WebSocket] Reconnecting... Attempt "
                                +:+ digits_of_Z (reconnectAttempts s3)) []) s3 in
    emit (SetTimeout (reconnectDelay * reconnectAttempts s4)) s4
  else s2.

(** What the timer of [ws.onclose] runs. *)
Definition reconnect (rt : Runtime) (s : Service) : Service :=
  connect rt (wsUrl s) s.

(** *** Runs

    What can happen to the service: a call of one of its methods, one of the
    four events of a socket it made, a timer, or the runtime moving the
    socket to another [readyState]. *)
Inductive Call : Type :=
| Connect (url : string)
| Disconnect
| SubscribeLTP (instruments : list Instrument) (callback : MessageHandler)
| UnsubscribeLTP (instruments : list Instrument)
| SubscribeQuote (instruments : list Instrument) (callback : MessageHandler)
| UnsubscribeQuote (instruments : list Instrument)
| SubscribeDepth (instruments : list Instrument) (callback : MessageHandler)
| UnsubscribeDepth (instruments : list Instrument)
| OnConnect (handler : ConnectionHandler)
| OnDisconnect (handler : ConnectionHandler)
| OnError (handler : ConnectionHandler)
| RemoveHandler (handler : ConnectionHandler)
| Opened (url : string)
| Message (now : float) (text : string)
| Failed
| Closed
| TimerFired
| IntervalFired
| ReadyStateIs (readyState : ReadyState).

Definition step (rt : Runtime) (fuel : nat) (c : Call) (s : Service) : option Service :=
  match c with
  | Connect url => Some (connect rt url s)
  | Disconnect => Some (disconnect s)
  | SubscribeLTP instruments callback => Some (subscribeLTP instruments callback s)
  | UnsubscribeLTP instruments => Some (unsubscribeLTP instruments s)
  | SubscribeQuote instruments callback => Some (subscribeQuote instruments callback s)
  | UnsubscribeQuote instruments => Some (unsubscribeQuote instruments s)
  | SubscribeDepth instruments callback => Some (subscribeDepth instruments callback s)
  | UnsubscribeDepth instruments => Some (unsubscribeDepth instruments s)
  | OnConnect handler => Some (onConnect handler s)
  | OnDisconnect handler => Some (onDisconnect handler s)
  | OnError handler => Some (onError handler s)
  | RemoveHandler handler => Some (removeHandler handler s)
  | Opened url => onopen rt url fuel s
  | Message now text => Some (onmessage rt now text s)
  | Failed => Some (onerror rt s)
  | Closed => Some (onclose rt s)
  | TimerFired => Some (reconnect rt s)
  | IntervalFired => Some (checkConnection s)
  | ReadyStateIs readyState =>
      Some (match ws s with
            | Some _ => set_ws (Some readyState) s
            | None => s
            end)
  end.

Fixpoint run (rt : Runtime) (fuel : nat) (calls : list Call) (s : Service)
    : option Service :=
  match calls with
  | [] => Some s
  | c :: rest =>
      match step rt fuel c s with
      | Some s' => run rt fuel rest s'
      | None => None
      end
  end.

End WebSocketService.

(** ** Option strike resolution *)

Module OptionResolver.

Open Scope Z_scope.

Inductive OptionType : Type := CE | PE.

Inductive Moneyness : Type := InTheMoney | OutOfTheMoney.

(** An offset token: [ATM], [ITM<k>] or [OTM<k>] with [k >= 1]. *)
Inductive Offset : Type :=
| ATM
| ITM (k : positive)
| OTM (k : positive).

Inductive Direction : Type := Down | Up.

Definition invert (d : Direction) : Direction :=
  match d with Down => Up | Up => Down end.

(** Modelled from the spec: the option resolver is not among the sources
    (only the responses of the client library's README show it at work).
    For [CE], ITM moves strikes downward and OTM moves upward; for [PE] the
    directions invert. *)
Definition direction (optionType : OptionType) (m : Moneyness) : Direction :=
  let for_CE := match m with InTheMoney => Down | OutOfTheMoney => Up end in
  match optionType with
  | CE => for_CE
  | PE => invert for_CE
  end.

(** One strike step from [strike]. *)
Definition step (d : Direction) (strikeStep strike : Z) : Z :=
  match d with
  | Down => strike - strikeStep
  | Up => strike + strikeStep
  end.

(** Modelled from the spec: the at-the-money strike is the multiple of the
    strike step nearest to the spot price, a tie going to the higher strike.
    Prices are integers in a common unit (paise), [0 < strikeStep]. *)
Definition atmStrike (spot strikeStep : Z) : Z :=
  strikeStep * ((2 * spot + strikeStep) / (2 * strikeStep)).

(** Modelled from the spec: [ATM] is the at-the-money strike; [ITM<k>] and
    [OTM<k>] walk [k] strike steps from it in the direction of the option
    type. *)
Definition resolveStrike (atm strikeStep : Z) (optionType : OptionType)
    (offset : Offset) : Z :=
  match offset with
  | ATM => atm
  | ITM k => Pos.iter (step (direction optionType InTheMoney) strikeStep) atm k
  | OTM k => Pos.iter (step (direction optionType OutOfTheMoney) strikeStep) atm k
  end.

(** The offset a token spells, [None] for any other text. *)
Definition parseOffset (token : string) : option Offset :=
  match token with
  | "ATM"%string => Some ATM
  | String a (String b (String c digits)) =>
      match Js.digits_value 10 digits with
      | Some (Zpos k) =>
          if String.eqb (String a (String b (String c EmptyString))) "ITM" then Some (ITM k)
          else if String.eqb (String a (String b (String c EmptyString))) "OTM" then Some (OTM k)
          else None
      | _ => None
      end
  | _ => None
  end.

Close Scope Z_scope.

End OptionResolver.

(** ** Order splitting *)

Module SplitOrder.

Open Scope Z_scope.

(** One chunk of a split order, as the response reports it. *)
Record Chunk : Type := mkChunk {
  order_num : Z;
  quantity : Z
}.

(** [ceil(totalQuantity / splitSize)] *)
Definition chunkCount (totalQuantity splitSize : Z) : Z :=
  (totalQuantity + splitSize - 1) / splitSize.

(** Modelled from the spec: the order orchestrator is not among the sources
    (only a response of the client library's README shows it at work).  One
    order of [totalQuantity] is partitioned into [ceil(totalQuantity /
    splitSize)] chunks numbered from 1 in ascending order; chunk [i] takes
    what the chunks before it left, [splitSize] at most. *)
Definition splitOrder (totalQuantity splitSize : Z) : list Chunk :=
  map (fun i : nat =>
         let num := Z.of_nat i in
         mkChunk num (Z.min splitSize (totalQuantity - (num - 1) * splitSize)))
      (seq 1 (Z.to_nat (chunkCount totalQuantity splitSize))).

Close Scope Z_scope.

End SplitOrder.

(** ** The properties in their own words

    Definitions the statements below are written with: what a path denotes
    inside a value, and a template as its author sees it. *)

Module Reading.
Import Js VariableStore.

(** The value at [keys] inside [v]: each key selects a property of a mapping
    or an element (or the length) of a list; inside anything else, and where
    the property is missing, there is nothing: [undefined]. *)
Fixpoint value_at (v : value) (keys : list string) : value :=
  match keys with
  | [] => v
  | key :: rest =>
      match v with
      | VObj _ | VArr _ => value_at (get_property v key) rest
      | _ => VUndefined
      end
  end.

(** A template: literal text and placeholders [{{path}}]. *)
Inductive part : Type :=
| Lit (text : string)
| Hole (path : string).

Definition part_text (p : part) : string :=
  match p with
  | Lit text => text
  | Hole path => matched_text path
  end.

Fixpoint assemble (parts : list part) : string :=
  match parts with
  | [] => EmptyString
  | p :: rest => part_text p +:+ assemble rest
  end.

(** Literal text opens no placeholder: each opening brace in it is followed,
    within the text, by a character that is not an opening brace. *)
Fixpoint plain (text : string) : bool :=
  match text with
  | EmptyString => true
  | String c r =>
      if Ascii.eqb c "{" then
        match r with
        | String d _ => negb (Ascii.eqb d "{") && plain r
        | EmptyString => false
        end
      else plain r
  end.

(** A placeholder's path is not empty and holds no closing brace. *)
Definition well_formed (p : part) : bool :=
  match p with
  | Lit text => plain text
  | Hole EmptyString => false
  | Hole path => negb (includes "}" path)
  end.

(** A value interpolation writes out: anything but [undefined] and [null]. *)
Definition substitutable (v : value) : bool :=
  negb (is_undefined v || is_null v).

(** Mappings and lists as JSON text, scalars as [String] gives them. *)
Definition text_of (v : value) : string :=
  match v with
  | VArr _ | VObj _ =>
      match JSON_stringify v with Some t => t | None => "undefined" end
  | _ => ToString v
  end.

Definition rendered (w : World) (p : part) : string :=
  match p with
  | Lit text => text
  | Hole path =>
      let v := eval (getVariableByPath (trim path)) w in
      if substitutable v then text_of v else matched_text path
  end.

Fixpoint render_all (w : World) (parts : list part) : string :=
  match parts with
  | [] => EmptyString
  | p :: rest => rendered w p +:+ render_all w rest
  end.

(** The text a piece stands for in the template, and what [interpolate]
    writes for it. *)
Definition piece_text (q : piece) : string :=
  match q with
  | Char c => String c EmptyString
  | Match path => matched_text path
  end.

Fixpoint pieces_text (ps : list piece) : string :=
  match ps with
  | [] => EmptyString
  | q :: rest => piece_text q +:+ pieces_text rest
  end.

Definition rendered_piece (w : World) (q : piece) : string :=
  match q with
  | Char c => String c EmptyString
  | Match path => rendered w (Hole path)
  end.

Fixpoint render_pieces (w : World) (ps : list piece) : string :=
  match ps with
  | [] => EmptyString
  | q :: rest => rendered_piece w q +:+ render_pieces w rest
  end.

(** What the search is to find in a part: its characters one by one, or the
    one match. *)
Fixpoint characters (text : string) : list piece :=
  match text with
  | EmptyString => []
  | String c r => Char c :: characters r
  end.

Definition part_pieces (p : part) : list piece :=
  match p with
  | Lit text => characters text
  | Hole path => [Match path]
  end.

(** The paths of the matches found, and of the placeholders written. *)
Definition matches (ps : list piece) : list string :=
  flat_map (fun q => match q with Match path => [path] | Char _ => [] end) ps.

Definition placeholders (parts : list part) : list string :=
  flat_map (fun p => match p with Hole path => [path] | Lit _ => [] end) parts.

(** The sum of the quantities of a list of chunks. *)
Definition total_quantity (chunks : list SplitOrder.Chunk) : Z :=
  fold_right Z.add 0%Z (map SplitOrder.quantity chunks).

End Reading.

(** ** Reading the stream

    Definitions the statements about [WebSocketService] are written with. *)

Module Streaming.
Import Js WebSocketService.

(** Several effects, one after the other. *)
Definition emit_all (es : list Effect) (s : Service) : Service :=
  mkService (ws s) (wsUrl s) (subscriptions s) (reconnectAttempts s) (isConnecting s)
    (messageQueue s) (onConnectHandlers s) (onDisconnectHandlers s) (onErrorHandlers s)
    (effects s ++ es).

(** The messages written to the socket. *)
Definition sent (messages : list value) : list Effect :=
  map (fun message => WsSend (frame message)) messages.

Definition no_colon (text : string) : Prop := includes ":" text = false.

(** An instrument whose key splits back into its parts. *)
Definition plain (i : Instrument) : Prop := no_colon (exchange i) ∧ no_colon (symbol i).

Definition stream_types : list string := ["ltp"; "quote"; "depth"]%string.

(** An entry of the map as [addSubscription] makes it: at least one
    subscription, each of one of the three types and under its own key. *)
Definition keyed (entry : string * list Subscription) : Prop :=
  snd entry ≠ [] ∧
  Forall (fun sub => In (type sub) stream_types ∧
                     getSubscriptionKey (type sub) (instrument sub) = fst entry)
         (snd entry).

(** The instruments subscribed with a type, in the order of the map. *)
Definition subscribed (t : string) (m : list (string * list Subscription))
    : list Instrument :=
  flat_map (fun entry => match snd entry with
                         | sub :: _ => if String.eqb (type sub) t then [instrument sub] else []
                         | [] => []
                         end) m.

(** One request for each type that has instruments. *)
Definition requests (m : list (string * list Subscription)) : list value :=
  flat_map (fun t => match subscribed t m with
                     | [] => []
                     | instruments =>
                         [request "subscribe" t (map instrument_value instruments)]
                     end) stream_types.

(** The three methods that subscribe, and the three that unsubscribe, each
    with its type. *)
Definition subscribe_methods
    : list (string * (list Instrument -> MessageHandler -> Service -> Service)) :=
  [("ltp", subscribeLTP); ("quote", subscribeQuote); ("depth", subscribeDepth)]%string.

Definition unsubscribe_methods
    : list (string * (list Instrument -> Service -> Service)) :=
  [("ltp", unsubscribeLTP); ("quote", unsubscribeQuote); ("depth", unsubscribeDepth)]%string.

(** The update a callback is given for a message of type [t] about the
    instrument [i], [data] being the properties of the message. *)
Definition update_for (t : string) (i : Instrument) (data : list (string * value))
    (now : float) : value :=
  VObj ([("type", VStr t); ("symbol", VStr (symbol i)); ("exchange", VStr (exchange i))]%string
        ++ (if String.eqb t "ltp"
            then [("ltp", own_property "ltp" data); ("timestamp", VNum now)]%string
            else [("data", own_property "data" data); ("timestamp", VNum now)]%string)).

(** The subscriptions kept under a key, none when the key is not in the
    map. *)
Definition subscribers (key : string) (s : Service) : list Subscription :=
  match map_get key (subscriptions s) with
  | Some subs => subs
  | None => []
  end.

(** The handlers a [forEach] reaches: all of them up to the first that
    throws; and whether all return. *)
Fixpoint reached (rt : Runtime) (handlers : list ConnectionHandler)
    : list ConnectionHandler :=
  match handlers with
  | [] => []
  | h :: rest => h :: if handler_throws rt h then [] else reached rt rest
  end.

Definition all_return (rt : Runtime) (handlers : list ConnectionHandler) : bool :=
  forallb (fun h => negb (handler_throws rt h)) handlers.

(** A step that leaves the service as it was but for the queue and what it
    wrote. *)
Definition passive (s s' : Service) : Prop :=
  exists q es, s' = set_messageQueue q (emit_all es s).

(** Sending one message after the other. *)
Definition send_all (messages : list value) (s : Service) : Service :=
  fold_left (fun s' message => send message s') messages s.

(** The requests [resubscribeAll] sends for the three arrays. *)
Definition regrouped (arrays : list value * list value * list value) : list value :=
  let '(ltpInstruments, quoteInstruments, depthInstruments) := arrays in
  match ltpInstruments with
  | [] => []
  | _ :: _ => [request "subscribe" "ltp" ltpInstruments]
  end ++
  match quoteInstruments with
  | [] => []
  | _ :: _ => [request "subscribe" "quote" quoteInstruments]
  end ++
  match depthInstruments with
  | [] => []
  | _ :: _ => [request "subscribe" "depth" depthInstruments]
  end.

(** The map after [addSubscription]. *)
Definition with_subscription (t : string) (cb : MessageHandler)
    (m : list (string * list Subscription)) (i : Instrument)
    : list (string * list Subscription) :=
  map_set (getSubscriptionKey t i)
    (match map_get (getSubscriptionKey t i) m with
     | Some subs => subs
     | None => []
     end ++ [mkSubscription t i cb]) m.

(** The callbacks of a list of subscriptions, each called with the update;
    one that throws is logged and the next is called. *)
Definition deliver (rt : Runtime) (update : value) (subs : list Subscription) (s : Service)
    : Service :=
  fold_left
    (fun s' sub =>
       let s1 := emit (Callback (callback sub) update) s' in
       if callback_throws rt (callback sub) update
       then emit (ConsoleError "[WebSocket] Callback error:") s1
       else s1)
    subs s.

(** What every run keeps. *)
Definition well_kept (s : Service) : Prop :=
  (0 <= reconnectAttempts s <= maxReconnectAttempts)%Z ∧
  List.NoDup (map fst (subscriptions s)) ∧
  Forall keyed (subscriptions s).

(** The delays of the timers set. *)
Definition timeouts (es : list Effect) : list Z :=
  flat_map (fun e => match e with SetTimeout delay => [delay] | _ => [] end) es.

(** The callbacks called, with what they were given. *)
Definition calls (es : list Effect) : list (MessageHandler * value) :=
  flat_map (fun e => match e with Callback h update => [(h, update)] | _ => [] end) es.

(** The addresses sockets were made for. *)
Definition sockets (es : list Effect) : list string :=
  flat_map (fun e => match e with NewWebSocket url => [url] | _ => [] end) es.

End Streaming.

(** ** Lemmas and theorems *)

Import Js VariableStore Reading.

(** *** The runtime on known values *)

Example NumberToString_samples :
  map NumberToString
    [0.1; 1e21; 123456789; 1 / 3; 5e-324; 1.7976931348623157e308; 0.000001; 1e-7;
     18500.5; 0.1 + 0.2; 1e23; 9007199254740993; -1.5; -0; 0 / 0; 1 / 0]%float =
  ["0.1"; "1e+21"; "123456789"; "0.3333333333333333"; "5e-324";
   "1.7976931348623157e+308"; "0.000001"; "1e-7"; "18500.5";
   "0.30000000000000004"; "1e+23"; "9007199254740992"; "-1.5"; "0"; "NaN";
   "Infinity"]%string.
Proof. vm_compute. reflexivity. Qed.

Example StringToNumber_samples :
  map StringToNumber
    ["12"; " 12 "; ""; ".5"; "5."; "+.5e-1"; "-0"; "0x1F"; "0b101"; "0o17"; "1e3";
     "25966.05"; "1e400"; "3e-324"; "Infinity"; "12px"; "."; "1e"; "-0x10";
     "1_000"; "n/a"]%string =
  [12; 12; 0; 0.5; 5; 0.05; -0; 31; 5; 15; 1000; 25966.05; infinity; 5e-324;
   infinity; nan; nan; nan; nan; nan; nan]%float.
Proof. vm_compute. reflexivity. Qed.

Example coercion_samples :
  map ToNumber [VNull; VBool true; VStr "7"; VArr []; VArr [VNum 5];
                VArr [VNum 1; VNum 2]; VObj []; VUndefined]%string =
  [0; 1; 7; 0; 5; nan; nan; nan]%float ∧
  map ToString [VNull; VBool false; VNum 25; VArr [VNum 1; VNull; VArr [VStr "a"]];
                VObj [("a", VNum 1)]]%string =
  ["null"; "false"; "25"; "1,,a"; "[object Object]"]%string ∧
  JSON_stringify (VObj [("ltp", VNum 18500.5); ("legs", VArr [VStr "CE"; VUndefined]);
                        ("skip", VUndefined); ("bid", VNull)]%string) =
  Some (String "{" (QuoteJSONString "ltp" +:+ ":18500.5," +:+ QuoteJSONString "legs" +:+
        ":[" +:+ QuoteJSONString "CE" +:+ ",null]," +:+ QuoteJSONString "bid" +:+ ":null}")).
Proof. vm_compute. repeat split; reflexivity. Qed.

(** *** Reading and writing the store *)

Section StoreFacts.

Variables (vs : gmap string (gmap string value)) (wf : string).

Lemma read_insert_eq (name : string) (v : value) (vars : gmap string value) :
  read (<[wf := <[name := v]> vars]> vs) wf name = v.
Proof. unfold read. by rewrite !lookup_insert_eq. Qed.

Lemma read_insert_ne (name other : string) (v : value) (vars : gmap string value) :
  name ≠ other ->
  read (<[wf := <[name := v]> vars]> vs) wf other =
  match vars !! other with Some x => x | None => VUndefined end.
Proof. intros Hne. unfold read. by rewrite lookup_insert_eq, lookup_insert_ne. Qed.

End StoreFacts.

Lemma getVariable_run (name : string) (w : World) :
  getVariable name w =
  (match selected (currentWorkflowId (state w)) with
   | Some wf => read (variables (state w)) wf name
   | None => VUndefined
   end, w).
Proof.
  unfold getVariable, bind, get. destruct (selected _); reflexivity.
Qed.

Lemma setVariable_run (name : string) (v : value) (w : World) :
  setVariable name v w =
  (tt, match selected (currentWorkflowId (state w)) with
       | Some wf =>
           mkWorld (mkState (<[wf := <[name := v]> (spread (variables (state w)) wf)]>
                               (variables (state w)))
                            (currentWorkflowId (state w)))
                   (console w)
       | None => w
       end).
Proof.
  unfold setVariable, bind, get. destruct (selected _); reflexivity.
Qed.

(** What [setVariable] stores is what [getVariable] then reads. *)
Lemma getVariable_setVariable (name : string) (v : value) (w : World) (wf : string) :
  selected (currentWorkflowId (state w)) = Some wf ->
  eval (getVariable name) (exec (setVariable name v) w) = v.
Proof.
  intros Hsel. unfold eval, exec.
  rewrite setVariable_run, Hsel. simpl.
  rewrite getVariable_run. simpl. rewrite Hsel. simpl.
  apply read_insert_eq.
Qed.

(** ... and every other variable reads as before. *)
Lemma getVariable_setVariable_other (name other : string) (v : value) (w : World) :
  name ≠ other ->
  eval (getVariable other) (exec (setVariable name v) w) = eval (getVariable other) w.
Proof.
  intros Hne. unfold eval, exec.
  rewrite setVariable_run, !getVariable_run. simpl.
  destruct (selected (currentWorkflowId (state w))) as [wf|] eqn:Hsel; [|by rewrite Hsel].
  simpl. rewrite Hsel. simpl. rewrite read_insert_ne by exact Hne.
  unfold read, spread. destruct (variables (state w) !! wf); [reflexivity|].
  by rewrite lookup_empty.
Qed.

(** The mutators that go through [getVariable] and [setVariable]. *)
Ltac run_mutator :=
  unfold incrementVariable, decrementVariable;
  unfold addToVariable, subtractFromVariable, multiplyVariable, divideVariable,
    appendToVariable, bind, eval;
  rewrite ?getVariable_run; simpl.

(** *** No workflow selected *)

(** C10. While [currentWorkflowId] is [null], [setVariable], [deleteVariable],
    [clearVariables] and the numeric and string mutators leave the state of
    the store as it is, and the readers find nothing: [getVariable] and
    [getVariableByPath] return [undefined], [getAllVariables] the empty
    mapping. *)
Theorem no_workflow_no_effect
    (vs : gmap string (gmap string value)) (log : list string)
    (name path text : string) (v : value) (x : float) :
  let w := mkWorld (mkState vs None) log in
  exec (setVariable name v) w = w ∧
  exec (deleteVariable name) w = w ∧
  exec clearVariables w = w ∧
  exec (addToVariable name x) w = w ∧
  exec (subtractFromVariable name x) w = w ∧
  exec (multiplyVariable name x) w = w ∧
  state (exec (divideVariable name x) w) = state w ∧
  exec (incrementVariable name) w = w ∧
  exec (decrementVariable name) w = w ∧
  exec (appendToVariable name text) w = w ∧
  eval (getVariable name) w = VUndefined ∧
  eval (getVariableByPath path) w = VUndefined ∧
  eval getAllVariables w = ∅.
Proof.
  intros w. repeat split; try reflexivity.
  unfold exec, divideVariable, bind. rewrite getVariable_run. simpl.
  destruct (x =? zero)%float; reflexivity.
Qed.

(** *** The mutators, run *)

(** A numeric mutator converts the current value and, when the conversion
    returns, stores the result of its operation; when it throws, the call
    ends there and nothing is stored. *)
Lemma numeric_mutators_run (name : string) (y : float) (w : World) :
  let v := eval (getVariable name) w in
  let current := number_or_zero v in
  let stores (n : float) := (Returned, exec (setVariable name (VNum n)) w) in
  let run (m : Action outcome) (result : outcome * World) :=
    m w = if converts v then result else (Thrown, w) in
  run (addToVariable name y) (stores (current + y)%float) ∧
  run (subtractFromVariable name y) (stores (current - y)%float) ∧
  run (multiplyVariable name y) (stores (current * y)%float) ∧
  run (divideVariable name y)
      (if (y =? zero)%float
       then (Returned, mkWorld (state w) (console w ++ ["Division by zero"]))
       else stores (current / y)%float) ∧
  run (incrementVariable name) (stores (current + one)%float) ∧
  run (decrementVariable name) (stores (current - one)%float).
Proof.
  cbv zeta.
  unfold incrementVariable, decrementVariable, addToVariable, subtractFromVariable,
    multiplyVariable, divideVariable, returns, bind, eval, exec, callNumber.
  rewrite getVariable_run. cbn [fst snd].
  destruct (converts _); repeat split; unfold number_or_zero, ret;
    try (destruct (setVariable _ _ w); reflexivity).
  destruct (y =? zero)%float; [reflexivity|]. destruct (setVariable _ _ w); reflexivity.
Qed.

Lemma appendToVariable_run (name text : string) (w : World) :
  let v := or_else (eval (getVariable name) w) (VStr EmptyString) in
  appendToVariable name text w =
  if converts v
  then (Returned, exec (setVariable name (VStr (ToString v +:+ text))) w)
  else (Thrown, w).
Proof.
  cbv zeta. unfold appendToVariable, returns, bind, eval, exec, callString.
  rewrite getVariable_run. cbn [fst snd].
  destruct (converts _); [|reflexivity].
  unfold ret. destruct (setVariable _ _ w); reflexivity.
Qed.

(** A call that is wrapped in [returns] does what it did and returns. *)
Lemma returns_run (m : Action unit) (w : World) : returns m w = (Returned, exec m w).
Proof. unfold returns, exec, bind, ret. destruct (m w). reflexivity. Qed.

Lemma exec_returns (m : Action unit) (w : World) : exec (returns m) w = exec m w.
Proof. unfold exec at 1. rewrite returns_run. reflexivity. Qed.

(** The dispatcher converts the operand of a numeric operation and hands the
    number to the mutator; when the conversion throws, the call ends there. *)
Lemma numeric_operations_run (JSON_parse : string -> option value)
    (name : string) (v : value) (sourceVariable jsonPath : option string) (w : World) :
  let run operation :=
    executeVariableOperation JSON_parse operation name v sourceVariable jsonPath w in
  let through (m : float -> Action outcome) :=
    if converts v then m (ToNumber v) w else (Thrown, w) in
  run "add"%string = through (addToVariable name) ∧
  run "subtract"%string = through (subtractFromVariable name) ∧
  run "multiply"%string = through (multiplyVariable name) ∧
  run "divide"%string = through (divideVariable name).
Proof.
  cbv zeta. unfold executeVariableOperation, callNumber.
  cbn [String.eqb Ascii.eqb Bool.eqb]. destruct (converts v); repeat split; reflexivity.
Qed.

(** *** Division *)

(** Where the current value converts to a number, dividing by zero (either
    zero) returns and changes nothing in the store: it writes one line to the
    console and the variable reads as before.  Any other divisor stores the
    current value, coerced to a number, divided by it. *)
Lemma divide_by_zero_keeps_value (name : string) (d : float) (w : World) :
  converts (eval (getVariable name) w) = true ->
  ((d =? zero)%float = true ->
     eval (divideVariable name d) w = Returned ∧
     state (exec (divideVariable name d) w) = state w ∧
     console (exec (divideVariable name d) w) = console w ++ ["Division by zero"] ∧
     eval (getVariable name) (exec (divideVariable name d) w) = eval (getVariable name) w) ∧
  ((d =? zero)%float = false ->
     let quotient := (number_or_zero (eval (getVariable name) w) / d)%float in
     divideVariable name d w = (Returned, exec (setVariable name (VNum quotient)) w) ∧
     (forall wf, selected (currentWorkflowId (state w)) = Some wf ->
        eval (getVariable name) (exec (divideVariable name d) w) = VNum quotient)).
Proof.
  intros Hv.
  destruct (numeric_mutators_run name d w) as (_ & _ & _ & Hdiv & _). cbv zeta in Hdiv.
  rewrite Hv in Hdiv.
  split; intros Hd; rewrite Hd in Hdiv.
  - unfold exec, eval. rewrite Hdiv. cbn [fst snd state console]. repeat split.
    rewrite !getVariable_run. reflexivity.
  - cbv zeta. split; [exact Hdiv|]. intros wf Hsel. unfold exec at 1. rewrite Hdiv.
    cbn [snd]. eapply getVariable_setVariable; eauto.
Qed.

Lemma divide_by_zero_keeps_value_sample :
  let w := exec (setVariable "qty" (VNum 75)) (exec (setCurrentWorkflow "wf") initial) in
  eval (getVariable "qty") (exec (divideVariable "qty" zero) w) = VNum 75 ∧
  eval (getVariable "qty") (exec (divideVariable "qty" 3) w) = VNum 25.
Proof.
  intros w. split.
  - exact (proj2 (proj2 (proj2 (proj1 (divide_by_zero_keeps_value "qty" zero w eq_refl)
                                  eq_refl)))).
  - exact (proj2 (proj2 (divide_by_zero_keeps_value "qty" 3 w eq_refl) eq_refl) "wf" eq_refl).
Defined.

(** C2 fails on the store.  [divideVariable] converts the current value
    before it looks at the divisor, and [Number] throws on a mapping that has
    a property [toString] of its own.  With such a mapping in the variable
    (the [parse_json] operation stores one), a division by zero ends in a
    [TypeError]: nothing is logged and the call does not return, directly
    and through the dispatcher.  Over a number the same division returns and
    logs. *)
Theorem divide_by_zero_raises :
  let held := VObj [("toString", VNum 1)]%string in
  let parse (_ : string) := Some held in
  let w0 := exec (setCurrentWorkflow "wf") initial in
  let w := exec (executeVariableOperation parse "parse_json" "lots" (VStr "text") None None)
             w0 in
  let w' := exec (setVariable "lots" (VNum 4)) w0 in
  eval (getVariable "lots") w = held ∧
  divideVariable "lots" zero w = (Thrown, w) ∧
  executeVariableOperation parse "divide" "lots" (VNum zero) None None w = (Thrown, w) ∧
  console w = [] ∧
  eval (divideVariable "lots" zero) w' = Returned ∧
  console (exec (divideVariable "lots" zero) w') = ["Division by zero"%string].
Proof. vm_compute. repeat split. Qed.

(** *** Coercion to a number *)

Lemma number_or_zero_nan (v : value) :
  is_nan (ToNumber v) = true -> number_or_zero v = zero.
Proof. intros H. unfold number_or_zero, or_zero. simpl. rewrite H. reflexivity. Qed.

Lemma number_or_zero_zero (v : value) :
  is_zero (ToNumber v) = true -> number_or_zero v = zero.
Proof.
  intros H. unfold number_or_zero, or_zero. simpl. rewrite H, orb_true_r. reflexivity.
Qed.

Lemma number_or_zero_number (v : value) :
  is_nan (ToNumber v) = false -> is_zero (ToNumber v) = false ->
  number_or_zero v = ToNumber v.
Proof.
  intros Hn Hz. unfold number_or_zero, or_zero. simpl. rewrite Hn, Hz. reflexivity.
Qed.

(** What converts to [NaN]: an absent variable, a mapping that converts,
    and a string that is no numeric literal. *)
Lemma not_numeric_undefined : is_nan (ToNumber VUndefined) = true.
Proof. reflexivity. Qed.

Lemma not_numeric_mapping (fields : list (string * value)) :
  is_nan (ToNumber (VObj fields)) = true.
Proof. vm_compute. reflexivity. Qed.

(** Where the current value converts: each numeric mutator coerces it with
    [Number(...) || 0], to [0] when the conversion is [NaN] (an absent
    variable, a mapping, a string that is no number), to the number itself
    otherwise (a zero of either sign counts as [0]), applies its operation to
    that number, stores the result and returns; [divide] does so unless the
    divisor is zero. *)
Lemma numeric_mutators_coerce (name : string) (x : float) (w : World) :
  let v := eval (getVariable name) w in
  let current := number_or_zero v in
  converts v = true ->
  (is_nan (ToNumber v) = true -> current = zero) ∧
  (v = VUndefined -> current = zero) ∧
  (forall fields, v = VObj fields -> current = zero) ∧
  (forall s, v = VStr s -> current = or_zero (StringToNumber s)) ∧
  (forall n, v = VNum n -> current = or_zero n) ∧
  (is_nan (ToNumber v) = false ->
     (is_zero (ToNumber v) = false -> current = ToNumber v) ∧
     (is_zero (ToNumber v) = true -> current = zero)) ∧
  addToVariable name x w = (Returned, exec (setVariable name (VNum (current + x))) w) ∧
  subtractFromVariable name x w =
    (Returned, exec (setVariable name (VNum (current - x))) w) ∧
  multiplyVariable name x w = (Returned, exec (setVariable name (VNum (current * x))) w) ∧
  divideVariable name x w =
    (if (x =? zero)%float
     then (Returned, mkWorld (state w) (console w ++ ["Division by zero"]))
     else (Returned, exec (setVariable name (VNum (current / x))) w)) ∧
  incrementVariable name w = (Returned, exec (setVariable name (VNum (current + one))) w) ∧
  decrementVariable name w = (Returned, exec (setVariable name (VNum (current - one))) w).
Proof.
  intros v current Hv. subst current.
  split; [apply number_or_zero_nan|].
  split; [intros E; rewrite E; reflexivity|].
  split; [intros fields E; rewrite E; apply number_or_zero_nan, not_numeric_mapping|].
  split; [intros s E; rewrite E; reflexivity|].
  split; [intros n E; rewrite E; reflexivity|].
  split.
  { intros Hn. split; [apply number_or_zero_number; exact Hn|apply number_or_zero_zero]. }
  pose proof (numeric_mutators_run name x w) as H. cbv zeta in H. fold v in H.
  rewrite Hv in H. exact H.
Qed.

Example numeric_mutators_coerce_sample :
  let w0 := exec (setCurrentWorkflow "wf") initial in
  let w := exec (setVariable "qty" (VStr "12.5")) (exec (setVariable "label" (VStr "n/a")) w0) in
  eval (getVariable "label") (exec (addToVariable "label" 5) w) = VNum 5 ∧
  eval (getVariable "qty") (exec (addToVariable "qty" 2) w) = VNum 14.5 ∧
  eval (getVariable "qty") (exec (multiplyVariable "qty" 2) w) = VNum 25.
Proof. vm_compute. repeat split. Qed.

(** C5 fails on the store.  Over a mapping that has a property [toString]
    of its own, the conversion [Number(...)] with which every numeric mutator
    starts throws: the mutator does not treat the value as [0], it stores
    nothing and does not return.  (One defect with C2: the conversion of the
    current value.)  Over a string that is no number the value counts as [0],
    and over a numeric string as its number. *)
Theorem numeric_mutators_raise :
  let held := VObj [("toString", VNum 1)]%string in
  let w0 := exec (setCurrentWorkflow "wf") initial in
  let w := exec (setVariable "lots" held) w0 in
  let after (v : value) (m : Action outcome) :=
    let before := exec (setVariable "lots" v) w0 in
    (eval m before, eval (getVariable "lots") (exec m before)) in
  map (fun m : Action outcome => m w)
    [addToVariable "lots" 2; subtractFromVariable "lots" 2; multiplyVariable "lots" 2;
     divideVariable "lots" 2; incrementVariable "lots"; decrementVariable "lots"] =
    repeat (Thrown, w) 6 ∧
  after (VStr "n/a") (addToVariable "lots" 2) = (Returned, VNum 2) ∧
  after (VStr "12.5") (addToVariable "lots" 2) = (Returned, VNum 14.5) ∧
  after (VNum 12.5) (divideVariable "lots" 2) = (Returned, VNum 6.25).
Proof. vm_compute. repeat split. Qed.

(** *** Appending *)




(** *** One store for every run *)

(** C7 as stated fails: the store is one object, and the variables of a
    workflow outlive a run.  A second run of the same workflow reads what the
    first wrote; and a run of another workflow that selects its id in between
    receives the first run's next write. *)
Lemma runs_share_the_store :
  let first_run := exec (setVariable "x" (VNum 1)) (exec (setCurrentWorkflow "wf") initial) in
  let second_run := exec (setCurrentWorkflow "wf") first_run in
  let interleaved :=
    exec (setVariable "y" (VNum 2))
      (exec (setCurrentWorkflow "other") (exec (setCurrentWorkflow "wf") initial)) in
  eval (getVariable "x") second_run = VNum 1 ∧
  eval (getVariable "x") second_run ≠ VUndefined ∧
  currentWorkflowId (state interleaved) = Some "other"%string ∧
  eval (getVariable "y") interleaved = VNum 2.
Proof. vm_compute. repeat split; (reflexivity || discriminate). Qed.

Lemma setCurrentWorkflow_run (workflowId : string) (w : World) :
  setCurrentWorkflow workflowId w =
  (tt, mkWorld (mkState (match variables (state w) !! workflowId with
                         | Some _ => variables (state w)
                         | None =>
                             if existsb (String.eqb workflowId) Object_prototype
                             then variables (state w)
                             else <[workflowId := ∅]> (variables (state w))
                         end)
                        (Some workflowId))
               (console w)).
Proof.
  unfold setCurrentWorkflow, bind, get, set_currentWorkflowId.
  cbn [fst snd state variables currentWorkflowId console].
  destruct (variables (state w) !! workflowId); [reflexivity|].
  destruct (existsb _ Object_prototype); reflexivity.
Qed.

(** A key that is not [inherited] names no member of [Object.prototype]. *)
Lemma not_inherited_by_mapping (key : string) :
  inherited key = false -> existsb (String.eqb key) Object_prototype = false.
Proof.
  unfold inherited. rewrite existsb_app. intros H.
  apply orb_false_iff in H. exact (proj1 H).
Qed.

(** C7, as the store has it.  The variables are kept per workflow id in the
    one store: what is written, deleted or cleared while workflow [a] is
    selected leaves the variables of any other workflow id [b] as they were,
    and selecting a workflow id that already has variables keeps them. *)
Theorem variables_kept_per_workflow (a b name : string) (v : value) (w : World) :
  selected (currentWorkflowId (state w)) = Some a ->
  a ≠ b ->
  variables (state (exec (setVariable name v) w)) !! b = variables (state w) !! b ∧
  variables (state (exec (deleteVariable name) w)) !! b = variables (state w) !! b ∧
  variables (state (exec clearVariables w)) !! b = variables (state w) !! b ∧
  (forall vars, variables (state w) !! b = Some vars ->
     variables (state (exec (setCurrentWorkflow b) w)) !! b = Some vars ∧
     eval getAllVariables (exec (setCurrentWorkflow b) w) =
       (if decide (b = EmptyString) then ∅ else vars)).
Proof.
  intros Hsel Hne. split; [|split; [|split]].
  - unfold exec. rewrite setVariable_run, Hsel. simpl. by rewrite lookup_insert_ne.
  - unfold exec, deleteVariable, bind, get. simpl. rewrite Hsel. simpl.
    by rewrite lookup_insert_ne.
  - unfold exec, clearVariables, bind, get. simpl. rewrite Hsel. simpl.
    by rewrite lookup_insert_ne.
  - intros vars Hvars. unfold exec, eval. rewrite setCurrentWorkflow_run. simpl.
    rewrite Hvars. split; [exact Hvars|].
    unfold getAllVariables, bind, get. simpl.
    destruct b as [|c r]; simpl; [reflexivity|].
    unfold spread. by rewrite Hvars.
Qed.

Lemma variables_kept_per_workflow_witness :
  let w := exec (setCurrentWorkflow "a")
             (exec (setVariable "x" (VNum 1)) (exec (setCurrentWorkflow "b") initial)) in
  variables (state (exec (setVariable "x" (VNum 2)) w)) !! "b"%string =
  variables (state w) !! "b"%string.
Proof.
  intros w.
  refine (proj1 (variables_kept_per_workflow "a" "b" "x" (VNum 2) w eq_refl _)).
  discriminate.
Defined.

(** *** System variables *)

(** C3 fails on the store: [SYSTEM_VARIABLES] names [timestamp], [date],
    [time] and [datetime], but neither [getVariableByPath] nor [interpolate]
    consults it.  In a run that stored nothing, each of the four paths is not
    found and its placeholder is left as it is. *)
Theorem system_variables_not_resolved :
  let w := exec (setCurrentWorkflow "wf") initial in
  map fst SYSTEM_VARIABLES = ["timestamp"; "date"; "time"; "datetime"]%string ∧
  Forall (fun name =>
            eval (getVariableByPath name) w = VUndefined ∧
            eval (interpolate (matched_text name)) w = matched_text name)
         (map fst SYSTEM_VARIABLES).
Proof.
  split; [reflexivity|].
  repeat constructor; vm_compute; reflexivity.
Qed.

(** *** Dotted paths *)

Section Splitting.

Variable sep : ascii.

Local Abbreviation no_sep := (fun seg : string => includes sep seg = false).

Lemma split_not_nil (s : string) : split sep s ≠ [].
Proof.
  induction s as [|c r IH]; simpl; [discriminate|].
  destruct (Ascii.eqb c sep); [discriminate|].
  destruct (split sep r); discriminate.
Qed.

(** A string that holds the separator splits into two segments at least. *)
Lemma split_two (s : string) :
  includes sep s = true -> exists a b rest, split sep s = a :: b :: rest.
Proof.
  induction s as [|c r IH]; simpl; [discriminate|].
  destruct (Ascii.eqb c sep) eqn:Hc; simpl.
  - intros _. destruct (split sep r) as [|h t] eqn:Hr.
    + destruct (split_not_nil _ Hr).
    + eauto.
  - intros Hi. destruct (IH Hi) as (a & b & rest & ->). eauto.
Qed.

Lemma split_segments (s : string) : Forall no_sep (split sep s).
Proof.
  induction s as [|c r IH]; simpl.
  - repeat constructor.
  - destruct (Ascii.eqb c sep) eqn:Hc.
    + constructor; [reflexivity|exact IH].
    + destruct (split sep r) as [|h t].
      * repeat constructor. simpl. rewrite Hc. reflexivity.
      * inversion IH; subst. constructor; [|assumption].
        simpl. rewrite Hc. assumption.
Qed.

Lemma split_segment (x : string) : no_sep x -> split sep x = [x].
Proof.
  induction x as [|c r IH]; simpl; [reflexivity|].
  destruct (Ascii.eqb c sep); simpl; [discriminate|].
  intros H. rewrite (IH H). reflexivity.
Qed.

Lemma split_append (x rest : string) :
  no_sep x -> split sep (x +:+ String sep rest) = x :: split sep rest.
Proof.
  induction x as [|c r IH]; simpl.
  - intros _. rewrite Ascii.eqb_refl. reflexivity.
  - destruct (Ascii.eqb c sep); simpl; [discriminate|].
    intros H. rewrite (IH H). reflexivity.
Qed.

(** Joining segments and splitting again gives the segments back. *)
Lemma split_join (xs : list string) :
  xs ≠ [] -> Forall no_sep xs ->
  split sep (join (String sep EmptyString) xs) = xs.
Proof.
  induction xs as [|x rest IH]; [congruence|].
  intros _ Hall. inversion Hall as [|? ? Hx Hrest]; subst.
  destruct rest as [|y rest'].
  - simpl. apply split_segment, Hx.
  - change (join (String sep EmptyString) (x :: y :: rest'))
      with (x +:+ String sep (join (String sep EmptyString) (y :: rest'))).
    rewrite split_append by exact Hx.
    rewrite IH; [reflexivity|discriminate|exact Hrest].
Qed.

End Splitting.

Lemma value_at_undefined (keys : list string) : value_at VUndefined keys = VUndefined.
Proof. destruct keys; reflexivity. Qed.

(** The loop of [getNestedValue] computes [value_at]. *)
Lemma walk_value_at (keys : list string) (current : value) :
  walk current keys = value_at current keys.
Proof.
  revert current. induction keys as [|key rest IH]; intros current; [reflexivity|].
  destruct current; simpl; try reflexivity; apply IH.
Qed.

Lemma getNestedValue_value_at (v : value) (key : string) (keys : list string) :
  Forall (fun seg => includes "." seg = false) (key :: keys) ->
  getNestedValue v (join "." (key :: keys)) = value_at v (key :: keys).
Proof.
  intros Hall. unfold getNestedValue.
  rewrite split_join by (discriminate || exact Hall).
  rewrite walk_value_at.
  destruct v as [| |b|n|s|xs|fields]; try reflexivity.
  - destruct (negb (ToBoolean (VBool b)) || negb (typeof_object (VBool b))) eqn:E;
      [reflexivity|]. simpl in E. rewrite orb_true_r in E. discriminate.
  - destruct (negb (ToBoolean (VNum n)) || negb (typeof_object (VNum n))) eqn:E;
      [reflexivity|]. simpl in E. rewrite orb_true_r in E. discriminate.
  - destruct (negb (ToBoolean (VStr s)) || negb (typeof_object (VStr s))) eqn:E;
      [reflexivity|]. simpl in E. rewrite orb_true_r in E. discriminate.
Qed.

(** C4, as the store has it, for a workflow id and path segments that name
    no member a mapping or a list inherits.  A path with a dot names a
    variable by its first segment; the segments after it are followed through
    mappings and lists (a list by element index or [length]) and the value
    there is returned, a stored [null] as [null].  The result is
    [undefined], the store's "not found", when no workflow is selected, when
    a segment is missing, and when the value reached before a remaining
    segment is neither a mapping nor a list. *)
Theorem getVariableByPath_dotted (path : string) (w : World) :
  includes "." path = true ->
  (selected (currentWorkflowId (state w)) = None ->
     eval (getVariableByPath path) w = VUndefined) ∧
  (forall wf,
     selected (currentWorkflowId (state w)) = Some wf ->
     inherited wf = false ->
     Forall (fun seg => inherited seg = false) (split "." path) ->
     exists name key keys,
       split "." path = name :: key :: keys ∧
       eval (getVariableByPath path) w =
         value_at (read (variables (state w)) wf name) (key :: keys)) ∧
  (forall v key keys,
     match v with VObj _ | VArr _ => False | _ => True end ->
     value_at v (key :: keys) = VUndefined) ∧
  (forall fields key keys,
     inherited key = false ->
     own_property key fields = VUndefined ->
     value_at (VObj fields) (key :: keys) = VUndefined) ∧
  (forall fields key,
     own_property key fields = VNull ->
     value_at (VObj fields) [key] = VNull ∧ VNull ≠ VUndefined).
Proof.
  intros Hdot.
  assert (Hrun : exists name key keys,
            split "." path = name :: key :: keys ∧
            eval (getVariableByPath path) w =
              match selected (currentWorkflowId (state w)) with
              | Some wf => value_at (read (variables (state w)) wf name) (key :: keys)
              | None => VUndefined
              end).
  { destruct (split_two "." path Hdot) as (name & key & keys & Hsplit).
    exists name, key, keys. split; [exact Hsplit|].
    unfold eval, getVariableByPath, bind, get. simpl.
    destruct (selected (currentWorkflowId (state w))) as [wf|]; [|reflexivity].
    rewrite Hdot, Hsplit. simpl fst.
    change (tail (name :: key :: keys)) with (key :: keys).
    change (Nat.eqb (length (key :: keys)) 0) with false. cbv iota.
    unfold ret. simpl fst.
    apply getNestedValue_value_at.
    pose proof (split_segments "." path) as Hall. rewrite Hsplit in Hall.
    inversion Hall; assumption. }
  destruct Hrun as (name & key & keys & Hsplit & Hvalue).
  split; [|split; [|split; [|split]]].
  - intros Hnone. rewrite Hvalue, Hnone. reflexivity.
  - intros wf Hsel _ _. exists name, key, keys. rewrite Hvalue, Hsel.
    split; [exact Hsplit|reflexivity].
  - intros v key' keys' Hv. destruct v; simpl; auto; contradiction.
  - intros fields key' keys' _ Habsent. simpl. rewrite Habsent.
    apply value_at_undefined.
  - intros fields key' Hnull. simpl. rewrite Hnull. split; [reflexivity|discriminate].
Qed.

Lemma getVariableByPath_dotted_witness :
  let quote := VObj [("ltp", VNum 18500.5); ("bid", VNull)]%string in
  let w := exec (setVariable "quote" quote) (exec (setCurrentWorkflow "wf") initial) in
  eval (getVariableByPath "quote.ltp") w = VNum 18500.5 ∧
  eval (getVariableByPath "quote.bid") w = VNull ∧
  eval (getVariableByPath "quote.ask") w = VUndefined ∧
  eval (getVariableByPath "quote.ltp.paise") w = VUndefined ∧
  eval (getVariableByPath "quote.ltp") initial = VUndefined.
Proof.
  intros quote w.
  pose proof (fun path Hdot => proj1 (proj2 (getVariableByPath_dotted path w Hdot)) "wf"%string
                                 eq_refl eq_refl) as Hpath.
  pose proof (proj1 (getVariableByPath_dotted "quote.ltp" initial eq_refl) eq_refl) as Hnone.
  split; [|split; [|split; [|split]]].
  - destruct (Hpath "quote.ltp"%string eq_refl) as (name & key & keys & Hsplit & ->);
      [repeat constructor|].
    injection Hsplit as <- <- <-. reflexivity.
  - destruct (Hpath "quote.bid"%string eq_refl) as (name & key & keys & Hsplit & ->);
      [repeat constructor|].
    injection Hsplit as <- <- <-. reflexivity.
  - destruct (Hpath "quote.ask"%string eq_refl) as (name & key & keys & Hsplit & ->);
      [repeat constructor|].
    injection Hsplit as <- <- <-. reflexivity.
  - destruct (Hpath "quote.ltp.paise"%string eq_refl) as (name & key & keys & Hsplit & ->);
      [repeat constructor|].
    injection Hsplit as <- <- <-. reflexivity.
  - exact Hnone.
Defined.

(** C4 as stated fails on lists: a list is not a mapping, and yet the
    segment after it selects an element, or the length. *)
Lemma getVariableByPath_indexes_lists :
  let w := exec (setVariable "legs" (VArr [VStr "CE"; VStr "PE"]))
             (exec (setCurrentWorkflow "wf") initial) in
  eval (getVariableByPath "legs.1") w = VStr "PE" ∧
  eval (getVariableByPath "legs.length") w = VNum 2 ∧
  eval (getVariableByPath "legs.1") w ≠ VUndefined.
Proof. vm_compute. repeat split; (reflexivity || discriminate). Qed.

(** *** Interpolation *)

Lemma append_cons (x : ascii) (a b : string) : String x a +:+ b = String x (a +:+ b).
Proof. reflexivity. Qed.

Lemma append_assoc (a b c : string) : (a +:+ b) +:+ c = a +:+ (b +:+ c).
Proof.
  induction a as [|x a IH]; [reflexivity|].
  rewrite !append_cons, IH. reflexivity.
Qed.

Lemma length_append (a b : string) :
  String.length (a +:+ b) = String.length a + String.length b.
Proof.
  induction a as [|x a IH]; [reflexivity|].
  rewrite append_cons. simpl. rewrite IH. reflexivity.
Qed.

(** The readers leave the store and the console alone. *)
Lemma getVariableByPath_reads (path : string) (w : World) :
  getVariableByPath path w = (eval (getVariableByPath path) w, w).
Proof.
  unfold eval, getVariableByPath, bind, get. simpl.
  destruct (selected _); [|reflexivity].
  destruct (includes "." path); [|reflexivity].
  destruct (Nat.eqb _ 0); reflexivity.
Qed.

Lemma replacement_run (path : string) (w : World) :
  replacement (matched_text path) path w = (rendered w (Hole path), w).
Proof.
  unfold replacement, bind. rewrite getVariableByPath_reads.
  unfold rendered, substitutable, text_of.
  destruct (eval (getVariableByPath (trim path)) w); reflexivity.
Qed.

Lemma replace_pieces_run (ps : list piece) (w : World) :
  replace_pieces ps w = (render_pieces w ps, w).
Proof.
  induction ps as [|q rest IH]; [reflexivity|].
  destruct q as [c|path]; simpl; unfold bind.
  - rewrite IH. reflexivity.
  - rewrite replacement_run, IH. reflexivity.
Qed.

Lemma search_cons (c : ascii) (r : string) :
  search (String c r) 0 =
  match match_here (String c r) with
  | Some path => Match path :: search r (String.length path + 3)
  | None => Char c :: search r 0
  end.
Proof. reflexivity. Qed.

(** The search skips what is left of a match. *)
Lemma search_skip (pre rest : string) :
  search (pre +:+ rest) (String.length pre) = search rest 0.
Proof. induction pre as [|c r IH]; simpl; [reflexivity|exact IH]. Qed.

Lemma matched_text_append (path rest : string) :
  matched_text path +:+ rest =
  String "{" (String "{" (path +:+ String "}" (String "}" rest))).
Proof.
  unfold matched_text.
  change ("{{" +:+ path +:+ "}}")%string with (String "{" (String "{" (path +:+ "}}"))).
  rewrite !append_cons, append_assoc. reflexivity.
Qed.

(** After a match the search goes on behind it. *)
Lemma search_after_match (path rest : string) :
  search (String "{" (path +:+ String "}" (String "}" rest))) (String.length path + 3) =
  search rest 0.
Proof.
  assert (Hpre : String "{" (path +:+ String "}" (String "}" rest)) =
                 String "{" (path +:+ "}}") +:+ rest).
  { rewrite append_cons, append_assoc. reflexivity. }
  assert (Hlen : String.length path + 3 = String.length (String "{" (path +:+ "}}"))).
  { simpl. rewrite length_append. simpl. lia. }
  rewrite Hpre, Hlen. exact (search_skip (String "{" (path +:+ "}}")) rest).
Qed.

Lemma span_append (p : ascii -> bool) (s a b : string) :
  span p s = (a, b) -> s = a +:+ b.
Proof.
  revert a b. induction s as [|c r IH]; simpl; intros a b.
  - intros [= <- <-]. reflexivity.
  - destruct (p c).
    + destruct (span p r) as [a' b']. intros [= <- <-].
      rewrite append_cons, <- (IH a' b' eq_refl). reflexivity.
    + intros [= <- <-]. reflexivity.
Qed.

Lemma span_path (path rest : string) :
  includes "}" path = false ->
  span not_closing (path +:+ String "}" rest) = (path, String "}" rest).
Proof.
  induction path as [|c r IH]; [reflexivity|].
  rewrite append_cons. simpl.
  unfold not_closing at 1. destruct (Ascii.eqb c "}"); simpl; [discriminate|].
  intros H. rewrite (IH H). reflexivity.
Qed.

(** A match is the text of a placeholder, and what follows it. *)
Lemma match_here_text (s path : string) :
  match_here s = Some path -> exists rest, s = matched_text path +:+ rest.
Proof.
  unfold match_here. destruct s as [|a [|b r]]; try discriminate.
  destruct (Ascii.eqb_spec a "{") as [->|]; [|discriminate].
  destruct (Ascii.eqb_spec b "{") as [->|]; [|discriminate].
  simpl. destruct (span not_closing r) as [found after] eqn:Hspan.
  destruct found as [|x found]; [discriminate|].
  destruct after as [|c [|d rest]]; try discriminate.
  destruct (Ascii.eqb_spec c "}") as [->|]; [|discriminate].
  destruct (Ascii.eqb_spec d "}") as [->|]; [|discriminate].
  intros [= <-]. exists rest.
  rewrite matched_text_append, (span_append _ _ _ _ Hspan). reflexivity.
Qed.

(** A well-formed placeholder is a match where it starts. *)
Lemma match_here_hole (path rest : string) :
  well_formed (Hole path) = true ->
  match_here (matched_text path +:+ rest) = Some path.
Proof.
  intros Hwf. rewrite matched_text_append.
  destruct path as [|c r]; [discriminate|].
  simpl in Hwf. apply negb_true_iff in Hwf.
  unfold match_here. rewrite !Ascii.eqb_refl. simpl andb. cbv iota.
  rewrite (span_path (String c r) (String "}" rest)) by exact Hwf.
  rewrite !Ascii.eqb_refl. reflexivity.
Qed.

Lemma search_hole (path rest : string) :
  well_formed (Hole path) = true ->
  search (matched_text path +:+ rest) 0 = Match path :: search rest 0.
Proof.
  intros Hwf. pose proof (match_here_hole path rest Hwf) as Hm.
  rewrite matched_text_append in *.
  rewrite search_cons, Hm, search_after_match. reflexivity.
Qed.

(** Plain text holds no match: the search returns it character by
    character. *)
Lemma search_plain (text rest : string) :
  plain text = true ->
  search (text +:+ rest) 0 = characters text ++ search rest 0.
Proof.
  induction text as [|c r IH]; [reflexivity|].
  intros Hp. simpl in Hp.
  assert (Hnone : match_here (String c r +:+ rest) = None).
  { rewrite append_cons. unfold match_here. destruct (Ascii.eqb c "{") eqn:Hc.
    - destruct r as [|d r']; [discriminate|].
      apply andb_true_iff in Hp. destruct Hp as [Hd _].
      apply negb_true_iff in Hd. rewrite append_cons, Hd. reflexivity.
    - destruct (r +:+ rest); reflexivity. }
  assert (Hr : plain r = true).
  { destruct (Ascii.eqb c "{"); [|exact Hp].
    destruct r; [discriminate|]. apply andb_true_iff in Hp. apply Hp. }
  rewrite append_cons in *. rewrite search_cons, Hnone, (IH Hr). reflexivity.
Qed.

Lemma search_assemble (parts : list part) :
  Forall (fun p => well_formed p = true) parts ->
  search (assemble parts) 0 = flat_map part_pieces parts.
Proof.
  induction 1 as [|p rest Hp _ IH]; [reflexivity|].
  destruct p as [text|path]; cbn [assemble part_text flat_map part_pieces].
  - rewrite search_plain by exact Hp. rewrite IH. reflexivity.
  - rewrite search_hole by exact Hp. rewrite IH. reflexivity.
Qed.

(** The pieces the search returns make up the template: every character is
    kept or belongs to one match. *)
Lemma search_text (template : string) : pieces_text (search template 0) = template.
Proof.
  remember (String.length template) as n eqn:Hn.
  revert template Hn. induction n as [n IH] using lt_wf_ind. intros template Hn.
  destruct template as [|c r]; [reflexivity|].
  rewrite search_cons. destruct (match_here (String c r)) as [path|] eqn:Hm.
  - destruct (match_here_text _ _ Hm) as [rest Hrest].
    rewrite matched_text_append in Hrest. injection Hrest as -> ->.
    rewrite search_after_match. cbn [pieces_text piece_text].
    rewrite (IH (String.length rest)); [|simpl in Hn; rewrite length_append in Hn; simpl in Hn; lia|reflexivity].
    apply matched_text_append.
  - cbn [pieces_text piece_text]. rewrite append_cons.
    rewrite (IH (String.length r)); [reflexivity|simpl in Hn; lia|reflexivity].
Qed.

Lemma render_pieces_parts (parts : list part) (w : World) :
  render_pieces w (flat_map part_pieces parts) = render_all w parts.
Proof.
  induction parts as [|p rest IH]; [reflexivity|].
  destruct p as [text|path]; cbn [flat_map part_pieces render_all rendered].
  - rewrite <- IH. clear IH. induction text as [|c r IH]; [reflexivity|].
    cbn [characters app render_pieces rendered_piece].
    rewrite IH, !append_cons. reflexivity.
  - cbn [app render_pieces rendered_piece rendered]. rewrite IH. reflexivity.
Qed.

(** Without a workflow nothing resolves, and the template comes back as it
    was written. *)
Lemma interpolate_without_workflow (template : string)
    (vs : gmap string (gmap string value)) (log : list string) :
  eval (interpolate template) (mkWorld (mkState vs None) log) = template.
Proof.
  unfold eval, interpolate. rewrite replace_pieces_run. simpl.
  rewrite <- (search_text template) at 2.
  induction (search template 0) as [|q rest IH]; [reflexivity|].
  cbn [render_pieces pieces_text]. rewrite IH. destruct q; reflexivity.
Qed.

(** C1, as the store has it.  [interpolate] writes the template out piece by
    piece as the search finds them: every character outside a match as it
    is, and every match [{{path}}] either as the text of the value its trimmed
    path resolves to (JSON for a mapping or a list, [String] for a scalar) or,
    when the path is not found or resolves to [null], exactly as written; the
    store is not changed.  In a template written as plain text and
    placeholders, the matches are the placeholders, in their order. *)
Theorem interpolate_substitutes (template : string) (w : World) :
  let found := search template 0 in
  pieces_text found = template ∧
  interpolate template w = (render_pieces w found, w) ∧
  (forall path,
     rendered w (Hole path) =
       match eval (getVariableByPath (trim path)) w with
       | VUndefined | VNull => matched_text path
       | (VArr _ | VObj _) as v =>
           match JSON_stringify v with Some t => t | None => "undefined"%string end
       | v => ToString v
       end) ∧
  (forall parts,
     Forall (fun p => well_formed p = true) parts ->
     template = assemble parts ->
     found = flat_map part_pieces parts ∧
     matches found = placeholders parts ∧
     eval (interpolate template) w = render_all w parts).
Proof.
  intros found. subst found.
  split; [apply search_text|].
  split; [apply replace_pieces_run|].
  split.
  - intros path. unfold rendered, substitutable, text_of.
    destruct (eval (getVariableByPath (trim path)) w); reflexivity.
  - intros parts Hwf ->. rewrite search_assemble by exact Hwf.
    split; [reflexivity|]. split.
    + clear Hwf. unfold matches, placeholders.
      induction parts as [|p rest IH]; [reflexivity|].
      destruct p as [text|path]; cbn [flat_map part_pieces].
      * rewrite flat_map_app, IH.
        replace (flat_map _ (characters text)) with (@nil string); [reflexivity|].
        clear. induction text as [|c r IH]; simpl; [reflexivity|exact IH].
      * simpl. rewrite IH. reflexivity.
    + unfold eval, interpolate. rewrite search_assemble by exact Hwf.
      rewrite replace_pieces_run. apply render_pieces_parts.
Qed.

Lemma interpolate_substitutes_witness :
  let quote := VObj [("ltp", VNum 18500.5); ("sym", VStr "NIFTY")]%string in
  let w := exec (setVariable "quote" quote) (exec (setCurrentWorkflow "wf") initial) in
  eval (interpolate "LTP of {{ quote.sym }} is {{quote.ltp}}, was {{prev.ltp}}") w =
  "LTP of NIFTY is 18500.5, was {{prev.ltp}}"%string.
Proof.
  intros quote w.
  pose (parts := [Lit "LTP of "; Hole " quote.sym "; Lit " is "; Hole "quote.ltp";
                  Lit ", was "; Hole "prev.ltp"]%string).
  assert (Hwf : Forall (fun p => well_formed p = true) parts)
    by (repeat constructor).
  rewrite (proj2 (proj2 (proj2 (proj2 (proj2
             (interpolate_substitutes
                "LTP of {{ quote.sym }} is {{quote.ltp}}, was {{prev.ltp}}" w)))
             parts Hwf eq_refl))).
  vm_compute. reflexivity.
Defined.

(** C1 as stated fails on [null]: the path resolves, to a stored [null]
    (by name and inside a mapping), and the placeholder is left as written. *)
Lemma interpolate_keeps_null :
  let quote := VObj [("ltp", VNum 18500.5); ("bid", VNull)]%string in
  let w := exec (setVariable "quote" quote)
             (exec (setVariable "target" VNull) (exec (setCurrentWorkflow "wf") initial)) in
  eval (getVariableByPath "target") w = VNull ∧
  eval (getVariableByPath "quote.bid") w = VNull ∧
  eval (getVariableByPath "target") w ≠ VUndefined ∧
  eval (interpolate "target={{target}} bid={{quote.bid}}") w =
    "target={{target}} bid={{quote.bid}}"%string.
Proof. vm_compute. repeat split; (reflexivity || discriminate). Qed.

(** *** Option strikes *)

Import OptionResolver.

Open Scope Z_scope.

Lemma walk_down (strikeStep atm : Z) (k : positive) :
  Pos.iter (step Down strikeStep) atm k = atm - Zpos k * strikeStep.
Proof.
  induction k as [|k IH] using Pos.peano_ind.
  - simpl. lia.
  - rewrite Pos.iter_succ, IH. unfold step. lia.
Qed.

Lemma walk_up (strikeStep atm : Z) (k : positive) :
  Pos.iter (step Up strikeStep) atm k = atm + Zpos k * strikeStep.
Proof.
  induction k as [|k IH] using Pos.peano_ind.
  - simpl. lia.
  - rewrite Pos.iter_succ, IH. unfold step. lia.
Qed.

(** C8. With at-the-money strike [A] and strike step [S]: for [CE], [ITM<k>]
    resolves to [A - k*S] and [OTM<k>] to [A + k*S]; for [PE], [ITM<k>]
    resolves to [A + k*S] and [OTM<k>] to [A - k*S]. *)
Theorem offset_strikes (A S : Z) (k : positive) :
  resolveStrike A S CE (ITM k) = A - Zpos k * S ∧
  resolveStrike A S CE (OTM k) = A + Zpos k * S ∧
  resolveStrike A S PE (ITM k) = A + Zpos k * S ∧
  resolveStrike A S PE (OTM k) = A - Zpos k * S.
Proof.
  unfold resolveStrike, direction, invert.
  repeat split; first [apply walk_down | apply walk_up].
Qed.

(** The responses the README of the client library shows, prices in paise:
    NIFTY with a strike step of 50. *)
Example readme_option_orders :
  let strike spot optionType token :=
    option_map (resolveStrike (atmStrike spot 5000) 5000 optionType) (parseOffset token) in
  strike 2596605 CE "ATM"%string = Some 2595000 ∧
  strike 2596605 PE "ITM4"%string = Some 2615000 ∧
  strike 2596605 CE "OTM5"%string = Some 2620000 ∧
  strike 2605045 CE "OTM6"%string = Some 2635000 ∧
  strike 2605045 PE "OTM6"%string = Some 2575000 ∧
  strike 2605045 CE "OTM4"%string = Some 2625000 ∧
  strike 2605045 PE "OTM4"%string = Some 2585000 ∧
  strike 2605265 CE "ITM2"%string = Some 2595000 ∧
  strike 2605265 CE "OTM2"%string = Some 2615000 ∧
  strike 2596640 PE "ITM3"%string = Some 2610000 ∧
  strike 2596640 CE "OTM4"%string = Some 2615000.
Proof. vm_compute. repeat split; reflexivity. Qed.

Close Scope Z_scope.

(** *** Split orders *)

Import SplitOrder.

Open Scope Z_scope.

Section Chunks.

Variables totalQuantity splitSize : Z.
Hypothesis total_positive : 0 < totalQuantity.
Hypothesis size_positive : 0 < splitSize.

Let n := chunkCount totalQuantity splitSize.

(** [chunkCount] is the ceiling of the quotient. *)
Lemma chunkCount_ceiling : (n - 1) * splitSize < totalQuantity <= n * splitSize.
Proof.
  unfold n, chunkCount.
  pose proof (Z.div_mod (totalQuantity + splitSize - 1) splitSize ltac:(lia)) as Hdm.
  pose proof (Z.mod_pos_bound (totalQuantity + splitSize - 1) splitSize size_positive).
  nia.
Qed.

Lemma chunkCount_positive : 1 <= n.
Proof. pose proof chunkCount_ceiling. nia. Qed.

Lemma chunkCount_quotient :
  n = totalQuantity / splitSize + (if totalQuantity mod splitSize =? 0 then 0 else 1).
Proof.
  pose proof chunkCount_ceiling as Hc.
  pose proof (Z.div_mod totalQuantity splitSize ltac:(lia)) as Hdm.
  pose proof (Z.mod_pos_bound totalQuantity splitSize size_positive) as Hr.
  destruct (Z.eqb_spec (totalQuantity mod splitSize) 0); nia.
Qed.

Lemma splitOrder_length : Z.of_nat (length (splitOrder totalQuantity splitSize)) = n.
Proof.
  unfold splitOrder. rewrite length_map, length_seq.
  pose proof chunkCount_positive. fold n. lia.
Qed.

Lemma splitOrder_nth (i : nat) (c : Chunk) :
  nth_error (splitOrder totalQuantity splitSize) i = Some c ->
  Z.of_nat i < n ∧
  c = mkChunk (Z.of_nat i + 1)
        (Z.min splitSize (totalQuantity - Z.of_nat i * splitSize)).
Proof.
  unfold splitOrder. fold n. rewrite nth_error_map, nth_error_seq.
  destruct (Nat.ltb_spec i (Z.to_nat n)) as [Hlt|Hge]; simpl; [|discriminate].
  intros [= <-]. split; [lia|].
  f_equal; [lia|]. f_equal. f_equal. f_equal. lia.
Qed.

Lemma total_quantity_app (xs ys : list Chunk) :
  total_quantity (xs ++ ys) = total_quantity xs + total_quantity ys.
Proof.
  unfold total_quantity. induction xs as [|x xs IH]; simpl; [reflexivity|].
  rewrite IH. lia.
Qed.

(** The chunks before the last one are full. *)
Lemma full_chunks (m : nat) :
  Z.of_nat m < n ->
  total_quantity
    (map (fun i : nat =>
            mkChunk (Z.of_nat i)
              (Z.min splitSize (totalQuantity - (Z.of_nat i - 1) * splitSize)))
         (seq 1 m)) = Z.of_nat m * splitSize.
Proof.
  pose proof chunkCount_ceiling as Hc.
  induction m as [|m IH]; intros Hm; [reflexivity|].
  rewrite seq_S, map_app, total_quantity_app, IH by lia.
  unfold total_quantity. simpl. nia.
Qed.

Lemma splitOrder_total : total_quantity (splitOrder totalQuantity splitSize) = totalQuantity.
Proof.
  pose proof chunkCount_ceiling as Hc. pose proof chunkCount_positive as Hn.
  unfold splitOrder. fold n.
  destruct (Z.to_nat n) as [|m] eqn:Hm; [lia|].
  rewrite seq_S, map_app, total_quantity_app, full_chunks by lia.
  unfold total_quantity. simpl. nia.
Qed.

End Chunks.

(** C9. A split order of positive [totalQuantity] and [splitSize] has
    [ceil(totalQuantity / splitSize)] chunks, numbered 1, 2, ... in the order
    of submission; each has quantity [splitSize] except the last, which has
    [totalQuantity mod splitSize] when that is not zero; the quantities add
    up to [totalQuantity].  For 105 split by 20 these are the six chunks 20,
    20, 20, 20, 20, 5. *)
Theorem split_order_chunks (totalQuantity splitSize : Z) :
  0 < totalQuantity -> 0 < splitSize ->
  let chunks := splitOrder totalQuantity splitSize in
  let n := chunkCount totalQuantity splitSize in
  Z.of_nat (length chunks) = n ∧
  (n - 1) * splitSize < totalQuantity <= n * splitSize ∧
  (forall i c, nth_error chunks i = Some c ->
     order_num c = Z.of_nat i + 1 ∧
     (Z.of_nat i + 1 < n -> quantity c = splitSize) ∧
     (Z.of_nat i + 1 = n ->
        quantity c = if totalQuantity mod splitSize =? 0 then splitSize
                     else totalQuantity mod splitSize)) ∧
  total_quantity chunks = totalQuantity ∧
  splitOrder 105 20 =
    [mkChunk 1 20; mkChunk 2 20; mkChunk 3 20; mkChunk 4 20; mkChunk 5 20; mkChunk 6 5].
Proof.
  intros Ht Hs chunks n.
  pose proof (chunkCount_ceiling totalQuantity splitSize Ht Hs) as Hc.
  pose proof (chunkCount_quotient totalQuantity splitSize Ht Hs) as Hq.
  fold n in Hc, Hq.
  split; [apply splitOrder_length; assumption|].
  split; [exact Hc|].
  split; [|split; [apply splitOrder_total; assumption|reflexivity]].
  intros i c Hi.
  destruct (splitOrder_nth totalQuantity splitSize i c Hi) as [Hlt ->].
  fold n in Hlt. simpl.
  split; [reflexivity|]. split.
  - intros Hfull. nia.
  - intros Hlast.
    pose proof (Z.div_mod totalQuantity splitSize ltac:(lia)) as Hdm.
    pose proof (Z.mod_pos_bound totalQuantity splitSize Hs) as Hr.
    destruct (Z.eqb_spec (totalQuantity mod splitSize) 0); nia.
Qed.

Lemma split_order_chunks_witness :
  length (splitOrder 105 20) = 6%nat ∧
  map quantity (splitOrder 105 20) = [20; 20; 20; 20; 20; 5] ∧
  total_quantity (splitOrder 105 20) = 105.
Proof.
  pose proof (split_order_chunks 105 20 ltac:(lia) ltac:(lia)) as H. simpl in H.
  destruct H as (Hlen & _ & _ & Htotal & Hchunks).
  split; [|split].
  - apply Nat2Z.inj. exact Hlen.
  - rewrite Hchunks. reflexivity.
  - exact Htotal.
Defined.

Close Scope Z_scope.

(** ** The rest of the store *)

(** *** Writing, reading, deleting, clearing *)

Lemma deleteVariable_run (name : string) (w : World) :
  deleteVariable name w =
  (tt, match selected (currentWorkflowId (state w)) with
       | Some wf =>
           mkWorld (mkState (<[wf := delete name (spread (variables (state w)) wf)]>
                               (variables (state w)))
                            (currentWorkflowId (state w)))
                   (console w)
       | None => w
       end).
Proof.
  unfold deleteVariable, bind, get. destruct (selected _); reflexivity.
Qed.

Lemma clearVariables_run (w : World) :
  clearVariables w =
  (tt, match selected (currentWorkflowId (state w)) with
       | Some wf =>
           mkWorld (mkState (<[wf := ∅]> (variables (state w)))
                            (currentWorkflowId (state w)))
                   (console w)
       | None => w
       end).
Proof.
  unfold clearVariables, bind, get. destruct (selected _); reflexivity.
Qed.

Lemma getAllVariables_run (w : World) :
  getAllVariables w =
  (match selected (currentWorkflowId (state w)) with
   | Some wf => spread (variables (state w)) wf
   | None => ∅
   end, w).
Proof.
  unfold getAllVariables, bind, get. destruct (selected _); reflexivity.
Qed.

Lemma spread_insert (vs : gmap string (gmap string value)) (wf : string)
    (vars : gmap string value) :
  spread (<[wf := vars]> vs) wf = vars.
Proof. unfold spread. by rewrite lookup_insert_eq. Qed.

Lemma read_spread (vs : gmap string (gmap string value)) (wf name : string) :
  read vs wf name =
  match spread vs wf !! name with Some v => v | None => VUndefined end.
Proof.
  unfold read, spread. destruct (vs !! wf); [reflexivity|]. by rewrite lookup_empty.
Qed.

(** Unfolds the store's actions on a world whose workflow is selected. *)
Ltac run_store Hsel :=
  unfold exec, eval;
  repeat (rewrite ?setVariable_run, ?deleteVariable_run, ?clearVariables_run,
            ?getVariable_run, ?getAllVariables_run; cbn [fst snd state variables
            currentWorkflowId console]; rewrite ?Hsel).

(** X1. With a workflow selected, one whose id names no inherited member,
    [setVariable] and [getVariable] are a map update and a lookup: the value
    written is read back, every other name (that names no inherited member)
    reads as before, of two writes to a name the last one wins, and
    [getAllVariables] shows the variables with the one entry updated. *)
Theorem setVariable_then_getVariable (name other wf : string) (v v' : value) (w : World) :
  selected (currentWorkflowId (state w)) = Some wf ->
  inherited wf = false ->
  eval (getVariable name) (exec (setVariable name v) w) = v ∧
  (name ≠ other -> inherited other = false ->
     eval (getVariable other) (exec (setVariable name v) w) = eval (getVariable other) w) ∧
  exec (setVariable name v') (exec (setVariable name v) w) = exec (setVariable name v') w ∧
  eval getAllVariables (exec (setVariable name v) w) =
    <[name := v]> (eval getAllVariables w).
Proof.
  intros Hsel _. split; [|split; [|split]].
  - eapply getVariable_setVariable; eauto.
  - intros Hne _. apply getVariable_setVariable_other, Hne.
  - run_store Hsel. rewrite spread_insert.
    by rewrite !insert_insert_eq.
  - run_store Hsel. apply spread_insert.
Qed.

Lemma setVariable_then_getVariable_witness :
  let w := exec (setVariable "qty" (VNum 75)) (exec (setCurrentWorkflow "wf") initial) in
  eval (getVariable "qty") (exec (setVariable "qty" (VNum 150)) w) = VNum 150 ∧
  eval (getVariable "side") (exec (setVariable "qty" (VNum 150)) w) = VUndefined.
Proof.
  intros w.
  pose proof (setVariable_then_getVariable "qty" "side" "wf" (VNum 150) VNull w eq_refl eq_refl)
    as (Hsame & Hother & _).
  split; [exact Hsame|]. rewrite Hother by (discriminate || reflexivity). reflexivity.
Defined.

(** X2. With a workflow selected, [deleteVariable] removes the name, where
    neither the workflow id nor the names read name an inherited member: the
    name reads [undefined], it is no longer among [getAllVariables], the
    other names read as before, and deleting what was just set gives back
    the variables without that name.  Storing [undefined] is not the same:
    the name then reads [undefined] too, but stays among the variables. *)
Theorem deleteVariable_removes (name other wf : string) (v : value) (w : World) :
  selected (currentWorkflowId (state w)) = Some wf ->
  inherited wf = false ->
  (inherited name = false ->
     eval (getVariable name) (exec (deleteVariable name) w) = VUndefined) ∧
  eval getAllVariables (exec (deleteVariable name) w) = delete name (eval getAllVariables w) ∧
  (name ≠ other -> inherited other = false ->
     eval (getVariable other) (exec (deleteVariable name) w) = eval (getVariable other) w) ∧
  eval getAllVariables (exec (deleteVariable name) (exec (setVariable name v) w)) =
    delete name (eval getAllVariables w) ∧
  eval (getVariable name) (exec (setVariable name VUndefined) w) = VUndefined ∧
  eval getAllVariables (exec (setVariable name VUndefined) w) !! name = Some VUndefined.
Proof.
  intros Hsel _. repeat split.
  - intros _. run_store Hsel. unfold read. by rewrite lookup_insert_eq, lookup_delete_eq.
  - run_store Hsel. apply spread_insert.
  - intros Hne _. run_store Hsel. rewrite (read_spread (variables (state w))).
    unfold read. by rewrite lookup_insert_eq, lookup_delete_ne.
  - run_store Hsel. rewrite !spread_insert. apply delete_insert_eq.
  - eapply getVariable_setVariable; eauto.
  - run_store Hsel. rewrite spread_insert. apply lookup_insert_eq.
Qed.

Lemma deleteVariable_removes_witness :
  let w := exec (setVariable "qty" (VNum 75)) (exec (setCurrentWorkflow "wf") initial) in
  eval (getVariable "qty") (exec (deleteVariable "qty") w) = VUndefined ∧
  eval getAllVariables (exec (deleteVariable "qty") w) = ∅.
Proof.
  intros w.
  pose proof (deleteVariable_removes "qty" "side" "wf" VNull w eq_refl eq_refl)
    as (Hgone & Hall & _).
  split; [exact (Hgone eq_refl)|]. rewrite Hall. vm_compute. reflexivity.
Defined.

Lemma getVariableByPath_run (path : string) (w : World) :
  eval (getVariableByPath path) w =
  match selected (currentWorkflowId (state w)) with
  | None => VUndefined
  | Some wf =>
      if includes "." path then
        match split "." path with
        | name :: key :: keys =>
            getNestedValue (read (variables (state w)) wf name) (join "." (key :: keys))
        | [name] => read (variables (state w)) wf name
        | [] => read (variables (state w)) wf "undefined"
        end
      else read (variables (state w)) wf path
  end.
Proof.
  unfold eval, getVariableByPath, bind, get. simpl.
  destruct (selected _); [|reflexivity].
  destruct (includes "." path); [|reflexivity].
  destruct (split "." path) as [|name [|key keys]]; reflexivity.
Qed.

(** Where no variable is stored, no path resolves. *)
Lemma getVariableByPath_nothing_stored (path wf : string) (w : World) :
  selected (currentWorkflowId (state w)) = Some wf ->
  spread (variables (state w)) wf = ∅ ->
  eval (getVariableByPath path) w = VUndefined.
Proof.
  intros Hsel Hempty. rewrite getVariableByPath_run, Hsel.
  assert (Hread : forall name, read (variables (state w)) wf name = VUndefined).
  { intros name. rewrite read_spread, Hempty. by rewrite lookup_empty. }
  destruct (includes "." path); [|apply Hread].
  destruct (split "." path) as [|name [|key keys]]; rewrite ?Hread; reflexivity.
Qed.

(** A match whose path does not resolve is written back as it was found. *)
Lemma render_pieces_unresolved (w : World) (ps : list piece) :
  Forall (fun path => substitutable (eval (getVariableByPath (trim path)) w) = false)
         (matches ps) ->
  render_pieces w ps = pieces_text ps.
Proof.
  induction ps as [|q rest IH]; [reflexivity|].
  destruct q as [c|path]; cbn [matches flat_map app render_pieces pieces_text
                                rendered_piece piece_text rendered].
  - intros H. rewrite (IH H). reflexivity.
  - intros H. inversion H as [|? ? Hpath Hrest]; subst.
    rewrite Hpath, (IH Hrest). reflexivity.
Qed.

Lemma search_no_brace (template : string) :
  includes "{" template = false -> matches (search template 0) = [].
Proof.
  induction template as [|c r IH]; [reflexivity|].
  simpl includes. intros H. apply orb_false_iff in H. destruct H as [Hc Hr].
  rewrite search_cons.
  assert (Hnone : match_here (String c r) = None).
  { unfold match_here. destruct r; [reflexivity|]. rewrite Hc. reflexivity. }
  rewrite Hnone. cbn [matches flat_map app]. apply IH, Hr.
Qed.

Lemma interpolate_unresolved (template : string) (w : World) :
  Forall (fun path => substitutable (eval (getVariableByPath (trim path)) w) = false)
         (matches (search template 0)) ->
  eval (interpolate template) w = template.
Proof.
  intros H. unfold eval, interpolate. rewrite replace_pieces_run. cbn [fst].
  rewrite (render_pieces_unresolved w _ H). apply search_text.
Qed.

(** X3. [interpolate] fails open: a template in which no placeholder
    resolves (each path is not found, or resolves to [null]) comes back
    character for character, and so does any template without an opening
    brace, whatever the store holds. *)
Theorem interpolate_leaves_unresolved (template : string) (w : World) :
  (Forall (fun path => substitutable (eval (getVariableByPath (trim path)) w) = false)
          (matches (search template 0)) ->
   eval (interpolate template) w = template) ∧
  (includes "{" template = false -> eval (interpolate template) w = template).
Proof.
  split; [apply interpolate_unresolved|].
  intros Hbrace. apply interpolate_unresolved.
  rewrite (search_no_brace _ Hbrace). constructor.
Qed.

Lemma interpolate_leaves_unresolved_witness :
  let w := exec (setVariable "bid" VNull) (exec (setCurrentWorkflow "wf") initial) in
  eval (interpolate "bid {{bid}} ask {{ask}}") w = "bid {{bid}} ask {{ask}}"%string ∧
  eval (interpolate "BUY 75 NIFTY") w = "BUY 75 NIFTY"%string.
Proof.
  intros w. split.
  - apply (proj1 (interpolate_leaves_unresolved "bid {{bid}} ask {{ask}}" w)).
    change (matches (search "bid {{bid}} ask {{ask}}" 0)) with ["bid"; "ask"]%string.
    repeat (constructor; [vm_compute; reflexivity|]). constructor.
  - exact (proj2 (interpolate_leaves_unresolved "BUY 75 NIFTY" w) eq_refl).
Defined.

(** X4. With a workflow selected, [clearVariables] leaves that workflow
    without variables: [getAllVariables] is empty, no path resolves, every
    template interpolates to itself; the selection and the console are as
    before.  The workflow id, the first segment of the path and the first
    segment of every placeholder of the template are taken to name no
    inherited member. *)
Theorem clearVariables_empties (wf path template : string) (w : World) :
  selected (currentWorkflowId (state w)) = Some wf ->
  inherited wf = false ->
  let w' := exec clearVariables w in
  let names_no_member (p : string) := inherited (hd EmptyString (split "." p)) = false in
  eval getAllVariables w' = ∅ ∧
  (names_no_member path -> eval (getVariableByPath path) w' = VUndefined) ∧
  (Forall (fun q => names_no_member (trim q)) (matches (search template 0)) ->
     eval (interpolate template) w' = template) ∧
  currentWorkflowId (state w') = currentWorkflowId (state w) ∧
  console w' = console w.
Proof.
  intros Hsel _ w' names_no_member.
  assert (Hsel' : selected (currentWorkflowId (state w')) = Some wf).
  { subst w'. unfold exec. rewrite clearVariables_run, Hsel. exact Hsel. }
  assert (Hempty : spread (variables (state w')) wf = ∅).
  { subst w'. unfold exec. rewrite clearVariables_run, Hsel. apply spread_insert. }
  split; [|split; [|split; [|split]]].
  - unfold eval. rewrite getAllVariables_run, Hsel'. exact Hempty.
  - intros _. eapply getVariableByPath_nothing_stored; eauto.
  - intros _. apply interpolate_unresolved.
    apply Forall_forall. intros q _.
    rewrite (getVariableByPath_nothing_stored _ wf w' Hsel' Hempty). reflexivity.
  - subst w'. unfold exec. rewrite clearVariables_run, Hsel. reflexivity.
  - subst w'. unfold exec. rewrite clearVariables_run, Hsel. reflexivity.
Qed.

Lemma clearVariables_empties_witness :
  let w := exec (setVariable "qty" (VNum 75)) (exec (setCurrentWorkflow "wf") initial) in
  eval (interpolate "qty={{qty}}") (exec clearVariables w) = "qty={{qty}}"%string.
Proof.
  intros w.
  refine (proj1 (proj2 (proj2 (clearVariables_empties "wf" "qty" "qty={{qty}}" w
                                 eq_refl eq_refl))) _).
  repeat constructor.
Defined.

(** *** Selecting a workflow *)

(** X5. [setCurrentWorkflow] with an id that is not empty and names no
    inherited member: selecting twice is selecting once; an id without
    variables starts with none; and the variables of a workflow survive
    selecting another workflow, whatever its id, and coming back.  An id
    that names a member of [Object.prototype] gets no variables of its own
    by being selected. *)
Theorem setCurrentWorkflow_switches (a b name : string) (v : value) (w : World) :
  a ≠ EmptyString ->
  inherited a = false ->
  exec (setCurrentWorkflow a) (exec (setCurrentWorkflow a) w) = exec (setCurrentWorkflow a) w ∧
  (variables (state w) !! a = None ->
     eval getAllVariables (exec (setCurrentWorkflow a) w) = ∅) ∧
  eval (getVariable name)
    (exec (setCurrentWorkflow a)
       (exec (setCurrentWorkflow b)
          (exec (setVariable name v) (exec (setCurrentWorkflow a) w)))) = v ∧
  (In b Object_prototype ->
     variables (state (exec (setCurrentWorkflow b) w)) = variables (state w)).
Proof.
  intros Ha Hplain. apply not_inherited_by_mapping in Hplain.
  assert (Hsel : selected (Some a) = Some a) by (destruct a; [done|reflexivity]).
  split; [|split; [|split]].
  - unfold exec. rewrite !setCurrentWorkflow_run. cbn [snd state variables console].
    rewrite Hplain.
    destruct (variables (state w) !! a) as [vars|] eqn:Hvars.
    + rewrite Hvars. reflexivity.
    + rewrite lookup_insert_eq. reflexivity.
  - intros Hnone. unfold exec, eval.
    rewrite setCurrentWorkflow_run, getAllVariables_run, Hnone, Hplain.
    cbn [snd fst state variables currentWorkflowId]. rewrite Hsel.
    apply spread_insert.
  - set (w1 := exec (setCurrentWorkflow a) w).
    assert (Hsel1 : selected (currentWorkflowId (state w1)) = Some a).
    { subst w1. unfold exec. rewrite setCurrentWorkflow_run. exact Hsel. }
    set (w2 := exec (setVariable name v) w1).
    assert (Hread2 : read (variables (state w2)) a name = v).
    { subst w2. unfold exec. rewrite setVariable_run, Hsel1. apply read_insert_eq. }
    set (w3 := exec (setCurrentWorkflow b) w2).
    assert (Hread3 : read (variables (state w3)) a name = v).
    { subst w3. unfold exec. rewrite setCurrentWorkflow_run. cbn [snd state variables].
      destruct (variables (state w2) !! b) eqn:Hb; [exact Hread2|].
      destruct (existsb (String.eqb b) Object_prototype); [exact Hread2|].
      unfold read in *. rewrite lookup_insert_ne; [exact Hread2|].
      intros ->. rewrite Hb in Hread2.
      subst w2. unfold exec in Hb. rewrite setVariable_run, Hsel1 in Hb.
      cbn [snd state variables] in Hb. by rewrite lookup_insert_eq in Hb. }
    assert (Ha2 : is_Some (variables (state w2) !! a)).
    { subst w2. unfold exec. rewrite setVariable_run, Hsel1.
      cbn [snd state variables]. rewrite lookup_insert_eq. eauto. }
    assert (Ha3 : is_Some (variables (state w3) !! a)).
    { subst w3. unfold exec. rewrite setCurrentWorkflow_run. cbn [snd state variables].
      destruct (variables (state w2) !! b); [exact Ha2|].
      destruct (existsb (String.eqb b) Object_prototype); [exact Ha2|].
      destruct (decide (b = a)) as [->|Hne].
      - rewrite lookup_insert_eq. eauto.
      - rewrite lookup_insert_ne by exact Hne. exact Ha2. }
    destruct Ha3 as [vars Ha3].
    unfold exec, eval. rewrite setCurrentWorkflow_run, getVariable_run.
    cbn [snd fst state variables currentWorkflowId]. rewrite Hsel.
    fold (exec (setCurrentWorkflow b) w2). fold w3.
    rewrite Ha3. exact Hread3.
  - intros Hb. unfold exec. rewrite setCurrentWorkflow_run. cbn [snd state variables].
    destruct (variables (state w) !! b); [reflexivity|].
    replace (existsb (String.eqb b) Object_prototype) with true; [reflexivity|].
    symmetry. apply existsb_exists. exists b. split; [exact Hb|apply String.eqb_refl].
Qed.

Lemma setCurrentWorkflow_switches_witness :
  eval (getVariable "qty")
    (exec (setCurrentWorkflow "straddle")
       (exec (setCurrentWorkflow "scalper")
          (exec (setVariable "qty" (VNum 75))
             (exec (setCurrentWorkflow "straddle") initial)))) = VNum 75.
Proof.
  refine (proj1 (proj2 (proj2 (setCurrentWorkflow_switches "straddle" "scalper" "qty" (VNum 75)
                                 initial _ eq_refl)))).
  discriminate.
Defined.

(** X6. The empty string is no workflow: after [setCurrentWorkflow("")] the
    id is stored and a bucket exists for it, but nothing is selected; the
    readers find nothing and [setVariable], [deleteVariable] and
    [clearVariables] change nothing. *)
Theorem empty_workflow_id_selects_nothing (name path : string) (v : value) (w : World) :
  let w' := exec (setCurrentWorkflow EmptyString) w in
  currentWorkflowId (state w') = Some EmptyString ∧
  is_Some (variables (state w') !! EmptyString) ∧
  eval (getVariable name) w' = VUndefined ∧
  eval (getVariableByPath path) w' = VUndefined ∧
  eval getAllVariables w' = ∅ ∧
  exec (setVariable name v) w' = w' ∧
  exec (deleteVariable name) w' = w' ∧
  exec clearVariables w' = w'.
Proof.
  intros w'.
  assert (Hid : currentWorkflowId (state w') = Some EmptyString).
  { subst w'. unfold exec. rewrite setCurrentWorkflow_run. reflexivity. }
  rewrite getVariableByPath_run. unfold exec, eval.
  rewrite setVariable_run, deleteVariable_run, clearVariables_run, getVariable_run,
    getAllVariables_run, Hid.
  cbn [fst snd selected].
  repeat split; try reflexivity.
  subst w'. unfold exec. rewrite setCurrentWorkflow_run. cbn [snd state variables].
  destruct (variables (state w) !! EmptyString) eqn:H; [rewrite H; eauto|].
  cbn [existsb Object_prototype String.eqb orb]. rewrite lookup_insert_eq. eauto.
Qed.

(** *** Composing the operations *)

Lemma selected_after_setVariable (name wf : string) (v : value) (w : World) :
  selected (currentWorkflowId (state w)) = Some wf ->
  selected (currentWorkflowId (state (exec (setVariable name v) w))) = Some wf ∧
  read (variables (state (exec (setVariable name v) w))) wf name = v.
Proof.
  intros Hsel. unfold exec. rewrite setVariable_run, Hsel. cbn [snd state variables
    currentWorkflowId]. split; [exact Hsel|apply read_insert_eq].
Qed.

Lemma includes_join (name key : string) (keys : list string) :
  includes "." (join "." (name :: key :: keys)) = true.
Proof.
  change (join "." (name :: key :: keys))
    with (name +:+ String "." (join "." (key :: keys))).
  induction name as [|c r IH]; [reflexivity|].
  rewrite append_cons. cbn [includes]. rewrite IH. apply orb_true_r.
Qed.

Lemma path_after_setVariable (name wf : string) (keys : list string) (v : value) (w : World) :
  selected (currentWorkflowId (state w)) = Some wf ->
  Forall (fun seg => includes "." seg = false) (name :: keys) ->
  eval (getVariableByPath (join "." (name :: keys))) (exec (setVariable name v) w) =
  value_at v keys.
Proof.
  intros Hsel Hall.
  destruct (selected_after_setVariable name wf v w Hsel) as [Hsel' Hread].
  rewrite getVariableByPath_run, Hsel'.
  destruct keys as [|key keys].
  - inversion Hall as [|? ? Hname _]; subst. cbn [join]. rewrite Hname. exact Hread.
  - rewrite includes_join, (split_join "." (name :: key :: keys)) by (discriminate || exact Hall).
    rewrite Hread. apply getNestedValue_value_at.
    inversion Hall; assumption.
Qed.

Lemma read_after_setVariable_other (name other wf : string) (v : value) (w : World) :
  selected (currentWorkflowId (state w)) = Some wf ->
  name ≠ other ->
  read (variables (state (exec (setVariable name v) w))) wf other =
  read (variables (state w)) wf other.
Proof.
  intros Hsel Hne. unfold exec. rewrite setVariable_run, Hsel.
  cbn [snd state variables]. rewrite read_insert_ne by exact Hne.
  symmetry. apply read_spread.
Qed.

(** X7. With a workflow selected, what [setVariable] stores under a name
    (one without a dot) is what [getVariableByPath] finds: the value itself
    by the name, and by [name.k1. ... .kn] the value at those keys inside
    it.  A path that starts with another name resolves as before.  The
    workflow id, the other name and the keys are taken to name no inherited
    member. *)
Theorem setVariable_then_getVariableByPath
    (name other wf : string) (keys : list string) (v : value) (w : World) :
  selected (currentWorkflowId (state w)) = Some wf ->
  inherited wf = false ->
  Forall (fun seg => includes "." seg = false) (name :: other :: keys) ->
  Forall (fun seg => inherited seg = false) (other :: keys) ->
  eval (getVariableByPath (join "." (name :: keys))) (exec (setVariable name v) w) =
    value_at v keys ∧
  (name ≠ other ->
     eval (getVariableByPath (join "." (other :: keys))) (exec (setVariable name v) w) =
     eval (getVariableByPath (join "." (other :: keys))) w).
Proof.
  intros Hsel _ Hall _.
  inversion Hall as [|? ? Hname Hrest]; subst.
  inversion Hrest as [|? ? Hother Hkeys]; subst.
  split; [apply (path_after_setVariable name wf); [exact Hsel|constructor; assumption]|].
  intros Hne.
  destruct (selected_after_setVariable name wf v w Hsel) as [Hsel' _].
  rewrite !getVariableByPath_run, Hsel, Hsel'.
  destruct keys as [|key keys].
  - cbn [join]. rewrite Hother. apply read_after_setVariable_other; assumption.
  - rewrite includes_join, (split_join "." (other :: key :: keys)) by (discriminate || exact Hrest).
    rewrite read_after_setVariable_other by assumption. reflexivity.
Qed.

Lemma setVariable_then_getVariableByPath_witness :
  let quote := VObj [("ltp", VNum 18500.5); ("depth", VObj [("bid", VNum 18500)])]%string in
  let w := exec (setCurrentWorkflow "wf") initial in
  eval (getVariableByPath "quote.depth.bid") (exec (setVariable "quote" quote) w) = VNum 18500.
Proof.
  intros quote w.
  refine (proj1 (setVariable_then_getVariableByPath "quote" "position" "wf"
                   ["depth"; "bid"]%string quote w eq_refl eq_refl _ _));
    repeat constructor.
Defined.

Lemma append_empty_r (a : string) : a +:+ EmptyString = a.
Proof. induction a as [|x a IH]; [reflexivity|]. rewrite append_cons, IH. reflexivity. Qed.



(** *** Numbers *)

(** The numeric mutators as one write of the new number, where the current
    value converts. *)
Lemma exec_mutators (name : string) (y : float) (w : World) :
  converts (eval (getVariable name) w) = true ->
  let current := number_or_zero (eval (getVariable name) w) in
  exec (addToVariable name y) w = exec (setVariable name (VNum (current + y))) w ∧
  exec (subtractFromVariable name y) w = exec (setVariable name (VNum (current - y))) w ∧
  exec (multiplyVariable name y) w = exec (setVariable name (VNum (current * y))) w ∧
  ((y =? zero)%float = false ->
     exec (divideVariable name y) w = exec (setVariable name (VNum (current / y))) w) ∧
  exec (incrementVariable name) w = exec (setVariable name (VNum (current + one))) w ∧
  exec (decrementVariable name) w = exec (setVariable name (VNum (current - one))) w.
Proof.
  intros Hv. pose proof (numeric_mutators_run name y w) as H. cbv zeta in *.
  rewrite Hv in H. destruct H as (Ha & Hs & Hm & Hd & Hi & He).
  split; [unfold exec at 1; rewrite Ha; reflexivity|].
  split; [unfold exec at 1; rewrite Hs; reflexivity|].
  split; [unfold exec at 1; rewrite Hm; reflexivity|].
  split; [intros Hy; unfold exec at 1; rewrite Hd, Hy; reflexivity|].
  split; [unfold exec at 1; rewrite Hi; reflexivity|].
  unfold exec at 1. rewrite He. reflexivity.
Qed.



Lemma is_nan_eq (x : float) : is_nan x = true -> x = nan.
Proof.
  intros H. apply Prim2SF_inj. unfold Prim2SF at 1. rewrite H. reflexivity.
Qed.

Lemma nan_operand (x : float) :
  (x + nan = nan ∧ x - nan = nan ∧ x * nan = nan ∧ x / nan = nan)%float.
Proof.
  repeat split; apply is_nan_eq; unfold is_nan;
    rewrite FloatAxioms.eqb_spec, ?FloatAxioms.add_spec, ?FloatAxioms.sub_spec,
      ?FloatAxioms.mul_spec, ?FloatAxioms.div_spec;
    change (Prim2SF nan) with S754_nan;
    destruct (Prim2SF x) as [| | |]; try destruct s; reflexivity.
Qed.

(** X10. [NaN] as the operand: with a workflow selected and a current value
    that converts to a number, [add], [subtract], [multiply] and [divide] by
    [NaN] all store [NaN]; the next mutation reads that [NaN] as [0]. *)
Theorem nan_operand_stores_nan (name wf : string) (x : float) (w : World) :
  selected (currentWorkflowId (state w)) = Some wf ->
  converts (eval (getVariable name) w) = true ->
  eval (getVariable name) (exec (addToVariable name nan) w) = VNum nan ∧
  eval (getVariable name) (exec (subtractFromVariable name nan) w) = VNum nan ∧
  eval (getVariable name) (exec (multiplyVariable name nan) w) = VNum nan ∧
  eval (getVariable name) (exec (divideVariable name nan) w) = VNum nan ∧
  eval (getVariable name) (exec (addToVariable name x) (exec (addToVariable name nan) w)) =
    VNum (zero + x).
Proof.
  intros Hsel Hv.
  destruct (exec_mutators name nan w Hv) as (Hadd & Hsub & Hmul & Hdiv & _).
  specialize (Hdiv eq_refl).
  pose proof (nan_operand (number_or_zero (eval (getVariable name) w)))
    as (Ea & Es & Em & Ed).
  rewrite Ea in Hadd. rewrite Es in Hsub. rewrite Em in Hmul. rewrite Ed in Hdiv.
  assert (Hnan : eval (getVariable name) (exec (addToVariable name nan) w) = VNum nan).
  { rewrite Hadd. eapply getVariable_setVariable; eauto. }
  split; [exact Hnan|].
  split; [rewrite Hsub; eapply getVariable_setVariable; eauto|].
  split; [rewrite Hmul; eapply getVariable_setVariable; eauto|].
  split; [rewrite Hdiv; eapply getVariable_setVariable; eauto|].
  destruct (exec_mutators name x (exec (addToVariable name nan) w)) as (Hadd2 & _);
    [rewrite Hnan; reflexivity|].
  rewrite Hadd2, Hnan. erewrite getVariable_setVariable; [reflexivity|].
  rewrite Hadd. apply (selected_after_setVariable name wf _ w Hsel).
Qed.

Lemma nan_operand_stores_nan_witness :
  let w := exec (setVariable "pnl" (VNum 120)) (exec (setCurrentWorkflow "wf") initial) in
  eval (getVariable "pnl") (exec (multiplyVariable "pnl" nan) w) = VNum nan.
Proof.
  intros w.
  exact (proj1 (proj2 (proj2 (nan_operand_stores_nan "pnl" "wf" zero w eq_refl eq_refl)))).
Defined.

(** *** The dispatcher *)

(** X11. An operation name the dispatcher does not know changes nothing in
    the store and writes one warning that names it. *)
Theorem unknown_operation_only_warns (JSON_parse : string -> option value)
    (operation name : string) (v : value)
    (sourceVariable jsonPath : option string) (w : World) :
  ~ In operation ["set"; "get"; "add"; "subtract"; "multiply"; "divide"; "increment";
                  "decrement"; "parse_json"; "stringify"; "append"]%string ->
  let w' := exec (executeVariableOperation JSON_parse operation name v
                    sourceVariable jsonPath) w in
  state w' = state w ∧
  console w' = console w ++ ["Unknown variable operation: " +:+ operation].
Proof.
  intros Hunknown w'. subst w'. unfold executeVariableOperation.
  repeat match goal with
         | |- context [String.eqb operation ?known] =>
             destruct (String.eqb_spec operation known) as [->|_];
             [exfalso; apply Hunknown; simpl; tauto|]
         end.
  split; reflexivity.
Qed.

Lemma unknown_operation_only_warns_witness :
  let w := exec (setVariable "qty" (VNum 75)) (exec (setCurrentWorkflow "wf") initial) in
  state (exec (executeVariableOperation (fun _ => None) "modulo" "qty" (VNum 2) None None) w) =
  state w.
Proof.
  intros w.
  refine (proj1 (unknown_operation_only_warns (fun _ => None) "modulo" "qty" (VNum 2)
                   None None w _)).
  simpl. intros H. repeat (destruct H as [H|H]; [discriminate|]). exact H.
Defined.

(** X12. The [get] operation copies.  With a workflow selected and a source
    name that is not empty, the target reads afterwards what the source read
    before, or, with a path that is not empty, what [source.path] resolved
    to; without a source name (absent or empty) nothing at all happens. *)
Theorem get_operation_copies (JSON_parse : string -> option value)
    (target source path wf : string) (v : value) (w : World) :
  selected (currentWorkflowId (state w)) = Some wf ->
  source ≠ EmptyString ->
  let get sourceVariable jsonPath :=
    exec (executeVariableOperation JSON_parse "get" target v sourceVariable jsonPath) w in
  eval (getVariable target) (get (Some source) None) = eval (getVariable source) w ∧
  eval (getVariable target) (get (Some source) (Some EmptyString)) =
    eval (getVariable source) w ∧
  (path ≠ EmptyString ->
     eval (getVariable target) (get (Some source) (Some path)) =
       eval (getVariableByPath (source +:+ "." +:+ path)) w) ∧
  (forall jsonPath,
     get None jsonPath = w ∧ get (Some EmptyString) jsonPath = w).
Proof.
  intros Hsel Hsource get. subst get. cbv beta.
  destruct source as [|c source]; [done|].
  assert (Hplain : forall jp, provided jp = None ->
            exec (executeVariableOperation JSON_parse "get" target v
                    (Some (String c source)) jp) w =
            exec (setVariable target (eval (getVariable (String c source)) w)) w).
  { intros jp Hjp. unfold exec, executeVariableOperation. cbn [String.eqb Ascii.eqb
      Bool.eqb provided]. rewrite Hjp. unfold bind, eval.
    rewrite !(getVariable_run (String c source)). cbn [fst snd].
    rewrite returns_run. reflexivity. }
  split; [|split; [|split]].
  - rewrite Hplain by reflexivity. eapply getVariable_setVariable; eauto.
  - rewrite Hplain by reflexivity. eapply getVariable_setVariable; eauto.
  - intros Hpath. destruct path as [|d path]; [done|].
    assert (Hrun : exec (executeVariableOperation JSON_parse "get" target v
                           (Some (String c source)) (Some (String d path))) w =
                   exec (setVariable target
                           (eval (getVariableByPath (String c source +:+ "." +:+ String d path)) w))
                        w).
    { unfold exec, executeVariableOperation. cbn [String.eqb Ascii.eqb Bool.eqb provided].
      unfold bind. rewrite getVariableByPath_reads. rewrite returns_run. reflexivity. }
    rewrite Hrun. eapply getVariable_setVariable; eauto.
  - intros jsonPath. split; reflexivity.
Qed.

Lemma get_operation_copies_witness :
  let quote := VObj [("ltp", VNum 18500.5)]%string in
  let w := exec (setVariable "quote" quote) (exec (setCurrentWorkflow "wf") initial) in
  eval (getVariable "entry")
    (exec (executeVariableOperation (fun _ => None) "get" "entry" VUndefined
             (Some "quote") (Some "ltp")) w) =
  VNum 18500.5.
Proof.
  intros quote w.
  pose proof (get_operation_copies (fun _ => None) "entry" "quote" "ltp" "wf" VUndefined w eq_refl
                ltac:(discriminate)) as (_ & _ & Hpath & _).
  rewrite Hpath by discriminate. vm_compute. reflexivity.
Defined.

(** X13. The dispatcher converts the operand with [Number] and nothing
    more.  When the conversion returns zero (as it does of [null], [false],
    [""], ["0"] and the empty list), [divide] is a division by zero, which
    changes nothing in the store.  When it returns [NaN] (as it does of
    [undefined] and of a text that is no number), the current value converts
    and a workflow is selected, [add], [subtract], [multiply] and [divide]
    return and store [NaN].  When the conversion throws, so does the
    operation, and nothing is stored or logged. *)
Theorem operand_is_converted (JSON_parse : string -> option value)
    (name wf : string) (v : value)
    (sourceVariable jsonPath : option string) (w : World) :
  let run operation :=
    executeVariableOperation JSON_parse operation name v sourceVariable jsonPath in
  (forall n, callNumber v = Some n -> (n =? zero)%float = true ->
     state (exec (run "divide"%string) w) = state w) ∧
  (In v [VNull; VBool false; VStr ""; VStr "0"; VArr []] ->
     state (exec (run "divide"%string) w) = state w) ∧
  (forall n, callNumber v = Some n -> is_nan n = true ->
     converts (eval (getVariable name) w) = true ->
     selected (currentWorkflowId (state w)) = Some wf ->
     Forall (fun operation =>
               eval (run operation) w = Returned ∧
               eval (getVariable name) (exec (run operation) w) = VNum nan)
            ["add"; "subtract"; "multiply"; "divide"]%string) ∧
  (callNumber v = None ->
     Forall (fun operation => run operation w = (Thrown, w))
            ["add"; "subtract"; "multiply"; "divide"]%string).
Proof.
  intros run. subst run. cbv beta.
  pose proof (numeric_operations_run JSON_parse name v sourceVariable jsonPath w)
    as (Radd & Rsub & Rmul & Rdiv).
  cbv zeta in Radd, Rsub, Rmul, Rdiv.
  assert (Hzero : forall n, callNumber v = Some n -> (n =? zero)%float = true ->
            state (exec (executeVariableOperation JSON_parse "divide" name v
                           sourceVariable jsonPath) w) = state w).
  { intros n Hn Hz. unfold callNumber in Hn. unfold exec. rewrite Rdiv.
    destruct (converts v); [|discriminate]. injection Hn as <-.
    pose proof (numeric_mutators_run name (ToNumber v) w) as (_ & _ & _ & Hdiv & _).
    cbv zeta in Hdiv. rewrite Hdiv, Hz. destruct (converts _); reflexivity. }
  split; [exact Hzero|]. split; [|split].
  - intros Hin. simpl in Hin.
    repeat (destruct Hin as [<-|Hin]; [eapply Hzero; vm_compute; reflexivity|]).
    destruct Hin.
  - intros n Hn Hnan Hv Hsel. apply is_nan_eq in Hnan. subst n.
    unfold callNumber in Hn. destruct (converts v); [|discriminate]. injection Hn as Hn.
    rewrite Hn in Radd, Rsub, Rmul, Rdiv.
    pose proof (numeric_mutators_run name nan w) as (Hadd & Hsub & Hmul & Hdiv & _).
    cbv zeta in Hadd, Hsub, Hmul, Hdiv. rewrite Hv in Hadd, Hsub, Hmul, Hdiv.
    change (nan =? zero)%float with false in Hdiv. cbv iota in Hdiv.
    pose proof (nan_operand (number_or_zero (eval (getVariable name) w)))
      as (Ea & Es & Em & Ed).
    rewrite Ea in Hadd. rewrite Es in Hsub. rewrite Em in Hmul. rewrite Ed in Hdiv.
    rewrite <- Radd in Hadd. rewrite <- Rsub in Hsub.
    rewrite <- Rmul in Hmul. rewrite <- Rdiv in Hdiv.
    assert (Hstored : forall m : Action outcome,
              m w = (Returned, exec (setVariable name (VNum nan)) w) ->
              eval m w = Returned ∧ eval (getVariable name) (exec m w) = VNum nan).
    { intros m Hm. unfold eval at 1, exec at 1. rewrite Hm.
      split; [reflexivity|]. eapply getVariable_setVariable; eauto. }
    repeat (constructor; [apply Hstored; assumption|]). constructor.
  - intros Hn. unfold callNumber in Hn. destruct (converts v); [discriminate|].
    repeat (constructor; [assumption|]). constructor.
Qed.

Lemma operand_is_converted_witness :
  let w := exec (setVariable "lots" (VNum 4)) (exec (setCurrentWorkflow "wf") initial) in
  let run operation v := executeVariableOperation (fun _ => None) operation "lots" v None None in
  eval (getVariable "lots") (exec (run "divide" (VStr "0")) w) = VNum 4 ∧
  eval (getVariable "lots") (exec (run "add" (VStr "two")) w) = VNum nan ∧
  run "multiply" (VObj [("toString", VNum 1)]) w = (Thrown, w).
Proof.
  intros w run. subst run. cbv beta.
  pose proof (operand_is_converted (fun _ => None) "lots" "wf" (VStr "0") None None w)
    as (Hzero & _).
  pose proof (operand_is_converted (fun _ => None) "lots" "wf" (VStr "two") None None w)
    as (_ & _ & Hnan & _).
  pose proof (operand_is_converted (fun _ => None) "lots" "wf"
                (VObj [("toString", VNum 1)]) None None w) as (_ & _ & _ & Hthrown).
  cbv zeta in Hzero, Hnan, Hthrown.
  split; [|split].
  - unfold eval. rewrite !getVariable_run. rewrite (Hzero zero eq_refl eq_refl). reflexivity.
  - specialize (Hnan nan eq_refl eq_refl eq_refl eq_refl).
    inversion Hnan as [|? ? [_ Hadd] _]. exact Hadd.
  - specialize (Hthrown eq_refl).
    inversion Hthrown as [|? ? _ Hrest]. inversion Hrest as [|? ? _ Hrest'].
    inversion Hrest' as [|? ? Hmul _]. exact Hmul.
Defined.

(** X14. Without a workflow the dispatcher changes nothing in the store,
    whatever the operation and its arguments (a text that does not parse and
    an unknown operation still write to the console). *)
Theorem dispatcher_needs_a_workflow (JSON_parse : string -> option value)
    (vs : gmap string (gmap string value)) (log : list string)
    (operation name : string) (v : value) (sourceVariable jsonPath : option string) :
  let w := mkWorld (mkState vs None) log in
  state (exec (executeVariableOperation JSON_parse operation name v
                 sourceVariable jsonPath) w) = state w.
Proof.
  intros w. unfold exec, executeVariableOperation.
  repeat match goal with
         | |- context [String.eqb operation ?known] =>
             destruct (String.eqb operation known)
         end;
    try reflexivity.
  - destruct (provided sourceVariable); [|reflexivity].
    destruct (provided jsonPath); reflexivity.
  - unfold callNumber. destruct (converts v); [|reflexivity]. run_mutator. reflexivity.
  - unfold callNumber. destruct (converts v); [|reflexivity]. run_mutator. reflexivity.
  - unfold callNumber. destruct (converts v); [|reflexivity]. run_mutator. reflexivity.
  - unfold callNumber. destruct (converts v); [|reflexivity]. run_mutator.
    destruct (ToNumber v =? zero)%float; reflexivity.
  - unfold callString. destruct (converts v); [|reflexivity].
    unfold bind, parseJson. destruct (JSON_parse (ToString v)); reflexivity.
  - destruct (provided sourceVariable); reflexivity.
  - unfold callString. destruct (converts v); [|reflexivity]. run_mutator. reflexivity.
Qed.

(** X15. The [parse_json] operation fails only where [String] of its
    operand throws, and then nothing is stored or logged.  Where [String]
    returns a text and a workflow is selected, the operation returns: it
    stores what the text parses to and logs nothing; when the text does not
    parse it stores [null] and logs the text. *)
Theorem parse_json_stores_null_on_failure (JSON_parse : string -> option value)
    (name wf : string) (v : value)
    (sourceVariable jsonPath : option string) (w : World) :
  selected (currentWorkflowId (state w)) = Some wf ->
  let run := executeVariableOperation JSON_parse "parse_json" name v
               sourceVariable jsonPath in
  let w' := exec run w in
  match callString v with
  | Some text =>
      eval run w = Returned ∧
      match JSON_parse text with
      | Some parsed => eval (getVariable name) w' = parsed ∧ console w' = console w
      | None =>
          eval (getVariable name) w' = VNull ∧
          console w' = console w ++ ["Failed to parse JSON: " +:+ text]
      end
  | None => run w = (Thrown, w)
  end.
Proof.
  intros Hsel run w'. subst w' run. unfold executeVariableOperation, parseJson.
  cbn [String.eqb Ascii.eqb Bool.eqb].
  destruct (callString v) as [text|]; [|reflexivity].
  destruct (JSON_parse text) as [parsed|].
  - change (bind (ret parsed) (fun p => returns (setVariable name p)))
      with (returns (setVariable name parsed)).
    unfold eval. rewrite exec_returns, returns_run.
    split; [reflexivity|].
    split; [eapply getVariable_setVariable; eauto|].
    unfold exec. rewrite setVariable_run, Hsel. reflexivity.
  - set (logged := mkWorld (state w) (console w ++ ["Failed to parse JSON: " +:+ text])).
    assert (Hrun : forall k : value -> Action outcome,
              bind (bind (console_error ("Failed to parse JSON: " +:+ text))
                         (fun _ => ret VNull)) k w = k VNull logged) by reflexivity.
    unfold eval, exec. rewrite Hrun, returns_run.
    split; [reflexivity|]. cbn [fst snd].
    split; [eapply getVariable_setVariable; eauto|].
    unfold exec. rewrite setVariable_run. cbn [state logged]. rewrite Hsel. reflexivity.
Qed.

Lemma parse_json_stores_null_on_failure_witness :
  let w := exec (setCurrentWorkflow "wf") initial in
  let refuse (_ : string) : option value := None in
  let run := executeVariableOperation refuse "parse_json" "payload" (VStr "{oops") None None in
  eval run w = Returned ∧
  eval (getVariable "payload") (exec run w) = VNull ∧
  console (exec run w) = ["Failed to parse JSON: {oops"%string].
Proof.
  intros w refuse run.
  exact (parse_json_stores_null_on_failure refuse "payload" "wf" (VStr "{oops")
           None None w eq_refl).
Defined.

(** *** Stringifying *)

Lemma stringifyValue_text (v : value) :
  v ≠ VUndefined -> exists t, stringifyValue v = VStr t.
Proof.
  intros Hv. destruct v as [| |b|n|s|xs|fields]; try (eexists; reflexivity).
  - congruence.
  - unfold stringifyValue. cbn [JSON_stringify_spaced].
    destruct (map _ xs); eexists; reflexivity.
  - unfold stringifyValue. cbn [JSON_stringify_spaced].
    destruct (flat_map _ fields); eexists; reflexivity.
Qed.

(** X16. [stringifyValue] returns a string as it is, without quotes, and
    every other value but [undefined] as a text; so stringifying twice is
    stringifying once.  [undefined] stays [undefined].  Through the
    dispatcher, with a workflow selected: [stringify] stores the text of the
    source variable when one is named, of the operand otherwise. *)
Theorem stringifyValue_keeps_strings (JSON_parse : string -> option value)
    (target source wf : string) (v : value) (jsonPath : option string) (w : World) :
  (forall s, stringifyValue (VStr s) = VStr s) ∧
  stringifyValue (stringifyValue v) = stringifyValue v ∧
  (v ≠ VUndefined -> exists t, stringifyValue v = VStr t) ∧
  stringifyValue VUndefined = VUndefined ∧
  (selected (currentWorkflowId (state w)) = Some wf ->
     let stringify sourceVariable :=
       exec (executeVariableOperation JSON_parse "stringify" target v sourceVariable jsonPath)
            w in
     eval (getVariable target) (stringify None) = stringifyValue v ∧
     (source ≠ EmptyString ->
        eval (getVariable target) (stringify (Some source)) =
          stringifyValue (eval (getVariable source) w))).
Proof.
  split; [reflexivity|]. split; [|split; [apply stringifyValue_text|split; [reflexivity|]]].
  - destruct v as [| |b|n|s|xs|fields]; try reflexivity.
    + destruct (stringifyValue_text (VArr xs)) as [t ->]; [discriminate|reflexivity].
    + destruct (stringifyValue_text (VObj fields)) as [t ->]; [discriminate|reflexivity].
  - intros Hsel stringify. subst stringify. cbv beta. split.
    + unfold executeVariableOperation. cbn [String.eqb Ascii.eqb Bool.eqb provided].
      rewrite exec_returns. eapply getVariable_setVariable; eauto.
    + intros Hsource. destruct source as [|c source]; [done|].
      assert (Hrun : exec (executeVariableOperation JSON_parse "stringify" target v
                             (Some (String c source)) jsonPath) w =
                     exec (setVariable target
                             (stringifyValue (eval (getVariable (String c source)) w))) w).
      { unfold exec, executeVariableOperation.
        cbn [String.eqb Ascii.eqb Bool.eqb provided]. unfold bind, eval.
        rewrite !(getVariable_run (String c source)). cbn [fst snd].
        rewrite returns_run. reflexivity. }
      rewrite Hrun. eapply getVariable_setVariable; eauto.
Qed.

Lemma stringifyValue_keeps_strings_witness :
  let legs := VArr [VStr "CE"; VStr "PE"] in
  let w := exec (setVariable "legs" legs) (exec (setCurrentWorkflow "wf") initial) in
  eval (getVariable "text")
    (exec (executeVariableOperation (fun _ => None) "stringify" "text" VNull (Some "legs") None)
          w) =
  stringifyValue legs.
Proof.
  intros legs w.
  pose proof (stringifyValue_keeps_strings (fun _ => None) "text" "legs" "wf" VNull None w)
    as (_ & _ & _ & _ & Hop).
  destruct (Hop eq_refl) as [_ Hsource].
  rewrite Hsource by discriminate. reflexivity.
Defined.

(** *** Appending again *)

Lemma text_or_empty (t : string) : ToString (or_else (VStr t) (VStr EmptyString)) = t.
Proof. destruct t; reflexivity. Qed.

(** X17. Appending composes: [append] of one text and then of another
    leaves the store as one [append] of the two texts joined, whatever the
    variable held before (with no workflow selected, and where [String] of
    the value throws, neither does anything).  After an [append] with a
    workflow selected, over a value that converts, the call has returned and
    the variable holds a string. *)
Theorem append_twice (name first second : string) (w : World) :
  exec (appendToVariable name second) (exec (appendToVariable name first) w) =
    exec (appendToVariable name (first +:+ second)) w ∧
  (is_Some (selected (currentWorkflowId (state w))) ->
   converts (eval (getVariable name) w) = true ->
   eval (appendToVariable name first) w = Returned ∧
   typeof (eval (getVariable name) (exec (appendToVariable name first) w)) = "string"%string).
Proof.
  split.
  - unfold exec at 1 2 3. rewrite (appendToVariable_run name first w).
    rewrite (appendToVariable_run name (first +:+ second)).
    destruct (converts (or_else (eval (getVariable name) w) (VStr EmptyString))) eqn:Hv;
      cbn [snd]; rewrite (appendToVariable_run name second).
    + destruct (selected (currentWorkflowId (state w))) as [wf|] eqn:Hsel.
      * erewrite getVariable_setVariable by eauto.
        rewrite text_or_empty.
        replace (converts (or_else (VStr _) (VStr EmptyString))) with true
          by (destruct (ToString _ +:+ first); reflexivity).
        cbn [snd]. rewrite append_assoc.
        run_store Hsel. rewrite spread_insert. by rewrite !insert_insert_eq.
      * assert (Hsame : forall x, exec (setVariable name x) w = w).
        { intros x. unfold exec. rewrite setVariable_run, Hsel. reflexivity. }
        rewrite !Hsame, Hv. reflexivity.
    + rewrite Hv. reflexivity.
  - intros [wf Hsel] Hv. unfold eval at 1, exec. rewrite appendToVariable_run.
    replace (converts (or_else _ (VStr EmptyString))) with true.
    + cbn [fst snd]. split; [reflexivity|].
      erewrite getVariable_setVariable by eauto. reflexivity.
    + unfold or_else. destruct (ToBoolean _); [symmetry; exact Hv|reflexivity].
Qed.

Lemma append_twice_witness :
  let w := exec (setVariable "fills" (VNum 0)) (exec (setCurrentWorkflow "wf") initial) in
  typeof (eval (getVariable "fills") (exec (appendToVariable "fills" "1") w)) = "string"%string.
Proof.
  intros w. refine (proj2 (proj2 (append_twice "fills" "1" "2" w) _ _)).
  - vm_compute. eauto.
  - reflexivity.
Defined.

(** ** The variable picker and the store *)

(** *** Trimming *)

Lemma rev_app_append (s1 s2 : string) : String.rev_app s1 s2 = String.rev s1 +:+ s2.
Proof.
  revert s2. induction s1 as [|a s1 IH]; intros s2; [reflexivity|].
  unfold String.rev. cbn [String.rev_app].
  rewrite (IH (String a s2)), (IH (String a EmptyString)), append_assoc. reflexivity.
Qed.

Lemma rev_cons (a : ascii) (s : string) :
  String.rev (String a s) = String.rev s +:+ String a EmptyString.
Proof. unfold String.rev at 1. cbn [String.rev_app]. apply rev_app_append. Qed.

Lemma rev_append (a b : string) : String.rev (a +:+ b) = String.rev b +:+ String.rev a.
Proof.
  induction a as [|x a IH].
  - change (EmptyString +:+ b) with b. change (String.rev EmptyString) with EmptyString.
    symmetry. apply append_empty_r.
  - rewrite append_cons, !rev_cons, IH, append_assoc. reflexivity.
Qed.

Lemma rev_involutive (s : string) : String.rev (String.rev s) = s.
Proof.
  induction s as [|x s IH]; [reflexivity|].
  rewrite rev_cons, rev_append, IH. reflexivity.
Qed.

Lemma trimStart_length (s : string) : String.length (trimStart s) <= String.length s.
Proof.
  induction s as [|c r IH]; [reflexivity|].
  cbn [trimStart]. destruct (is_white_space c); simpl; lia.
Qed.

(** A string that [trimStart] keeps starts with a character that is not
    white space, or is empty. *)
Lemma trimStart_fixed (c : ascii) (r : string) :
  trimStart (String c r) = String c r -> is_white_space c = false.
Proof.
  cbn [trimStart]. destruct (is_white_space c); [|reflexivity].
  intros H. pose proof (trimStart_length r) as Hlen. rewrite H in Hlen.
  simpl in Hlen. lia.
Qed.

Lemma trimStart_append (a b : string) :
  a ≠ EmptyString -> trimStart a = a -> trimStart (a +:+ b) = a +:+ b.
Proof.
  destruct a as [|c r]; [congruence|]. intros _ H.
  rewrite append_cons. cbn [trimStart]. rewrite (trimStart_fixed c r H). reflexivity.
Qed.

Lemma trimEnd_append (a b : string) :
  b ≠ EmptyString -> trimEnd b = b -> trimEnd (a +:+ b) = a +:+ b.
Proof.
  intros Hb H. unfold trimEnd in *.
  assert (Hfix : trimStart (String.rev b) = String.rev b).
  { rewrite <- (rev_involutive (trimStart (String.rev b))), H. reflexivity. }
  assert (Hne : String.rev b ≠ EmptyString).
  { intros Hrev. apply Hb. rewrite <- (rev_involutive b), Hrev. reflexivity. }
  rewrite rev_append, (trimStart_append _ _ Hne Hfix), <- rev_append.
  apply rev_involutive.
Qed.

(** [trim] keeps a text whose two ends are kept. *)
Lemma trim_append (a b : string) :
  a ≠ EmptyString -> trimStart a = a ->
  b ≠ EmptyString -> trimEnd b = b ->
  trim (a +:+ b) = a +:+ b.
Proof.
  intros Ha Hstart Hb Hend. unfold trim.
  rewrite (trimStart_append a b Ha Hstart). apply trimEnd_append; assumption.
Qed.

Lemma includes_append (c : ascii) (a b : string) :
  includes c (a +:+ b) = includes c a || includes c b.
Proof.
  induction a as [|x a IH]; [reflexivity|].
  rewrite append_cons. cbn [includes]. rewrite IH. apply orb_assoc.
Qed.

(** *** What a click inserts *)

(** The placeholder of [name.path], interpolated where [name] holds a
    mapping. *)
Lemma interpolate_picked_path (name path wf : string) (keys : list string)
    (fields : list (string * value)) (w : World) :
  selected (currentWorkflowId (state w)) = Some wf ->
  name ≠ EmptyString -> trimStart name = name ->
  includes "." name = false -> includes "}" name = false ->
  path ≠ EmptyString -> trimEnd path = path -> includes "}" path = false ->
  path = join "." keys -> Forall (fun seg => includes "." seg = false) keys ->
  let found := value_at (VObj fields) keys in
  eval (interpolate (matched_text (name +:+ "." +:+ path)))
       (exec (setVariable name (VObj fields)) w) =
  if substitutable found then text_of found else matched_text (name +:+ "." +:+ path).
Proof.
  intros Hsel Hname Hstart Hdot Hclose Hpath Hend Hclose' Hjoin Hkeys found.
  set (full := (name +:+ "." +:+ path)%string).
  assert (Hwf : well_formed (Hole full) = true).
  { subst full. destruct name as [|c r]; [done|].
    rewrite append_cons. cbn [well_formed].
    rewrite <- append_cons, includes_append, Hclose.
    change ("." +:+ path)%string with (String "." path). cbn [includes orb Ascii.eqb Bool.eqb].
    rewrite Hclose'. reflexivity. }
  assert (Htrim : trim full = full).
  { subst full. apply trim_append; try assumption.
    - discriminate.
    - change ("." +:+ path)%string with ("." +:+ path)%string.
      apply (trimEnd_append "." path); assumption. }
  assert (Hfound : eval (getVariableByPath full) (exec (setVariable name (VObj fields)) w) =
                   found).
  { subst full found. destruct keys as [|key keys]; [cbn [join] in Hjoin; congruence|].
    rewrite Hjoin.
    change (name +:+ "." +:+ join "." (key :: keys))%string
      with (join "." (name :: key :: keys)).
    apply (path_after_setVariable name wf); [exact Hsel|constructor; assumption]. }
  assert (Hsearch : search (matched_text full) 0 = [Match full]).
  { rewrite <- (append_empty_r (matched_text full)). apply search_hole, Hwf. }
  unfold eval at 1, interpolate.
  rewrite Hsearch, replace_pieces_run.
  cbn [fst render_pieces rendered_piece rendered].
  rewrite Htrim, Hfound, append_empty_r. reflexivity.
Qed.

(** The placeholder of [name] alone, interpolated where [name] holds [v]. *)
Lemma interpolate_picked_name (name wf : string) (v : value) (w : World) :
  selected (currentWorkflowId (state w)) = Some wf ->
  well_formed (Hole name) = true -> includes "." name = false -> trim name = name ->
  eval (interpolate (matched_text name)) (exec (setVariable name v) w) =
  if substitutable v then text_of v else matched_text name.
Proof.
  intros Hsel Hwf Hdot Htrim.
  pose proof (path_after_setVariable name wf [] v w Hsel
                ltac:(repeat constructor; exact Hdot)) as Hfound.
  cbn [join value_at] in Hfound.
  assert (Hsearch : search (matched_text name) 0 = [Match name]).
  { rewrite <- (append_empty_r (matched_text name)). apply search_hole, Hwf. }
  unfold eval at 1, interpolate.
  rewrite Hsearch, replace_pieces_run.
  cbn [fst render_pieces rendered_piece rendered].
  rewrite Htrim, Hfound, append_empty_r. reflexivity.
Qed.

(** X18. What the picker inserts for a quote or a position, [interpolate]
    resolves.  With a workflow selected and a mapping stored under the
    entry's name (a name without dot, closing brace or leading white space),
    the placeholder of each offered path is replaced by the text of that
    field, and left as it is when the field is missing or [null]; the
    picker closes and clears its search. *)
Theorem picked_fields_resolve (info : VariablePicker.VariableInfo) (wf : string)
    (fields : list (string * value)) (st : VariablePicker.PickerState) (w : World) :
  let name := VariablePicker.name info in
  selected (currentWorkflowId (state w)) = Some wf ->
  name ≠ EmptyString -> trimStart name = name ->
  includes "." name = false -> includes "}" name = false ->
  VariablePicker.type info = "quote"%string ∨ VariablePicker.type info = "position"%string ->
  forall path, In path (VariablePicker.offered_paths info) ->
    let inserted := VariablePicker.handleSelect (name +:+ "." +:+ path) st in
    In (name +:+ "." +:+ path) (VariablePicker.entry_choices info) ∧
    snd inserted = VariablePicker.mkPicker false EmptyString ∧
    eval (interpolate (fst inserted)) (exec (setVariable name (VObj fields)) w) =
      match own_property path fields with
      | VUndefined | VNull => fst inserted
      | field => text_of field
      end.
Proof.
  intros name Hsel Hname Hstart Hdot Hclose Htype path Hin inserted.
  split; [|split; [reflexivity|]].
  - unfold VariablePicker.entry_choices. right. unfold VariablePicker.offered_paths in Hin.
    destruct (VariablePicker.common_paths (VariablePicker.type info)); [|destruct Hin].
    apply in_map_iff. exists path. split; [reflexivity|exact Hin].
  - subst inserted. cbn [fst VariablePicker.handleSelect].
    assert (Hpath : path ≠ EmptyString ∧ trimEnd path = path ∧
                    includes "}" path = false ∧ includes "." path = false).
    { unfold VariablePicker.offered_paths in Hin.
      destruct Htype as [Ht|Ht]; rewrite Ht in Hin; simpl in Hin;
        repeat (destruct Hin as [<-|Hin]; [repeat split; (discriminate || reflexivity)|]);
        destruct Hin. }
    destruct Hpath as (Hne & Hend & Hclose' & Hdot').
    rewrite (interpolate_picked_path name path wf [path] fields w); try assumption.
    + cbn [value_at get_property]. unfold substitutable.
      destruct (own_property path fields); reflexivity.
    + reflexivity.
    + repeat constructor. exact Hdot'.
Qed.

Lemma picked_fields_resolve_witness :
  let info := VariablePicker.mkInfo "quote" "getQuote" "quote" in
  let w := exec (setCurrentWorkflow "wf") initial in
  let fields := [("ltp", VNum 18500.5); ("open", VNull)]%string in
  eval (interpolate (fst (VariablePicker.handleSelect "quote.ltp"
                            (VariablePicker.mkPicker true "quo"))))
       (exec (setVariable "quote" (VObj fields)) w) = "18500.5"%string.
Proof.
  intros info w fields.
  exact (proj2 (proj2 (picked_fields_resolve info "wf" fields
                         (VariablePicker.mkPicker true "quo") w eq_refl
                         ltac:(discriminate) eq_refl eq_refl eq_refl (or_introl eq_refl)
                         "ltp"%string (or_introl eq_refl)))).
Defined.



(** *** The entries and the search box *)

Lemma lower_char_idempotent (c : ascii) :
  VariablePicker.lower_char (VariablePicker.lower_char c) = VariablePicker.lower_char c.
Proof. destruct c as [[] [] [] [] [] [] [] []]; reflexivity. Qed.

Lemma toLowerCase_idempotent (s : string) :
  VariablePicker.toLowerCase (VariablePicker.toLowerCase s) = VariablePicker.toLowerCase s.
Proof.
  induction s as [|c r IH]; [reflexivity|].
  cbn [VariablePicker.toLowerCase]. rewrite lower_char_idempotent, IH. reflexivity.
Qed.

Lemma starts_with_self_prefix (t s : string) : VariablePicker.starts_with t (t +:+ s) = true.
Proof.
  induction t as [|a t IH]; [reflexivity|].
  rewrite append_cons. cbn [VariablePicker.starts_with].
  rewrite Ascii.eqb_refl. exact IH.
Qed.

Lemma includes_text_inside (before t after : string) :
  VariablePicker.includes_text t (before +:+ t +:+ after) = true.
Proof.
  induction before as [|a before IH].
  - change (EmptyString +:+ t +:+ after) with (t +:+ after).
    destruct (t +:+ after) eqn:E; cbn [VariablePicker.includes_text];
      rewrite <- E, starts_with_self_prefix; reflexivity.
  - rewrite append_cons. cbn [VariablePicker.includes_text]. rewrite IH. apply orb_true_r.
Qed.

Lemma toLowerCase_append (a b : string) :
  VariablePicker.toLowerCase (a +:+ b) =
  VariablePicker.toLowerCase a +:+ VariablePicker.toLowerCase b.
Proof.
  induction a as [|c a IH]; [reflexivity|].
  rewrite append_cons. cbn [VariablePicker.toLowerCase]. rewrite IH. reflexivity.
Qed.

(** X20. The search box of the picker.  An empty search lists every entry;
    any search lists a part of the entries, in their order; an entry whose
    name contains the search text, whatever the case of either, is listed,
    and the case of the search text never matters; after a click the search
    is cleared, so that every entry is listed again. *)
Theorem filteredVariables_narrows (variables : list VariablePicker.VariableInfo)
    (search choice : string) (st : VariablePicker.PickerState) :
  VariablePicker.filteredVariables variables EmptyString = variables ∧
  sublist (VariablePicker.filteredVariables variables search) variables ∧
  VariablePicker.filteredVariables variables (VariablePicker.toLowerCase search) =
    VariablePicker.filteredVariables variables search ∧
  (forall info before after,
     In info variables ->
     VariablePicker.toLowerCase (VariablePicker.name info) =
       (before +:+ VariablePicker.toLowerCase search +:+ after)%string ->
     In info (VariablePicker.filteredVariables variables search)) ∧
  VariablePicker.filteredVariables variables
    (VariablePicker.search (snd (VariablePicker.handleSelect choice st))) = variables.
Proof.
  split; [reflexivity|]. split; [|split; [|split; [|reflexivity]]].
  - unfold VariablePicker.filteredVariables. destruct search as [|c r]; [reflexivity|].
    generalize (VariablePicker.toLowerCase (String c r)). intros lower.
    induction variables as [|info rest IH]; [constructor|].
    cbn [List.filter]. destruct (_ || _); [apply sublist_skip|apply sublist_cons]; exact IH.
  - unfold VariablePicker.filteredVariables. destruct search as [|c r]; [reflexivity|].
    cbn [VariablePicker.toLowerCase]. rewrite lower_char_idempotent, toLowerCase_idempotent.
    reflexivity.
  - intros info before after Hin Hname.
    unfold VariablePicker.filteredVariables. destruct search as [|c r]; [exact Hin|].
    apply filter_In. split; [exact Hin|].
    rewrite Hname, includes_text_inside. reflexivity.
Qed.

Lemma filteredVariables_narrows_witness :
  In (VariablePicker.mkInfo "datetime" "System" "string")
     (VariablePicker.filteredVariables VariablePicker.system_entries "DATE").
Proof.
  refine (proj1 (proj2 (proj2 (proj2
            (filteredVariables_narrows VariablePicker.system_entries "DATE" EmptyString
               (VariablePicker.mkPicker true "DATE")))))
            (VariablePicker.mkInfo "datetime" "System" "string")
            EmptyString "time"%string _ _).
  - right. right. right. left. reflexivity.
  - reflexivity.
Defined.

(** Every entry the loop pushes is pushed for one of the nodes. *)
Lemma pushed_by_node (nodes : list VariablePicker.Node)
    (entries : list VariablePicker.VariableInfo) (info : VariablePicker.VariableInfo) :
  VariablePicker.pushed_by nodes = Some entries ->
  In info entries ->
  exists node pushed,
    In node nodes ∧ VariablePicker.node_entries node = Some pushed ∧ In info pushed.
Proof.
  revert entries. induction nodes as [|node rest IH]; intros entries Hrun Hin.
  - injection Hrun as <-. destruct Hin.
  - cbn [VariablePicker.pushed_by] in Hrun.
    destruct (VariablePicker.node_entries node) as [pushed|] eqn:Hnode; [|discriminate].
    destruct (VariablePicker.pushed_by rest) as [more|]; [|discriminate].
    injection Hrun as <-. apply in_app_or in Hin. destruct Hin as [Hin|Hin].
    + exists node, pushed. split; [left; reflexivity|]. split; [exact Hnode|exact Hin].
    + destruct (IH more eq_refl Hin) as (node' & pushed' & Hin' & Hnode' & Hinfo).
      exists node', pushed'. split; [right; exact Hin'|]. split; assumption.
Qed.

(** The loop returns when every name it converts does. *)
Lemma pushed_by_returns (nodes : list VariablePicker.Node) :
  Forall (fun node =>
            let data := VariablePicker.node_data node in
            converts (VariablePicker.data_get data "variableName") = true ∧
            converts (VariablePicker.data_get data "outputVariable") = true) nodes ->
  is_Some (VariablePicker.pushed_by nodes).
Proof.
  induction 1 as [|node rest [Hvar Hout] _ [more IH]]; [eexists; reflexivity|].
  cbn [VariablePicker.pushed_by]. unfold VariablePicker.node_entries, callString.
  rewrite Hvar, Hout, IH.
  destruct (_ && _); destruct (ToBoolean _); eexists; reflexivity.
Qed.

(** The loop throws at a node whose output variable does not convert. *)
Lemma pushed_by_throws (nodes : list VariablePicker.Node) (node : VariablePicker.Node) :
  In node nodes ->
  ToBoolean (VariablePicker.data_get (VariablePicker.node_data node) "outputVariable") = true ->
  converts (VariablePicker.data_get (VariablePicker.node_data node) "outputVariable") = false ->
  VariablePicker.pushed_by nodes = None.
Proof.
  intros Hin Htruthy Hthrows. induction nodes as [|first rest IH]; [destruct Hin|].
  cbn [VariablePicker.pushed_by]. destruct Hin as [->|Hin].
  - unfold VariablePicker.node_entries, callString. rewrite Htruthy, Hthrows.
    destruct (_ && _); [destruct (converts (VariablePicker.data_get _ "variableName"))|];
      reflexivity.
  - rewrite (IH Hin). destruct (VariablePicker.node_entries first); reflexivity.
Qed.

(** X21. The entries of the picker.  The hook returns when [String] does of
    every variable name and output variable of the nodes, and throws when an
    output variable that is set does not convert.  When it returns, the list
    starts with the four system variables whatever the nodes are, and of all
    entries only those of a [getQuote], [getDepth] or [openPosition] node
    with an output variable have common paths: the paths kept for type
    [order] are never offered. *)
Theorem picker_entries (nodes : list VariablePicker.Node) :
  map VariablePicker.name VariablePicker.system_entries =
    ["timestamp"; "date"; "time"; "datetime"]%string ∧
  (Forall (fun node =>
             let data := VariablePicker.node_data node in
             converts (VariablePicker.data_get data "variableName") = true ∧
             converts (VariablePicker.data_get data "outputVariable") = true) nodes ->
   is_Some (VariablePicker.useWorkflowVariables nodes)) ∧
  (forall node,
     In node nodes ->
     let output := VariablePicker.data_get (VariablePicker.node_data node) "outputVariable" in
     ToBoolean output = true -> converts output = false ->
     VariablePicker.useWorkflowVariables nodes = None) ∧
  (forall entries,
     VariablePicker.useWorkflowVariables nodes = Some entries ->
     firstn 4 entries = VariablePicker.system_entries ∧
     forall info, In info entries ->
       VariablePicker.offered_paths info ≠ [] ->
       In (VariablePicker.type info) ["quote"; "depth"; "position"]%string ∧
       exists node,
         In node nodes ∧
         In (VariablePicker.node_type node)
            [Some "getQuote"; Some "getDepth"; Some "openPosition"]%string ∧
         callString (VariablePicker.data_get (VariablePicker.node_data node) "outputVariable") =
           Some (VariablePicker.name info)).
Proof.
  split; [reflexivity|]. split; [|split].
  { intros Hnames. unfold VariablePicker.useWorkflowVariables.
    destruct (pushed_by_returns nodes Hnames) as [pushed ->]. eexists; reflexivity. }
  { intros node Hin output Htruthy Hthrows. unfold VariablePicker.useWorkflowVariables.
    rewrite (pushed_by_throws nodes node Hin Htruthy Hthrows). reflexivity. }
  intros entries Hrun. unfold VariablePicker.useWorkflowVariables in Hrun.
  destruct (VariablePicker.pushed_by nodes) as [pushed|] eqn:Hpushed; [|discriminate].
  injection Hrun as <-. split; [reflexivity|].
  intros info Hin Hpaths.
  change (In info (VariablePicker.system_entries ++ pushed)) in Hin.
  apply in_app_or in Hin. destruct Hin as [Hsys|Hnode].
  - exfalso. apply Hpaths. simpl in Hsys.
    repeat (destruct Hsys as [<-|Hsys]; [reflexivity|]). destruct Hsys.
  - destruct (pushed_by_node nodes pushed info Hpushed Hnode)
      as (node & made & Hnodes & Hmade & Hentry).
    unfold VariablePicker.node_entries in Hmade.
    set (data := VariablePicker.node_data node) in *.
    destruct (if _ && _ then _ else _) as [variable|] eqn:Hvariable; [|discriminate].
    assert (Hplain : forall entry, In entry variable -> VariablePicker.offered_paths entry = []).
    { intros entry Hentry'. destruct (_ && _); [|injection Hvariable as <-; destruct Hentry'].
      destruct (callString (VariablePicker.data_get data "variableName")); [|discriminate].
      injection Hvariable as <-. destruct Hentry' as [<-|[]].
      unfold VariablePicker.offered_paths. cbn [VariablePicker.type].
      destruct (VariablePicker.data_get _ "value"); reflexivity. }
    destruct (ToBoolean (VariablePicker.data_get data "outputVariable"));
      [|injection Hmade as <-; exfalso; apply Hpaths, Hplain, Hentry].
    destruct (callString (VariablePicker.data_get data "outputVariable")) as [text|] eqn:Htext;
      [|discriminate].
    injection Hmade as <-. apply in_app_or in Hentry.
    destruct Hentry as [Hvar|Hout]; [exfalso; apply Hpaths, Hplain, Hvar|].
    destruct Hout as [<-|[]].
    unfold VariablePicker.offered_paths in Hpaths.
    cbn [VariablePicker.type VariablePicker.name] in *.
    assert (Htypes : forall known,
              VariablePicker.type_is (VariablePicker.node_type node) known = true ->
              VariablePicker.node_type node = Some known).
    { intros known. unfold VariablePicker.type_is.
      destruct (VariablePicker.node_type node) as [t|]; [|discriminate].
      intros H. apply String.eqb_eq in H. congruence. }
    destruct (VariablePicker.type_is _ "history") eqn:Hh; [exfalso; apply Hpaths; reflexivity|].
    destruct (VariablePicker.type_is _ "openPosition") eqn:Hp.
    { split; [simpl; tauto|]. exists node. rewrite (Htypes _ Hp).
      repeat split; [exact Hnodes|simpl; tauto|exact Htext]. }
    destruct (VariablePicker.type_is _ "getDepth") eqn:Hd.
    { split; [simpl; tauto|]. exists node. rewrite (Htypes _ Hd).
      repeat split; [exact Hnodes|simpl; tauto|exact Htext]. }
    destruct (VariablePicker.type_is _ "getQuote") eqn:Hq.
    { split; [simpl; tauto|]. exists node. rewrite (Htypes _ Hq).
      repeat split; [exact Hnodes|simpl; tauto|exact Htext]. }
    exfalso. apply Hpaths. reflexivity.
Qed.

Lemma picker_entries_witness :
  let node := VariablePicker.mkNode (Some "getQuote")
                (Some [("outputVariable", VStr "quote")])%string in
  let broken := VariablePicker.mkNode (Some "getQuote")
                  (Some [("outputVariable", VObj [("toString", VNum 1)])])%string in
  is_Some (VariablePicker.useWorkflowVariables [node]) ∧
  VariablePicker.useWorkflowVariables [node; broken] = None ∧
  In (VariablePicker.type (VariablePicker.mkInfo "quote" "getQuote" "quote"))
     ["quote"; "depth"; "position"]%string.
Proof.
  intros node broken.
  pose proof (picker_entries [node]) as (_ & Hreturns & _ & Hentries).
  pose proof (picker_entries [node; broken]) as (_ & _ & Hthrows & _).
  split; [|split].
  - apply Hreturns. repeat constructor.
  - apply (Hthrows broken); [right; left; reflexivity|reflexivity|reflexivity].
  - refine (proj1 (proj2 (Hentries _ eq_refl) _ _ _)).
    + right. right. right. right. left. reflexivity.
    + discriminate.
Defined.

(** ** The market data stream *)

Import WebSocketService Streaming.

(** Two services with the same fields are the same. *)
Lemma service_eq (s s' : Service) :
  ws s = ws s' -> wsUrl s = wsUrl s' -> subscriptions s = subscriptions s' ->
  reconnectAttempts s = reconnectAttempts s' -> isConnecting s = isConnecting s' ->
  messageQueue s = messageQueue s' -> onConnectHandlers s = onConnectHandlers s' ->
  onDisconnectHandlers s = onDisconnectHandlers s' ->
  onErrorHandlers s = onErrorHandlers s' -> effects s = effects s' ->
  s = s'.
Proof. destruct s, s'. cbn. congruence. Qed.

(** Reads the fields of a service through the updates made to it. *)
Ltac fields :=
  cbn [ws wsUrl subscriptions reconnectAttempts isConnecting messageQueue
       onConnectHandlers onDisconnectHandlers onErrorHandlers effects
       set_ws set_wsUrl set_subscriptions set_reconnectAttempts set_isConnecting
       set_messageQueue set_onConnectHandlers set_onDisconnectHandlers
       set_onErrorHandlers emit emit_all].

Ltac same_service :=
  apply service_eq; fields; rewrite ?app_nil_r, <- ?app_assoc; reflexivity.

(** *** The queue *)

Lemma flush_open (fuel : nat) (s : Service) :
  isConnected s = true ->
  length (messageQueue s) <= fuel ->
  flush fuel s =
  Some (set_messageQueue [] (emit_all (sent (List.filter ToBoolean (messageQueue s))) s)).
Proof.
  revert s. induction fuel as [|fuel IH]; intros s Hopen Hlen.
  - destruct s as [w u subs n c q h1 h2 h3 es]. cbn in Hlen.
    destruct q; [|cbn in Hlen; lia].
    cbn. unfold set_messageQueue, emit_all. cbn. rewrite app_nil_r. reflexivity.
  - destruct s as [[[]|] u subs n c q h1 h2 h3 es]; try discriminate. cbn in Hlen.
    destruct q as [|m q].
    { cbn. unfold set_messageQueue, emit_all. cbn. rewrite app_nil_r. reflexivity. }
    cbn [flush messageQueue]. cbn in Hlen.
    destruct (ToBoolean m) eqn:Hm.
    + rewrite IH; [|reflexivity|cbn; lia].
      cbn [List.filter]. rewrite Hm.
      unfold set_messageQueue, emit_all, emit, sent. cbn.
      rewrite <- app_assoc. reflexivity.
    + rewrite IH; [|reflexivity|cbn; lia].
      cbn [List.filter]. rewrite Hm. reflexivity.
Qed.

Lemma send_closed (message : value) (s : Service) :
  isConnected s = false -> send message s = set_messageQueue (messageQueue s ++ [message]) s.
Proof. intros H. unfold send. rewrite H. reflexivity. Qed.

Lemma send_open (message : value) (s : Service) :
  isConnected s = true -> send message s = emit (WsSend (frame message)) s.
Proof. intros H. unfold send. rewrite H. reflexivity. Qed.

Lemma flush_closed (fuel : nat) (s : Service) :
  isConnected s = false ->
  Exists (fun message => ToBoolean message = true) (messageQueue s) ->
  flush fuel s = None.
Proof.
  revert s. induction fuel as [|fuel IH]; intros s Hclosed Hsome.
  - destruct (messageQueue s) eqn:Hq; [inversion Hsome|].
    destruct s; cbn in *. rewrite Hq. reflexivity.
  - destruct s as [w u subs n c q h1 h2 h3 es]. cbn in Hsome.
    destruct q as [|m q]; [inversion Hsome|].
    cbn [flush messageQueue].
    destruct (ToBoolean m) eqn:Hm.
    + rewrite send_closed by exact Hclosed. apply IH; [exact Hclosed|].
      cbn. apply Exists_app. right. constructor. exact Hm.
    + apply IH; [exact Hclosed|].
      cbn. inversion Hsome as [? ? Hhead|? ? Htail]; subst; [congruence|exact Htail].
Qed.

(** *** What only writes *)

Lemma emit_all_nil (s : Service) : emit_all [] s = s.
Proof. destruct s. unfold emit_all. cbn. rewrite app_nil_r. reflexivity. Qed.

Lemma emit_all_app (es es' : list Effect) (s : Service) :
  emit_all es' (emit_all es s) = emit_all (es ++ es') s.
Proof. unfold emit_all. cbn. rewrite app_assoc. reflexivity. Qed.

Lemma emit_one (e : Effect) (s : Service) : emit e s = emit_all [e] s.
Proof. reflexivity. Qed.

Lemma passive_refl (s : Service) : passive s s.
Proof.
  exists (messageQueue s), []. rewrite emit_all_nil. destruct s. reflexivity.
Qed.

Lemma passive_trans (s1 s2 s3 : Service) : passive s1 s2 -> passive s2 s3 -> passive s1 s3.
Proof.
  intros (q & es & ->) (q' & es' & ->). exists q', (es ++ es').
  unfold set_messageQueue, emit_all. cbn. rewrite app_assoc. reflexivity.
Qed.

Lemma passive_emit (e : Effect) (s : Service) : passive s (emit e s).
Proof. exists (messageQueue s), [e]. reflexivity. Qed.

Lemma passive_send (message : value) (s : Service) : passive s (send message s).
Proof.
  unfold send. destruct (isConnected s); [apply passive_emit|].
  exists (messageQueue s ++ [message]), []. rewrite emit_all_nil. reflexivity.
Qed.

Lemma send_all_open (messages : list value) (s : Service) :
  isConnected s = true -> send_all messages s = emit_all (sent messages) s.
Proof.
  revert s. induction messages as [|m rest IH]; intros s Hopen.
  - symmetry. apply emit_all_nil.
  - unfold send_all. cbn [fold_left]. fold (send_all rest (send m s)).
    rewrite send_open by exact Hopen.
    rewrite IH by exact Hopen. rewrite emit_one, emit_all_app. reflexivity.
Qed.

Lemma send_all_closed (messages : list value) (s : Service) :
  isConnected s = false ->
  send_all messages s = set_messageQueue (messageQueue s ++ messages) s.
Proof.
  revert s. induction messages as [|m rest IH]; intros s Hclosed.
  - rewrite app_nil_r. destruct s. reflexivity.
  - unfold send_all. cbn [fold_left]. fold (send_all rest (send m s)).
    rewrite send_closed by exact Hclosed.
    rewrite IH by exact Hclosed.
    unfold set_messageQueue. cbn. rewrite <- app_assoc. reflexivity.
Qed.

Lemma resubscribeAll_sends (s : Service) :
  resubscribeAll s = send_all (regrouped (fold_left group (subscriptions s) ([], [], []))) s.
Proof.
  unfold resubscribeAll, regrouped.
  destruct (fold_left group (subscriptions s) ([], [], [])) as [[l q] d].
  destruct l, q, d; reflexivity.
Qed.

Lemma passive_send_all (messages : list value) (s : Service) :
  passive s (send_all messages s).
Proof.
  revert s. induction messages as [|m rest IH]; intros s; [apply passive_refl|].
  unfold send_all. cbn [fold_left]. fold (send_all rest (send m s)).
  eapply passive_trans; [apply passive_send|apply IH].
Qed.

Lemma passive_resubscribeAll (s : Service) : passive s (resubscribeAll s).
Proof. rewrite resubscribeAll_sends. apply passive_send_all. Qed.

Lemma passive_notify (rt : Runtime) (handlers : list ConnectionHandler) (s : Service) :
  passive s (fst (notify rt handlers s)).
Proof.
  revert s. induction handlers as [|h rest IH]; intros s; [apply passive_refl|].
  cbn [notify]. destruct (handler_throws rt h); [apply passive_emit|].
  eapply passive_trans; [apply passive_emit|apply IH].
Qed.

Lemma notify_returns (rt : Runtime) (handlers : list ConnectionHandler) (s : Service) :
  Forall (fun h => handler_throws rt h = false) handlers ->
  notify rt handlers s = (emit_all (map Handler handlers) s, true).
Proof.
  revert s. induction handlers as [|h rest IH]; intros s Hall.
  - cbn. rewrite emit_all_nil. reflexivity.
  - inversion Hall as [|? ? Hh Hrest]; subst. cbn [notify]. rewrite Hh, IH by exact Hrest.
    rewrite emit_one, emit_all_app. reflexivity.
Qed.

Lemma passive_flush (fuel : nat) (s s' : Service) : flush fuel s = Some s' -> passive s s'.
Proof.
  revert s. induction fuel as [|fuel IH]; intros s.
  - cbn. destruct (messageQueue s); [|discriminate]. intros [= <-]. apply passive_refl.
  - cbn [flush]. destruct (messageQueue s) as [|m q] eqn:Hq.
    + intros [= <-]. apply passive_refl.
    + intros H. apply IH in H. eapply passive_trans; [|exact H].
      destruct (ToBoolean m).
      * eapply passive_trans; [|apply passive_send].
        exists q, []. rewrite emit_all_nil. reflexivity.
      * exists q, []. rewrite emit_all_nil. reflexivity.
Qed.

(** *** Keys *)

Lemma key_splits (t : string) (i : Instrument) :
  no_colon t -> plain i ->
  split ":" (getSubscriptionKey t i) = [t; exchange i; symbol i].
Proof.
  intros Ht [Hex Hsym].
  change (getSubscriptionKey t i) with (join ":" [t; exchange i; symbol i]).
  apply split_join; [discriminate|]. repeat constructor; assumption.
Qed.

Lemma stream_type_no_colon (t : string) : In t stream_types -> no_colon t.
Proof.
  intros H. repeat (destruct H as [<-|H]; [reflexivity|]). destruct H.
Qed.

(** The key is one-to-one on plain instruments. *)
Lemma key_injective (t t' : string) (i i' : Instrument) :
  no_colon t -> no_colon t' -> plain i -> plain i' ->
  getSubscriptionKey t i = getSubscriptionKey t' i' -> t = t' ∧ i = i'.
Proof.
  intros Ht Ht' Hi Hi' Hkey.
  pose proof (key_splits t i Ht Hi) as Hs.
  rewrite Hkey, (key_splits t' i' Ht' Hi') in Hs.
  injection Hs as -> Hex Hsym. split; [reflexivity|].
  destruct i, i'. cbn in *. congruence.
Qed.

Lemma group_keyed (arrays : list value * list value * list value)
    (entry : string * list Subscription) :
  keyed entry ->
  Forall (fun sub => plain (instrument sub)) (snd entry) ->
  group arrays entry =
  (arrays.1.1 ++ map instrument_value (subscribed "ltp" [entry]),
   arrays.1.2 ++ map instrument_value (subscribed "quote" [entry]),
   arrays.2 ++ map instrument_value (subscribed "depth" [entry])).
Proof.
  destruct arrays as [[l q] d]. destruct entry as [key subs].
  intros [Hsome Hall] Hplain. cbn [fst snd] in *.
  destruct subs as [|sub rest]; [congruence|].
  inversion Hall as [|? ? [Htype Hkey] _]; subst.
  inversion Hplain as [|? ? Hsub _]; subst.
  unfold group. rewrite (key_splits _ _ (stream_type_no_colon _ Htype) Hsub).
  unfold subscribed. cbn [flat_map snd nth_error is_text app].
  destruct sub as [t [sym ex] cb]. cbn [type instrument symbol exchange] in *.
  repeat (destruct Htype as [<-|Htype]; [cbn; rewrite ?app_nil_r; reflexivity|]).
  destruct Htype.
Qed.

Lemma subscribed_cons (t : string) (entry : string * list Subscription)
    (m : list (string * list Subscription)) :
  subscribed t (entry :: m) = subscribed t [entry] ++ subscribed t m.
Proof. unfold subscribed. cbn [flat_map]. rewrite app_nil_r. reflexivity. Qed.

Lemma fold_group (m : list (string * list Subscription))
    (arrays : list value * list value * list value) :
  Forall keyed m ->
  Forall (fun entry => Forall (fun sub => plain (instrument sub)) (snd entry)) m ->
  fold_left group m arrays =
  (arrays.1.1 ++ map instrument_value (subscribed "ltp" m),
   arrays.1.2 ++ map instrument_value (subscribed "quote" m),
   arrays.2 ++ map instrument_value (subscribed "depth" m)).
Proof.
  revert arrays. induction m as [|entry m IH]; intros arrays Hkeyed Hplain.
  - destruct arrays as [[l q] d]. cbn. rewrite !app_nil_r. reflexivity.
  - inversion Hkeyed; subst. inversion Hplain; subst.
    cbn [fold_left]. rewrite group_keyed, IH by assumption. cbn [fst snd].
    rewrite !(subscribed_cons _ entry m), !map_app, !app_assoc. reflexivity.
Qed.

Lemma regrouped_requests (m : list (string * list Subscription)) :
  regrouped (map instrument_value (subscribed "ltp" m),
             map instrument_value (subscribed "quote" m),
             map instrument_value (subscribed "depth" m)) = requests m.
Proof.
  unfold regrouped, requests, stream_types. cbn [flat_map].
  destruct (subscribed "ltp" m), (subscribed "quote" m), (subscribed "depth" m);
    reflexivity.
Qed.

(** X22. Subscribing again.  When the socket is open, [resubscribeAll]
    writes one request for each of the types [ltp], [quote], [depth] that
    has subscriptions, listing the instruments of that type in the order
    their keys entered the map, and changes nothing else; this for
    instruments whose exchange and symbol hold no colon.  A symbol with a
    colon does not come back from its key: the request names the part before
    the colon. *)
Theorem resubscribeAll_asks_again (s : Service) (t : string) (cb : MessageHandler)
    (ex before after : string) :
  (isConnected s = true ->
   Forall keyed (subscriptions s) ->
   Forall (fun entry => Forall (fun sub => plain (instrument sub)) (snd entry))
          (subscriptions s) ->
   resubscribeAll s = emit_all (sent (requests (subscriptions s))) s) ∧
  (isConnected s = true ->
   In t stream_types -> no_colon ex -> no_colon before ->
   let i := mkInstrument (before +:+ ":" +:+ after) ex in
   let one := set_subscriptions [(getSubscriptionKey t i, [mkSubscription t i cb])] s in
   resubscribeAll one =
   emit (WsSend (frame (request "subscribe" t [instrument_value (mkInstrument before ex)])))
        one).
Proof.
  split.
  - intros Hopen Hkeyed Hplain.
    rewrite resubscribeAll_sends, fold_group by assumption. cbn [fst snd app].
    rewrite regrouped_requests. apply send_all_open, Hopen.
  - intros Hopen Ht Hex Hbefore i one.
    assert (Hone : isConnected one = true) by exact Hopen.
    rewrite resubscribeAll_sends.
    assert (Hkey : split ":" (getSubscriptionKey t i) = t :: ex :: before :: split ":" after).
    { change (getSubscriptionKey t i)
        with (t +:+ String ":" (ex +:+ String ":" (before +:+ String ":" after))).
      rewrite !split_append by (assumption || apply stream_type_no_colon, Ht).
      reflexivity. }
    subst one. cbn [subscriptions set_subscriptions fold_left group].
    rewrite Hkey. cbn [nth_error is_text].
    unfold stream_types in Ht.
    repeat (destruct Ht as [<-|Ht];
            [cbn [String.eqb Ascii.eqb Bool.eqb regrouped app];
             rewrite send_all_open by exact Hone; reflexivity|]).
    destruct Ht.
Qed.

Lemma resubscribeAll_asks_again_witness :
  let s := set_ws (Some OPEN) (subscribeQuote [mkInstrument "NIFTY" "NSE"] 7%nat wsService) in
  resubscribeAll s =
  emit_all (sent [request "subscribe" "quote" [instrument_value (mkInstrument "NIFTY" "NSE")]])
           s.
Proof.
  intros s.
  apply (proj1 (resubscribeAll_asks_again s "ltp" 0%nat EmptyString EmptyString EmptyString)).
  - reflexivity.
  - repeat constructor; cbn; (discriminate || tauto).
  - repeat constructor.
Defined.

(** *** The queue and the open event *)

Lemma notify_writes (rt : Runtime) (handlers : list ConnectionHandler) (s : Service) :
  exists es, fst (notify rt handlers s) = emit_all es s.
Proof.
  revert s. induction handlers as [|h rest IH]; intros s.
  - exists []. symmetry. apply emit_all_nil.
  - cbn [notify]. destruct (handler_throws rt h); [exists [Handler h]; reflexivity|].
    destruct (IH (emit (Handler h) s)) as [es Hes]. exists (Handler h :: es).
    rewrite Hes, emit_one, emit_all_app. reflexivity.
Qed.

Lemma resubscribeAll_writes (s : Service) :
  isConnected s = true -> exists es, resubscribeAll s = emit_all es s.
Proof.
  intros Hopen. rewrite resubscribeAll_sends, send_all_open by exact Hopen. eauto.
Qed.

Lemma filter_truthy (messages : list value) :
  Forall (fun message => ToBoolean message = true) messages ->
  List.filter ToBoolean messages = messages.
Proof.
  induction 1 as [|m rest Hm _ IH]; [reflexivity|]. cbn. rewrite Hm, IH. reflexivity.
Qed.

Lemma onopen_open (rt : Runtime) (url : string) (fuel : nat) (s : Service) :
  isConnected s = true ->
  length (messageQueue s) <= fuel ->
  exists rest,
    onopen rt url fuel s =
    Some (set_messageQueue []
            (set_reconnectAttempts 0
               (set_isConnecting false
                  (emit_all (ConsoleLog "[WebSocket] Connected to" [VStr url]
                             :: sent (List.filter ToBoolean (messageQueue s)) ++ rest) s)))).
Proof.
  intros Hopen Hlen. unfold onopen.
  rewrite flush_open by (exact Hopen || exact Hlen).
  set (s2 := set_messageQueue [] _).
  destruct (resubscribeAll_writes s2 Hopen) as [es Hes]. rewrite Hes.
  destruct (notify_writes rt (onConnectHandlers (emit_all es s2)) (emit_all es s2))
    as [es' Hes'].
  destruct (notify rt _ (emit_all es s2)) as [s4 returned]. cbn [fst] in Hes'. subst s4.
  exists (es ++ es' ++ if returned then [Resolve] else []).
  f_equal. subst s2. destruct returned; same_service.
Qed.

(** X23. The queue.  What is sent while the socket is not open waits in
    the queue, in order, and nothing is written.  When the socket has opened,
    [onopen] first writes the queued messages, oldest first, and leaves the
    queue empty, the reconnection count at zero and the subscriptions as they
    were.  Were [onopen] to run while the socket is not open, with a message
    in the queue, its loop would take the message off the queue and put it
    back for ever. *)
Theorem queue_is_flushed_on_open (rt : Runtime) (url : string) (fuel : nat)
    (messages : list value) (s : Service) :
  isConnected s = false ->
  Forall (fun message => ToBoolean message = true) (messageQueue s ++ messages) ->
  let queued := fold_left (fun s' message => send message s') messages s in
  messageQueue queued = messageQueue s ++ messages ∧
  effects queued = effects s ∧
  (length (messageQueue queued) <= fuel ->
   exists s' rest,
     onopen rt url fuel (set_ws (Some OPEN) queued) = Some s' ∧
     effects s' = effects s ++ ConsoleLog "[WebSocket] Connected to" [VStr url]
                               :: sent (messageQueue s ++ messages) ++ rest ∧
     messageQueue s' = [] ∧ reconnectAttempts s' = 0%Z ∧ isConnecting s' = false ∧
     subscriptions s' = subscriptions s) ∧
  (messageQueue queued ≠ [] -> onopen rt url fuel queued = None).
Proof.
  intros Hclosed Htruthy queued.
  assert (Hqueued : queued = set_messageQueue (messageQueue s ++ messages) s)
    by (apply send_all_closed, Hclosed).
  rewrite Hqueued. cbn [messageQueue effects set_messageQueue].
  split; [reflexivity|]. split; [reflexivity|]. split.
  - intros Hlen.
    destruct (onopen_open rt url fuel
                (set_ws (Some OPEN) (set_messageQueue (messageQueue s ++ messages) s))
                eq_refl Hlen) as [rest Hrest].
    eexists. exists rest. split; [exact Hrest|].
    cbn. rewrite (filter_truthy _ Htruthy). repeat split.
  - intros Hsome. unfold onopen. rewrite flush_closed; [reflexivity|exact Hclosed|].
    cbn. destruct (messageQueue s ++ messages) as [|m rest]; [congruence|].
    inversion Htruthy; subst. constructor. assumption.
Qed.

Lemma queue_is_flushed_on_open_witness :
  let order := request "subscribe" "ltp" [instrument_value (mkInstrument "NIFTY" "NSE")] in
  let s := set_ws (Some CONNECTING) wsService in
  messageQueue (send order s) = [order] ∧
  onopen (mkRuntime (fun _ => None) (fun _ => true) (fun _ => false) (fun _ _ => false))
    "ws://127.0.0.1:8765" 0 (send order s) = None.
Proof.
  intros order s.
  pose proof (queue_is_flushed_on_open
                (mkRuntime (fun _ => None) (fun _ => true) (fun _ => false) (fun _ _ => false))
                "ws://127.0.0.1:8765" 0 [order] s eq_refl
                ltac:(repeat constructor)) as (Hqueue & _ & _ & Hloop).
  split; [exact Hqueue|]. apply Hloop. discriminate.
Defined.

(** *** The map of subscriptions *)

Section MapFacts.

Context {A : Type}.
Implicit Types (m : list (string * A)) (key : string) (x : A).

Lemma map_get_set_eq m key x : map_get key (map_set key x m) = Some x.
Proof.
  induction m as [|[k y] rest IH]; cbn.
  - rewrite String.eqb_refl. reflexivity.
  - destruct (String.eqb k key) eqn:Hk; cbn; rewrite Hk; [reflexivity|exact IH].
Qed.

Lemma map_get_set_ne m key other x :
  key ≠ other -> map_get other (map_set key x m) = map_get other m.
Proof.
  intros Hne. induction m as [|[k y] rest IH]; cbn.
  - destruct (String.eqb_spec key other); [congruence|reflexivity].
  - destruct (String.eqb_spec k key) as [->|Hk]; cbn.
    + destruct (String.eqb_spec key other); [congruence|reflexivity].
    + rewrite IH. reflexivity.
Qed.

Lemma map_get_none m key : map_get key m = None <-> ~ In key (map fst m).
Proof.
  induction m as [|[k y] rest IH]; cbn; [tauto|].
  destruct (String.eqb_spec k key) as [->|Hk].
  - split; [discriminate|]. intros H. exfalso. apply H. left. reflexivity.
  - rewrite IH. split; [intros H [?|?]; [congruence|tauto]|tauto].
Qed.

Lemma map_set_absent m key x : map_get key m = None -> map_set key x m = m ++ [(key, x)].
Proof.
  induction m as [|[k y] rest IH]; cbn; [reflexivity|].
  destruct (String.eqb k key); [discriminate|]. intros H. rewrite (IH H). reflexivity.
Qed.

Lemma map_set_keys m key x :
  map fst (map_set key x m) =
  match map_get key m with
  | Some _ => map fst m
  | None => map fst m ++ [key]
  end.
Proof.
  induction m as [|[k y] rest IH]; cbn; [reflexivity|].
  destruct (String.eqb k key); cbn; [reflexivity|].
  rewrite IH. destruct (map_get key rest); reflexivity.
Qed.

Lemma map_set_entries m key x (P : string * A -> Prop) :
  Forall P m -> P (key, x) -> Forall P (map_set key x m).
Proof.
  intros Hall Hnew. induction Hall as [|[k y] rest Hk Hrest IH]; cbn.
  - repeat constructor. exact Hnew.
  - destruct (String.eqb_spec k key) as [->|_]; constructor; assumption.
Qed.

Lemma map_get_delete_eq m key : map_get key (map_delete key m) = None.
Proof.
  unfold map_delete. induction m as [|[k y] rest IH]; cbn; [reflexivity|].
  destruct (String.eqb k key) eqn:Hk; cbn; [exact IH|]. rewrite Hk. exact IH.
Qed.

Lemma map_get_delete_ne m key other :
  key ≠ other -> map_get other (map_delete key m) = map_get other m.
Proof.
  intros Hne. unfold map_delete. induction m as [|[k y] rest IH]; cbn; [reflexivity|].
  destruct (String.eqb_spec k key) as [->|Hk]; cbn.
  - destruct (String.eqb_spec key other); [congruence|exact IH].
  - rewrite IH. reflexivity.
Qed.

Lemma map_get_in m key x : map_get key m = Some x -> In (key, x) m.
Proof.
  induction m as [|[k y] rest IH]; cbn; [discriminate|].
  destruct (String.eqb_spec k key) as [->|_]; [intros [= ->]; tauto|].
  intros H. right. apply IH, H.
Qed.

End MapFacts.

(** *** Subscribing, unsubscribing and the messages that arrive *)

Lemma subscribe_method (t : string)
    (subscribe : list Instrument -> MessageHandler -> Service -> Service) :
  In (t, subscribe) subscribe_methods ->
  In t stream_types ∧
  forall instruments cb s,
    subscribe instruments cb s =
    send (request "subscribe" t (map instrument_value instruments))
         (fold_left (fun s' i => addSubscription t i cb s') instruments s).
Proof.
  intros H. cbn in H.
  repeat (destruct H as [[= <- <-]|H]; [split; [cbn; tauto|reflexivity]|]). destruct H.
Qed.

Lemma unsubscribe_method (t : string)
    (unsubscribe : list Instrument -> Service -> Service) :
  In (t, unsubscribe) unsubscribe_methods ->
  In t stream_types ∧
  forall instruments s,
    unsubscribe instruments s =
    send (request "unsubscribe" t (map instrument_value instruments))
         (fold_left (fun s' i => removeSubscription t i s') instruments s).
Proof.
  intros H. cbn in H.
  repeat (destruct H as [[= <- <-]|H]; [split; [cbn; tauto|reflexivity]|]). destruct H.
Qed.

Lemma add_all (t : string) (cb : MessageHandler) (instruments : list Instrument)
    (s : Service) :
  fold_left (fun s' i => addSubscription t i cb s') instruments s =
  set_subscriptions (fold_left (with_subscription t cb) instruments (subscriptions s)) s.
Proof.
  revert s. induction instruments as [|i rest IH]; intros s; [destruct s; reflexivity|].
  cbn [fold_left]. rewrite IH. reflexivity.
Qed.

Lemma remove_all (t : string) (instruments : list Instrument) (s : Service) :
  fold_left (fun s' i => removeSubscription t i s') instruments s =
  set_subscriptions
    (fold_left (fun m i => map_delete (getSubscriptionKey t i) m) instruments
       (subscriptions s)) s.
Proof.
  revert s. induction instruments as [|i rest IH]; intros s; [destruct s; reflexivity|].
  cbn [fold_left]. rewrite IH. reflexivity.
Qed.

Lemma add_fresh (t : string) (cb : MessageHandler) (instruments : list Instrument)
    (m : list (string * list Subscription)) :
  List.NoDup (map (getSubscriptionKey t) instruments) ->
  (forall i, In i instruments -> map_get (getSubscriptionKey t i) m = None) ->
  fold_left (with_subscription t cb) instruments m =
  m ++ map (fun i => (getSubscriptionKey t i, [mkSubscription t i cb])) instruments.
Proof.
  revert m. induction instruments as [|i rest IH]; intros m Hnodup Hfresh.
  - cbn. rewrite app_nil_r. reflexivity.
  - cbn [fold_left map]. inversion Hnodup as [|? ? Hi Hrest]; subst.
    unfold with_subscription at 2. rewrite (Hfresh i) by (left; reflexivity).
    rewrite map_set_absent by (apply Hfresh; left; reflexivity).
    rewrite IH; [rewrite <- app_assoc; reflexivity|exact Hrest|].
    intros j Hj. apply map_get_none. rewrite map_app, in_app_iff. cbn.
    intros [Hin|[Heq|[]]].
    + apply (proj1 (map_get_none m _) (Hfresh j (or_intror Hj))), Hin.
    + apply Hi. rewrite Heq. apply in_map, Hj.
Qed.

Lemma removed_keys (t : string) (instruments : list Instrument)
    (m : list (string * list Subscription)) (key : string) :
  (In key (map (getSubscriptionKey t) instruments) ∨ map_get key m = None ->
   map_get key
     (fold_left (fun m' i => map_delete (getSubscriptionKey t i) m') instruments m) = None) ∧
  (~ In key (map (getSubscriptionKey t) instruments) ->
   map_get key
     (fold_left (fun m' i => map_delete (getSubscriptionKey t i) m') instruments m) =
   map_get key m).
Proof.
  revert m. induction instruments as [|i rest IH]; intros m.
  - cbn. split; [intros [[]|H]; exact H|reflexivity].
  - cbn [fold_left map]. destruct (IH (map_delete (getSubscriptionKey t i) m)) as [Hin Hout].
    destruct (String.eqb_spec (getSubscriptionKey t i) key) as [<-|Hne].
    + split; [|intros H; exfalso; apply H; left; reflexivity].
      intros _. apply Hin. right. apply map_get_delete_eq.
    + split.
      * intros [[?|Hrest]|Hnone]; [congruence|apply Hin; left; exact Hrest|].
        apply Hin. right. rewrite map_get_delete_ne by exact Hne. exact Hnone.
      * intros H. rewrite Hout by (intros ?; apply H; right; assumption).
        apply map_get_delete_ne, Hne.
Qed.

Lemma calls_app (es es' : list Effect) : calls (es ++ es') = calls es ++ calls es'.
Proof. unfold calls. apply flat_map_app. Qed.

Lemma calls_passive (s s' : Service) :
  passive s s' ->
  exists es, effects s' = effects s ++ es ∧ subscriptions s' = subscriptions s.
Proof. intros (q & es & ->). exists es. split; reflexivity. Qed.

Lemma calls_send (message : value) (s : Service) :
  calls (effects (send message s)) = calls (effects s).
Proof.
  unfold send. destruct (isConnected s); [|reflexivity].
  cbn. rewrite calls_app. cbn. apply app_nil_r.
Qed.

Lemma deliver_calls (rt : Runtime) (update : value) (subs : list Subscription)
    (s : Service) :
  calls (effects (deliver rt update subs s)) =
    calls (effects s) ++ map (fun sub => (callback sub, update)) subs ∧
  subscriptions (deliver rt update subs s) = subscriptions s.
Proof.
  revert s. induction subs as [|sub rest IH]; intros s.
  - cbn. rewrite app_nil_r. split; reflexivity.
  - change (deliver rt update (sub :: rest) s)
      with (deliver rt update rest
              (if callback_throws rt (callback sub) update
               then emit (ConsoleError "[WebSocket] Callback error:")
                      (emit (Callback (callback sub) update) s)
               else emit (Callback (callback sub) update) s)).
    destruct (IH (if callback_throws rt (callback sub) update
                  then emit (ConsoleError "[WebSocket] Callback error:")
                         (emit (Callback (callback sub) update) s)
                  else emit (Callback (callback sub) update) s)) as [Hc Hs].
    rewrite Hc, Hs.
    destruct (callback_throws rt (callback sub) update); fields;
      rewrite !calls_app; cbn [calls flat_map app map];
      rewrite ?app_nil_r, <- ?app_assoc; split; reflexivity.
Qed.

Lemma handleMessage_delivers (rt : Runtime) (now : float) (fields : list (string * value))
    (t : string) (i : Instrument) (s : Service) :
  In t stream_types ->
  symbol i ≠ EmptyString -> exchange i ≠ EmptyString ->
  own_property "type" fields = VStr t ->
  own_property "symbol" fields = VStr (symbol i) ->
  own_property "exchange" fields = VStr (exchange i) ->
  handleMessage rt now (VObj fields) s =
  Some (match map_get (getSubscriptionKey t i) (subscriptions s) with
        | Some subs => deliver rt (update_for t i fields now) subs s
        | None => s
        end).
Proof.
  intros Ht Hsym Hex Htype Hsymbol Hexchange.
  unfold handleMessage. cbn [get_property]. rewrite Htype, Hsymbol, Hexchange.
  assert (Htruthy : forall text, text ≠ EmptyString -> ToBoolean (VStr text) = true)
    by (intros [|? ?]; [congruence|reflexivity]).
  rewrite (Htruthy (symbol i) Hsym), (Htruthy (exchange i) Hex).
  assert (Ht' : ToBoolean (VStr t) = true).
  { cbn in Ht. repeat (destruct Ht as [<-|Ht]; [reflexivity|]). destruct Ht. }
  rewrite Ht'. cbn [negb orb ToString callString converts].
  replace (mkInstrument (symbol i) (exchange i)) with i by (destruct i; reflexivity).
  destruct (map_get _ (subscriptions s)) as [subs|]; [|reflexivity].
  f_equal. unfold deliver, update_for. cbn in Ht.
  repeat (destruct Ht as [<-|Ht]; [reflexivity|]). destruct Ht.
Qed.

(** X24. From a subscription to the callback.  After [subscribeLTP],
    [subscribeQuote] or [subscribeDepth] for one instrument, a message of
    that type about that instrument calls every callback subscribed to the
    instrument before, in the order they subscribed, and then the new one,
    each with the same update: the type, symbol and exchange of the message
    and its [ltp] (or [data]) with the time of arrival.  A callback that
    throws does not keep the others from being called.  Subscribing itself
    calls nobody and leaves the subscriptions under every other key as they
    are, and the message changes no subscription. *)
Theorem message_reaches_subscribers (rt : Runtime) (now : float) (text : string)
    (fields : list (string * value)) (t : string)
    (subscribe : list Instrument -> MessageHandler -> Service -> Service)
    (i : Instrument) (cb : MessageHandler) (s : Service) :
  In (t, subscribe) subscribe_methods ->
  symbol i ≠ EmptyString -> exchange i ≠ EmptyString ->
  JSON_parse rt text = Some (VObj fields) ->
  own_property "type" fields = VStr t ->
  own_property "symbol" fields = VStr (symbol i) ->
  own_property "exchange" fields = VStr (exchange i) ->
  let update := update_for t i fields now in
  let subscribed := subscribe [i] cb s in
  let received := onmessage rt now text subscribed in
  calls (effects subscribed) = calls (effects s) ∧
  calls (effects received) =
    calls (effects s)
    ++ map (fun sub => (callback sub, update)) (subscribers (getSubscriptionKey t i) s)
    ++ [(cb, update)] ∧
  subscriptions received = subscriptions subscribed ∧
  (forall key, getSubscriptionKey t i ≠ key -> subscribers key subscribed = subscribers key s).
Proof.
  intros Hmethod Hsym Hex Hparse Htype Hsymbol Hexchange update subscribed received.
  destruct (subscribe_method t subscribe Hmethod) as [Ht Hrun].
  assert (Hsubs : subscriptions subscribed =
                  with_subscription t cb (subscriptions s) i).
  { subst subscribed. rewrite Hrun, add_all.
    destruct (calls_passive _ _ (passive_send
      (request "subscribe" t (map instrument_value [i]))
      (set_subscriptions (fold_left (with_subscription t cb) [i] (subscriptions s)) s)))
      as (es & _ & ->). reflexivity. }
  assert (Hcalls : calls (effects subscribed) = calls (effects s)).
  { subst subscribed. rewrite Hrun, add_all, calls_send. reflexivity. }
  split; [exact Hcalls|].
  subst received. unfold onmessage. rewrite Hparse.
  rewrite (handleMessage_delivers rt now fields t i subscribed) by assumption.
  assert (Hget : map_get (getSubscriptionKey t i) (subscriptions subscribed) =
                 Some (subscribers (getSubscriptionKey t i) s ++ [mkSubscription t i cb])).
  { rewrite Hsubs. apply map_get_set_eq. }
  rewrite Hget. fold update.
  destruct (deliver_calls rt update
              (subscribers (getSubscriptionKey t i) s ++ [mkSubscription t i cb]) subscribed)
    as [Hc Hs].
  split; [|split].
  - rewrite Hc, Hcalls, map_app. reflexivity.
  - exact Hs.
  - intros key Hkey. unfold subscribers. rewrite Hsubs. unfold with_subscription.
    rewrite map_get_set_ne by exact Hkey. reflexivity.
Qed.

Lemma message_reaches_subscribers_witness :
  let rt := mkRuntime
              (fun _ => Some (VObj [("type", VStr "ltp"); ("symbol", VStr "NIFTY");
                                    ("exchange", VStr "NSE"); ("ltp", VNum 24350)]%string))
              (fun _ => true) (fun _ => false) (fun _ _ => true) in
  let nifty := mkInstrument "NIFTY" "NSE" in
  let s := subscribeLTP [nifty] 1%nat wsService in
  map fst (calls (effects (onmessage rt 1700000000000 "tick" (subscribeLTP [nifty] 2%nat s)))) =
  [1%nat; 2%nat].
Proof.
  intros rt nifty s.
  pose proof (message_reaches_subscribers rt 1700000000000 "tick" _ "ltp" subscribeLTP
                nifty 2%nat s ltac:(left; reflexivity) ltac:(discriminate)
                ltac:(discriminate) eq_refl eq_refl eq_refl eq_refl) as (_ & Hcalls & _).
  rewrite Hcalls. reflexivity.
Defined.

Lemma handleMessage_calls_nobody (rt : Runtime) (now : float) (data : value)
    (key : string) (s : Service) :
  getSubscriptionKey (ToString (get_property data "type"))
    (mkInstrument (ToString (get_property data "symbol"))
                  (ToString (get_property data "exchange"))) = key ->
  map_get key (subscriptions s) = None ->
  match handleMessage rt now data s with
  | Some s' => calls (effects s') = calls (effects s) ∧ subscriptions s' = subscriptions s
  | None => True
  end.
Proof.
  intros Hkey Hnone. unfold handleMessage.
  destruct data; try exact I;
    (destruct (_ || _);
     [destruct (_ || _); [cbn; rewrite calls_app; cbn; rewrite app_nil_r|]; split; reflexivity
     |unfold callString; repeat (destruct (converts _); [|exact I]);
      rewrite Hkey, Hnone; split; reflexivity]).
Qed.

(** X25. Unsubscribing is for everyone.  [unsubscribeLTP],
    [unsubscribeQuote] and [unsubscribeDepth] remove the key of each
    instrument they are given with every callback kept under it, whoever
    subscribed them: a message about such an instrument then calls nobody.
    The other keys keep their subscriptions. *)
Theorem unsubscribe_drops_every_subscriber (rt : Runtime) (now : float) (text : string)
    (data : value) (t : string) (unsubscribe : list Instrument -> Service -> Service)
    (instruments : list Instrument) (i : Instrument) (s : Service) :
  In (t, unsubscribe) unsubscribe_methods ->
  In i instruments ->
  JSON_parse rt text = Some data ->
  get_property data "type" = VStr t ->
  get_property data "symbol" = VStr (symbol i) ->
  get_property data "exchange" = VStr (exchange i) ->
  let unsubscribed := unsubscribe instruments s in
  subscribers (getSubscriptionKey t i) unsubscribed = [] ∧
  calls (effects (onmessage rt now text unsubscribed)) = calls (effects s) ∧
  (forall key, ~ In key (map (getSubscriptionKey t) instruments) ->
     subscribers key unsubscribed = subscribers key s).
Proof.
  intros Hmethod Hin Hparse Htype Hsymbol Hexchange unsubscribed.
  destruct (unsubscribe_method t unsubscribe Hmethod) as [Ht Hrun].
  assert (Hsubs : subscriptions unsubscribed =
                  fold_left (fun m j => map_delete (getSubscriptionKey t j) m) instruments
                    (subscriptions s)).
  { subst unsubscribed. rewrite Hrun, remove_all.
    match goal with
    | |- subscriptions (send ?m ?s0) = _ =>
        destruct (calls_passive _ _ (passive_send m s0)) as (es & _ & ->)
    end. reflexivity. }
  assert (Hcalls : calls (effects unsubscribed) = calls (effects s)).
  { subst unsubscribed. rewrite Hrun, remove_all, calls_send. reflexivity. }
  assert (Hgone : map_get (getSubscriptionKey t i) (subscriptions unsubscribed) = None).
  { rewrite Hsubs. apply removed_keys. left. apply in_map, Hin. }
  split; [unfold subscribers; rewrite Hgone; reflexivity|]. split.
  - unfold onmessage. rewrite Hparse.
    pose proof (handleMessage_calls_nobody rt now data (getSubscriptionKey t i) unsubscribed)
      as Hnobody.
    rewrite Htype, Hsymbol, Hexchange in Hnobody. cbn [ToString] in Hnobody.
    replace (mkInstrument (symbol i) (exchange i)) with i in Hnobody
      by (destruct i; reflexivity).
    specialize (Hnobody eq_refl Hgone).
    destruct (handleMessage rt now data unsubscribed) as [s'|].
    + destruct Hnobody as [-> _]. exact Hcalls.
    + cbn. rewrite calls_app. cbn. rewrite app_nil_r. exact Hcalls.
  - intros key Hkey. unfold subscribers.
    rewrite Hsubs, (proj2 (removed_keys t instruments (subscriptions s) key) Hkey).
    reflexivity.
Qed.

Lemma unsubscribe_drops_every_subscriber_witness :
  let tick := VObj [("type", VStr "ltp"); ("symbol", VStr "NIFTY");
                    ("exchange", VStr "NSE"); ("ltp", VNum 24350)]%string in
  let rt := mkRuntime (fun _ => Some tick) (fun _ => true) (fun _ => false)
              (fun _ _ => false) in
  let nifty := mkInstrument "NIFTY" "NSE" in
  let s := subscribeLTP [nifty] 2%nat (subscribeLTP [nifty] 1%nat wsService) in
  map fst (calls (effects (onmessage rt 1700000000000 "tick" s))) = [1%nat; 2%nat] ∧
  calls (effects (onmessage rt 1700000000000 "tick" (unsubscribeLTP [nifty] s))) = [].
Proof.
  intros tick rt nifty s. split; [reflexivity|].
  pose proof (unsubscribe_drops_every_subscriber rt 1700000000000 "tick" tick "ltp"
                unsubscribeLTP [nifty] nifty s ltac:(left; reflexivity)
                ltac:(left; reflexivity) eq_refl eq_refl eq_refl eq_refl)
    as (_ & Hcalls & _).
  rewrite Hcalls. reflexivity.
Defined.

Lemma subscribed_fresh (t t' : string) (cb : MessageHandler) (instruments : list Instrument) :
  subscribed t'
    (map (fun i => (getSubscriptionKey t i, [mkSubscription t i cb])) instruments) =
  if String.eqb t t' then instruments else [].
Proof.
  induction instruments as [|i rest IH]; [destruct (String.eqb t t'); reflexivity|].
  cbn [map]. rewrite subscribed_cons, IH. unfold subscribed. cbn.
  destruct (String.eqb t t'); reflexivity.
Qed.

Lemma keys_of_plain (t : string) (instruments : list Instrument) :
  no_colon t -> Forall plain instruments -> List.NoDup instruments ->
  List.NoDup (map (getSubscriptionKey t) instruments).
Proof.
  intros Ht Hplain Hnodup. induction Hnodup as [|i rest Hi Hrest IH]; [constructor|].
  inversion Hplain as [|? ? Hpi Hprest]; subst. cbn. constructor; [|apply IH, Hprest].
  intros Hin. apply in_map_iff in Hin. destruct Hin as (j & Hkey & Hj).
  assert (Hpj : plain j) by exact (proj1 (List.Forall_forall _ _) Hprest j Hj).
  destruct (key_injective t t j i Ht Ht Hpj Hpi Hkey) as [_ ->]. apply Hi. exact Hj.
Qed.

Lemma onopen_returns (rt : Runtime) (url : string) (fuel : nat) (s : Service) :
  isConnected s = true ->
  length (messageQueue s) <= fuel ->
  Forall (fun h => handler_throws rt h = false) (onConnectHandlers s) ->
  onopen rt url fuel s =
  Some (set_messageQueue []
          (set_reconnectAttempts 0
             (set_isConnecting false
                (emit_all
                   (ConsoleLog "[WebSocket] Connected to" [VStr url]
                    :: sent (List.filter ToBoolean (messageQueue s))
                    ++ sent (regrouped (fold_left group (subscriptions s) ([], [], [])))
                    ++ map Handler (onConnectHandlers s) ++ [Resolve]) s)))).
Proof.
  intros Hopen Hlen Hquiet. unfold onopen.
  rewrite flush_open by (exact Hopen || exact Hlen).
  set (s2 := set_messageQueue [] _).
  rewrite resubscribeAll_sends, send_all_open by exact Hopen.
  change (subscriptions s2) with (subscriptions s).
  set (s3 := emit_all _ s2).
  change (onConnectHandlers s3) with (onConnectHandlers s).
  rewrite notify_returns by exact Hquiet.
  f_equal. subst s3 s2. same_service.
Qed.

(** X26. A subscription made before the socket is open is asked for twice.
    On a service without subscriptions and with an empty queue,
    [subscribeLTP], [subscribeQuote] or [subscribeDepth] for instruments
    without a colon, each named once, queues its request; when the socket
    has opened, [onopen] writes that request from the queue and then the
    same request again from [resubscribeAll], before it calls the connect
    handlers. *)
Theorem early_subscription_is_sent_twice (rt : Runtime) (url : string) (fuel : nat)
    (t : string) (subscribe : list Instrument -> MessageHandler -> Service -> Service)
    (instruments : list Instrument) (cb : MessageHandler) (s : Service) :
  In (t, subscribe) subscribe_methods ->
  isConnected s = false ->
  subscriptions s = [] -> messageQueue s = [] ->
  instruments ≠ [] -> List.NoDup instruments -> Forall plain instruments ->
  Forall (fun h => handler_throws rt h = false) (onConnectHandlers s) ->
  let asked := WsSend (frame (request "subscribe" t (map instrument_value instruments))) in
  exists s',
    onopen rt url (S fuel) (set_ws (Some OPEN) (subscribe instruments cb s)) = Some s' ∧
    effects s' =
      effects s ++ [ConsoleLog "[WebSocket] Connected to" [VStr url]; asked; asked]
      ++ map Handler (onConnectHandlers s) ++ [Resolve].
Proof.
  intros Hmethod Hclosed Hempty Hqueue Hsome Hnodup Hplain Hquiet asked.
  destruct (subscribe_method t subscribe Hmethod) as [Ht Hrun].
  pose proof (stream_type_no_colon t Ht) as Hcolon.
  set (m := map (fun i => (getSubscriptionKey t i, [mkSubscription t i cb])) instruments).
  set (order := request "subscribe" t (map instrument_value instruments)).
  assert (Hs1 : subscribe instruments cb s =
                set_messageQueue [order] (set_subscriptions m s)).
  { rewrite Hrun, add_all, Hempty, add_fresh;
      [|apply keys_of_plain; assumption|reflexivity].
    rewrite send_closed by exact Hclosed. cbn [messageQueue set_subscriptions].
    rewrite Hqueue. reflexivity. }
  rewrite Hs1.
  rewrite onopen_returns; [|reflexivity|cbn [messageQueue set_ws set_messageQueue length]; lia
                            |exact Hquiet].
  eexists. split; [reflexivity|].
  fields. rewrite fold_group.
  - cbn [fst snd app]. subst m. rewrite !subscribed_fresh.
    assert (Hasked : sent (regrouped
                       (map instrument_value (if String.eqb t "ltp" then instruments else []),
                        map instrument_value (if String.eqb t "quote" then instruments else []),
                        map instrument_value (if String.eqb t "depth" then instruments else [])))
                     = [asked]).
    { subst asked. destruct instruments as [|i rest]; [congruence|].
      cbn in Ht. repeat (destruct Ht as [<-|Ht]; [reflexivity|]). destruct Ht. }
    rewrite Hasked. reflexivity.
  - subst m. apply List.Forall_forall. intros entry Hentry.
    apply in_map_iff in Hentry. destruct Hentry as (i & <- & Hi).
    split; [discriminate|]. constructor; [split; [exact Ht|reflexivity]|constructor].
  - subst m. apply List.Forall_forall. intros entry Hentry.
    apply in_map_iff in Hentry. destruct Hentry as (i & <- & Hi).
    constructor; [|constructor]. exact (proj1 (List.Forall_forall _ _) Hplain i Hi).
Qed.

Lemma early_subscription_is_sent_twice_witness :
  let rt := mkRuntime (fun _ => None) (fun _ => true) (fun _ => false) (fun _ _ => false) in
  let nifty := mkInstrument "NIFTY" "NSE" in
  let asked := WsSend (frame (request "subscribe" "quote" [instrument_value nifty])) in
  exists s',
    onopen rt "ws://127.0.0.1:8765" 1
      (set_ws (Some OPEN) (subscribeQuote [nifty] 1%nat (set_ws (Some CONNECTING) wsService))) =
    Some s' ∧
    effects s' =
      [ConsoleLog "[WebSocket] Connected to" [VStr "ws://127.0.0.1:8765"]; asked; asked;
       Resolve].
Proof.
  intros rt nifty asked.
  apply (early_subscription_is_sent_twice rt "ws://127.0.0.1:8765" 0 "quote" subscribeQuote
           [nifty] 1%nat (set_ws (Some CONNECTING) wsService)).
  - right. left. reflexivity.
  - reflexivity.
  - reflexivity.
  - reflexivity.
  - discriminate.
  - repeat constructor. intros [].
  - repeat constructor.
  - constructor.
Defined.

(** *** Closing and connecting again *)

Lemma timeouts_app (es es' : list Effect) : timeouts (es ++ es') = timeouts es ++ timeouts es'.
Proof. unfold timeouts. apply flat_map_app. Qed.

Lemma timeouts_handlers (handlers : list ConnectionHandler) :
  timeouts (map Handler handlers) = [].
Proof. induction handlers as [|h rest IH]; [reflexivity|exact IH]. Qed.

Lemma notify_run (rt : Runtime) (handlers : list ConnectionHandler) (s : Service) :
  notify rt handlers s = (emit_all (map Handler (reached rt handlers)) s, all_return rt handlers).
Proof.
  revert s. induction handlers as [|h rest IH]; intros s.
  - cbn. rewrite emit_all_nil. reflexivity.
  - cbn [notify reached all_return forallb]. destruct (handler_throws rt h); [reflexivity|].
    rewrite IH, emit_one, emit_all_app. reflexivity.
Qed.

Lemma reached_all (rt : Runtime) (handlers : list ConnectionHandler) :
  Forall (fun h => handler_throws rt h = false) handlers ->
  reached rt handlers = handlers ∧ all_return rt handlers = true.
Proof.
  induction 1 as [|h rest Hh _ [IHr IHa]]; [split; reflexivity|].
  cbn [reached all_return forallb]. rewrite Hh. fold (all_return rt rest).
  rewrite IHr, IHa. split; reflexivity.
Qed.

Lemma reached_some (rt : Runtime) (handlers : list ConnectionHandler) :
  Exists (fun h => handler_throws rt h = true) handlers -> all_return rt handlers = false.
Proof.
  induction 1 as [h rest Hh|h rest _ IH]; cbn [all_return forallb].
  - rewrite Hh. reflexivity.
  - fold (all_return rt rest). rewrite IH. apply andb_false_r.
Qed.

Lemma onclose_run (rt : Runtime) (s : Service) :
  onclose rt s =
  let told := ConsoleLog "[WebSocket] Disconnected" []
              :: map Handler (reached rt (onDisconnectHandlers s)) in
  if all_return rt (onDisconnectHandlers s)
     && (reconnectAttempts s <? maxReconnectAttempts)%Z
  then
    set_reconnectAttempts (reconnectAttempts s + 1)
      (set_isConnecting false
         (emit_all
            (told ++ [ConsoleLog ("[WebSocket] Reconnecting... Attempt "
                                  +:+ digits_of_Z (reconnectAttempts s + 1)) [];
                      SetTimeout (reconnectDelay * (reconnectAttempts s + 1))]) s))
  else set_isConnecting false (emit_all told s).
Proof.
  unfold onclose.
  set (s1 := set_isConnecting false _).
  change (onDisconnectHandlers s1) with (onDisconnectHandlers s).
  rewrite notify_run.
  change (reconnectAttempts (emit_all (map Handler (reached rt (onDisconnectHandlers s))) s1))
    with (reconnectAttempts s).
  cbv zeta.
  destruct (all_return rt (onDisconnectHandlers s) && _); subst s1; same_service.
Qed.

Lemma iter_onclose (rt : Runtime) (k : nat) (s : Service) :
  reconnectAttempts s = 0%Z ->
  Forall (fun h => handler_throws rt h = false) (onDisconnectHandlers s) ->
  let closed := Nat.iter k (onclose rt) s in
  onDisconnectHandlers closed = onDisconnectHandlers s ∧
  reconnectAttempts closed = Z.of_nat (Nat.min k 5) ∧
  timeouts (effects closed) =
    timeouts (effects s) ++ map (fun j => reconnectDelay * Z.of_nat j)%Z (seq 1 (Nat.min k 5)).
Proof.
  intros Hzero Hquiet. induction k as [|k (Hh & Hn & Ht)].
  - cbn. rewrite app_nil_r. repeat split. exact Hzero.
  - change (Nat.iter (S k) (onclose rt) s) with (onclose rt (Nat.iter k (onclose rt) s)).
    set (before := Nat.iter k (onclose rt) s) in *. cbv zeta in *.
    rewrite onclose_run. cbv zeta. rewrite Hh.
    destruct (reached_all rt _ Hquiet) as [-> ->]. cbn [andb]. rewrite Hn.
    unfold maxReconnectAttempts.
    destruct (Z.ltb_spec (Z.of_nat (Nat.min k 5)) 5) as [Hlt|Hge].
    + assert (Hk : (k < 5)%nat) by lia.
      replace (Nat.min (S k) 5) with (S k) by lia.
      replace (Nat.min k 5) with k in * by lia.
      fields. split; [exact Hh|]. split; [lia|].
      rewrite !timeouts_app, Ht, seq_S, map_app.
      change (timeouts (ConsoleLog "[WebSocket] Disconnected" []
                        :: map Handler (onDisconnectHandlers s)))
        with (timeouts (map Handler (onDisconnectHandlers s))).
      rewrite timeouts_handlers. cbn [timeouts flat_map app map].
      rewrite <- app_assoc. do 3 f_equal. lia.
    + assert (Hk : (5 <= k)%nat) by lia.
      replace (Nat.min (S k) 5) with 5%nat by lia.
      replace (Nat.min k 5) with 5%nat in * by lia.
      fields. split; [exact Hh|]. split; [exact Hn|].
      rewrite timeouts_app, Ht.
      change (timeouts (ConsoleLog "[WebSocket] Disconnected" []
                        :: map Handler (onDisconnectHandlers s)))
        with (timeouts (map Handler (onDisconnectHandlers s))).
      rewrite timeouts_handlers, app_nil_r. reflexivity.
Qed.

(** X27. Reconnection backs off and gives up.  From a reconnection count
    of zero, with disconnect handlers that return, [k] close events in a row
    set timers of 1000, 2000, ... milliseconds, one for each of the first
    five, and none after the fifth; the count stops at five until an open
    event sets it back to zero.  When a disconnect handler throws, the close
    event in which it does sets no timer and leaves the count as it is. *)
Theorem reconnection_backs_off (rt : Runtime) (k : nat) (s : Service) :
  (reconnectAttempts s = 0%Z ->
   Forall (fun h => handler_throws rt h = false) (onDisconnectHandlers s) ->
   let closed := Nat.iter k (onclose rt) s in
   timeouts (effects closed) =
     timeouts (effects s) ++ map (fun j => 1000 * Z.of_nat j)%Z (seq 1 (Nat.min k 5)) ∧
   reconnectAttempts closed = Z.of_nat (Nat.min k 5)) ∧
  (Exists (fun h => handler_throws rt h = true) (onDisconnectHandlers s) ->
   timeouts (effects (onclose rt s)) = timeouts (effects s) ∧
   reconnectAttempts (onclose rt s) = reconnectAttempts s).
Proof.
  split.
  - intros Hzero Hquiet closed.
    destruct (iter_onclose rt k s Hzero Hquiet) as (_ & Hn & Ht). split; assumption.
  - intros Hthrows. rewrite onclose_run. cbv zeta.
    rewrite (reached_some rt _ Hthrows). cbn [andb]. fields.
    rewrite timeouts_app.
    change (timeouts (ConsoleLog "[WebSocket] Disconnected" []
                      :: map Handler (reached rt (onDisconnectHandlers s))))
      with (timeouts (map Handler (reached rt (onDisconnectHandlers s)))).
    rewrite timeouts_handlers, app_nil_r. split; reflexivity.
Qed.

Lemma reconnection_backs_off_witness :
  let rt := mkRuntime (fun _ => None) (fun _ => true) (fun _ => false) (fun _ _ => false) in
  timeouts (effects (Nat.iter 7 (onclose rt) (onDisconnect 3%nat wsService))) =
  [1000; 2000; 3000; 4000; 5000]%Z.
Proof.
  intros rt.
  exact (proj1 (proj1 (reconnection_backs_off rt 7 (onDisconnect 3%nat wsService))
                  eq_refl ltac:(repeat constructor))).
Defined.

(** *** What every run keeps *)

Lemma well_kept_same (s s' : Service) :
  subscriptions s' = subscriptions s ->
  reconnectAttempts s' = reconnectAttempts s ->
  well_kept s -> well_kept s'.
Proof. unfold well_kept. intros -> ->. tauto. Qed.

Lemma well_kept_passive (s s' : Service) : passive s s' -> well_kept s -> well_kept s'.
Proof. intros (q & es & ->). apply well_kept_same; reflexivity. Qed.

Lemma well_kept_with_subscription (t : string) (cb : MessageHandler) (i : Instrument)
    (m : list (string * list Subscription)) :
  In t stream_types ->
  List.NoDup (map fst m) ∧ Forall keyed m ->
  List.NoDup (map fst (with_subscription t cb m i)) ∧ Forall keyed (with_subscription t cb m i).
Proof.
  intros Ht [Hnodup Hkeyed]. unfold with_subscription. split.
  - rewrite map_set_keys.
    destruct (map_get (getSubscriptionKey t i) m) eqn:Hget; [exact Hnodup|].
    apply NoDup_ListNoDup, NoDup_app. repeat split.
    + apply NoDup_ListNoDup, Hnodup.
    + intros key Hin Hnew. apply list_elem_of_In in Hin.
      apply list_elem_of_In in Hnew. destruct Hnew as [<-|[]].
      apply (proj1 (map_get_none m _) Hget), Hin.
    + apply NoDup_ListNoDup. repeat constructor. intros [].
  - apply map_set_entries; [exact Hkeyed|].
    split; cbn [fst snd].
    + destruct (match map_get _ m with Some subs => subs | None => [] end); discriminate.
    + apply Forall_app. split; [|constructor; [split; [exact Ht|reflexivity]|constructor]].
      destruct (map_get (getSubscriptionKey t i) m) as [subs|] eqn:Hget; [|constructor].
      apply map_get_in in Hget.
      exact (proj2 (proj1 (List.Forall_forall _ _) Hkeyed _ Hget)).
Qed.

Lemma well_kept_added (t : string) (cb : MessageHandler) (instruments : list Instrument)
    (m : list (string * list Subscription)) :
  In t stream_types ->
  List.NoDup (map fst m) ∧ Forall keyed m ->
  List.NoDup (map fst (fold_left (with_subscription t cb) instruments m)) ∧
  Forall keyed (fold_left (with_subscription t cb) instruments m).
Proof.
  intros Ht. revert m. induction instruments as [|i rest IH]; intros m Hm; [exact Hm|].
  cbn [fold_left]. apply IH, well_kept_with_subscription; assumption.
Qed.

Lemma well_kept_deleted (key : string) (m : list (string * list Subscription)) :
  List.NoDup (map fst m) ∧ Forall keyed m ->
  List.NoDup (map fst (map_delete key m)) ∧ Forall keyed (map_delete key m).
Proof.
  intros [Hnodup Hkeyed]. unfold map_delete. split.
  - induction m as [|[k subs] rest IH]; [constructor|].
    cbn in *. inversion Hnodup as [|? ? Hk Hrest]; subst. inversion Hkeyed; subst.
    destruct (negb (String.eqb k key)); [|apply IH; assumption].
    cbn. constructor; [|apply IH; assumption].
    intros Hin. apply Hk. apply in_map_iff in Hin. destruct Hin as ([k' subs'] & <- & Hin).
    apply filter_In in Hin. apply in_map_iff. exists (k', subs'). tauto.
  - apply List.Forall_forall. intros entry Hin. apply filter_In in Hin.
    exact (proj1 (List.Forall_forall _ _) Hkeyed entry (proj1 Hin)).
Qed.

Lemma well_kept_removed (t : string) (instruments : list Instrument)
    (m : list (string * list Subscription)) :
  List.NoDup (map fst m) ∧ Forall keyed m ->
  List.NoDup
    (map fst (fold_left (fun m' i => map_delete (getSubscriptionKey t i) m') instruments m)) ∧
  Forall keyed (fold_left (fun m' i => map_delete (getSubscriptionKey t i) m') instruments m).
Proof.
  revert m. induction instruments as [|i rest IH]; intros m Hm; [exact Hm|].
  cbn [fold_left]. apply IH, well_kept_deleted, Hm.
Qed.

Lemma well_kept_subscribe (t : string)
    (subscribe : list Instrument -> MessageHandler -> Service -> Service)
    (instruments : list Instrument) (cb : MessageHandler) (s : Service) :
  In (t, subscribe) subscribe_methods ->
  well_kept s -> well_kept (subscribe instruments cb s).
Proof.
  intros Hmethod (Hn & Hm). destruct (subscribe_method t subscribe Hmethod) as [Ht ->].
  eapply well_kept_passive; [apply passive_send|]. rewrite add_all.
  split; [exact Hn|]. apply well_kept_added; assumption.
Qed.

Lemma well_kept_unsubscribe (t : string)
    (unsubscribe : list Instrument -> Service -> Service)
    (instruments : list Instrument) (s : Service) :
  In (t, unsubscribe) unsubscribe_methods ->
  well_kept s -> well_kept (unsubscribe instruments s).
Proof.
  intros Hmethod (Hn & Hm). destruct (unsubscribe_method t unsubscribe Hmethod) as [Ht ->].
  eapply well_kept_passive; [apply passive_send|]. rewrite remove_all.
  split; [exact Hn|]. apply well_kept_removed; assumption.
Qed.

Lemma passive_deliver (rt : Runtime) (update : value) (subs : list Subscription)
    (s : Service) :
  passive s (deliver rt update subs s).
Proof.
  revert s. induction subs as [|sub rest IH]; intros s; [apply passive_refl|].
  change (deliver rt update (sub :: rest) s)
    with (deliver rt update rest
            (if callback_throws rt (callback sub) update
             then emit (ConsoleError "[WebSocket] Callback error:")
                    (emit (Callback (callback sub) update) s)
             else emit (Callback (callback sub) update) s)).
  eapply passive_trans; [|apply IH].
  destruct (callback_throws rt (callback sub) update); [|apply passive_emit].
  eapply passive_trans; apply passive_emit.
Qed.

Lemma passive_handleMessage (rt : Runtime) (now : float) (data : value) (s s' : Service) :
  handleMessage rt now data s = Some s' -> passive s s'.
Proof.
  unfold handleMessage.
  destruct data; try discriminate;
    (destruct (_ || _);
     [destruct (_ || _); intros [= <-]; [apply passive_emit|apply passive_refl]
     |repeat (destruct (callString _); [|discriminate]);
      destruct (map_get _ _); intros [= <-]; [apply passive_deliver|apply passive_refl]]).
Qed.

Lemma passive_onmessage (rt : Runtime) (now : float) (text : string) (s : Service) :
  passive s (onmessage rt now text s).
Proof.
  unfold onmessage. destruct (JSON_parse rt text) as [data|]; [|apply passive_emit].
  destruct (handleMessage rt now data s) eqn:H; [|apply passive_emit].
  eapply passive_handleMessage, H.
Qed.

Lemma well_kept_connect (rt : Runtime) (url : string) (s : Service) :
  well_kept s -> well_kept (connect rt url s).
Proof.
  unfold connect.
  destruct (isConnected s); [apply well_kept_same; reflexivity|].
  destruct (isConnecting s); [apply well_kept_same; reflexivity|].
  destruct (WebSocket_constructs rt url); apply well_kept_same; reflexivity.
Qed.

Lemma well_kept_onopen (rt : Runtime) (url : string) (fuel : nat) (s s' : Service) :
  onopen rt url fuel s = Some s' -> well_kept s -> well_kept s'.
Proof.
  unfold onopen. set (s1 := set_reconnectAttempts 0 _).
  destruct (flush fuel s1) as [s2|] eqn:Hflush; [|discriminate].
  pose proof (passive_flush _ _ _ Hflush) as H12.
  pose proof (passive_resubscribeAll s2) as H23.
  pose proof (passive_notify rt (onConnectHandlers (resubscribeAll s2)) (resubscribeAll s2))
    as H34.
  destruct (notify rt _ (resubscribeAll s2)) as [s4 returned]. cbn [fst] in H34.
  pose proof (passive_trans _ _ _ (passive_trans _ _ _ H12 H23) H34) as H14.
  intros [= <-] (Hn & Hm).
  assert (H1 : well_kept s1).
  { split; [|exact Hm]. subst s1. fields. unfold maxReconnectAttempts. lia. }
  destruct returned; [eapply well_kept_passive; [apply passive_emit|]|];
    eapply well_kept_passive; eassumption.
Qed.

Lemma well_kept_onerror (rt : Runtime) (s : Service) : well_kept s -> well_kept (onerror rt s).
Proof.
  unfold onerror. set (s1 := set_isConnecting false _).
  pose proof (passive_notify rt (onErrorHandlers s1) s1) as H.
  destruct (notify rt _ s1) as [s2 returned]. cbn [fst] in H.
  intros Hs. assert (H1 : well_kept s1) by (revert Hs; apply well_kept_same; reflexivity).
  destruct returned; [eapply well_kept_passive; [apply passive_emit|]|];
    eapply well_kept_passive; eassumption.
Qed.

Lemma well_kept_onclose (rt : Runtime) (s : Service) : well_kept s -> well_kept (onclose rt s).
Proof.
  intros (Hn & Hm). rewrite onclose_run. cbv zeta.
  destruct (all_return rt _); cbn [andb]; [|split; [exact Hn|exact Hm]].
  destruct (Z.ltb_spec (reconnectAttempts s) maxReconnectAttempts);
    (split; [|exact Hm]); fields; unfold maxReconnectAttempts in *; lia.
Qed.

Lemma well_kept_step (rt : Runtime) (fuel : nat) (c : Call) (s s' : Service) :
  step rt fuel c s = Some s' -> well_kept s -> well_kept s'.
Proof.
  destruct c; cbn [step]; try (intros [= <-]).
  - apply well_kept_connect.
  - intros (Hn & _). unfold disconnect.
    destruct (ws s); (split; [exact Hn|split; constructor]).
  - apply (well_kept_subscribe "ltp"). left. reflexivity.
  - apply (well_kept_unsubscribe "ltp"). left. reflexivity.
  - apply (well_kept_subscribe "quote"). right. left. reflexivity.
  - apply (well_kept_unsubscribe "quote"). right. left. reflexivity.
  - apply (well_kept_subscribe "depth"). right. right. left. reflexivity.
  - apply (well_kept_unsubscribe "depth"). right. right. left. reflexivity.
  - apply well_kept_same; reflexivity.
  - apply well_kept_same; reflexivity.
  - apply well_kept_same; reflexivity.
  - apply well_kept_same; reflexivity.
  - apply well_kept_onopen.
  - apply well_kept_passive, passive_onmessage.
  - apply well_kept_onerror.
  - apply well_kept_onclose.
  - apply well_kept_connect.
  - unfold checkConnection. destruct (isConnected s); apply well_kept_same; reflexivity.
  - destruct (ws s); apply well_kept_same; reflexivity.
Qed.

(** X28. What every run keeps.  Whatever is called on a new service, in
    whatever order, with whatever events of the socket and timers in
    between: the reconnection count stays between zero and five, the map of
    subscriptions has no key twice, and every key of the map has at least one
    subscription, each of them of type [ltp], [quote] or [depth] and kept
    under the key of its own type and instrument. *)
Theorem runs_keep_the_subscriptions (rt : Runtime) (fuel : nat) (calls : list Call)
    (s : Service) :
  run rt fuel calls wsService = Some s -> well_kept s.
Proof.
  assert (Hrun : forall s0, well_kept s0 -> run rt fuel calls s0 = Some s -> well_kept s).
  { induction calls as [|c rest IH]; intros s0 H0; cbn [run].
    - intros [= <-]. exact H0.
    - destruct (step rt fuel c s0) as [s1|] eqn:Hstep; [|discriminate].
      apply IH. eapply well_kept_step; eassumption. }
  apply Hrun. split; [unfold maxReconnectAttempts; cbn; lia|]. split; constructor.
Qed.

Lemma runs_keep_the_subscriptions_witness :
  let rt := mkRuntime (fun _ => None) (fun _ => true) (fun _ => false) (fun _ _ => false) in
  let nifty := mkInstrument "NIFTY" "NSE" in
  let calls := [Connect "ws://127.0.0.1:8765"; SubscribeLTP [nifty] 1%nat;
                ReadyStateIs OPEN; Opened "ws://127.0.0.1:8765";
                SubscribeLTP [nifty] 2%nat; ReadyStateIs CLOSED; Closed] in
  exists s, run rt 1 calls wsService = Some s ∧ well_kept s ∧
            reconnectAttempts s = 1%Z ∧ map fst (subscriptions s) = ["ltp:NSE:NIFTY"%string].
Proof.
  intros rt nifty calls.
  pose proof (runs_keep_the_subscriptions rt 1 calls) as Hkept.
  destruct (run rt 1 calls wsService) as [s|] eqn:Hrun; [|vm_compute in Hrun; discriminate].
  exists s. split; [reflexivity|]. split; [apply Hkept; reflexivity|].
  vm_compute in Hrun. injection Hrun as <-. split; reflexivity.
Defined.

(** *** Disconnecting *)

Lemma connect_fresh (rt : Runtime) (url : string) (s : Service) :
  ws s = None -> isConnecting s = false -> WebSocket_constructs rt url = true ->
  connect rt url s =
  set_ws (Some CONNECTING) (set_wsUrl url (set_isConnecting true (emit (NewWebSocket url) s))).
Proof.
  intros Hws Hbusy Hnew. unfold connect, isConnected. rewrite Hws, Hbusy, Hnew.
  same_service.
Qed.

Lemma disconnect_socket (s : Service) :
  ws s ≠ None ->
  disconnect s = set_messageQueue [] (set_subscriptions [] (set_ws None (emit WsClose s))).
Proof. intros Hws. unfold disconnect. destruct (ws s); [reflexivity|congruence]. Qed.

Lemma onclose_reconnects (rt : Runtime) (s : Service) :
  (reconnectAttempts s < maxReconnectAttempts)%Z ->
  Forall (fun h => handler_throws rt h = false) (onDisconnectHandlers s) ->
  onclose rt s =
  set_reconnectAttempts (reconnectAttempts s + 1)
    (set_isConnecting false
       (emit_all
          ((ConsoleLog "[WebSocket] Disconnected" [] :: map Handler (onDisconnectHandlers s))
           ++ [ConsoleLog ("[WebSocket] Reconnecting... Attempt "
                           +:+ digits_of_Z (reconnectAttempts s + 1)) [];
               SetTimeout (reconnectDelay * (reconnectAttempts s + 1))]) s)).
Proof.
  intros Hn Hquiet. rewrite onclose_run. cbv zeta.
  destruct (reached_all rt _ Hquiet) as [-> ->].
  rewrite (proj2 (Z.ltb_lt _ _) Hn). reflexivity.
Qed.

(** X29. [disconnect] is not final.  It closes the socket and forgets the
    subscriptions and the queue, but it leaves the service ready to connect
    again: when the close event of the socket arrives (with a reconnection
    count below five and disconnect handlers that return), a timer is set,
    and when it fires a new socket is made for the same address.  The
    subscriptions stay forgotten. *)
Theorem disconnect_is_not_final (rt : Runtime) (fuel : nat) (s : Service) :
  ws s ≠ None ->
  (reconnectAttempts s < maxReconnectAttempts)%Z ->
  Forall (fun h => handler_throws rt h = false) (onDisconnectHandlers s) ->
  WebSocket_constructs rt (wsUrl s) = true ->
  exists s',
    run rt fuel [Disconnect; Closed; TimerFired] s = Some s' ∧
    ws s' = Some CONNECTING ∧ isConnecting s' = true ∧ wsUrl s' = wsUrl s ∧
    subscriptions s' = [] ∧ messageQueue s' = [] ∧
    effects s' =
      effects s
      ++ [WsClose; ConsoleLog "[WebSocket] Disconnected" []]
      ++ map Handler (onDisconnectHandlers s)
      ++ [ConsoleLog ("[WebSocket] Reconnecting... Attempt "
                      +:+ digits_of_Z (reconnectAttempts s + 1)) [];
          SetTimeout (1000 * (reconnectAttempts s + 1));
          NewWebSocket (wsUrl s)].
Proof.
  intros Hws Hn Hquiet Hnew. cbn [run step].
  rewrite (disconnect_socket s Hws).
  rewrite onclose_reconnects by (exact Hn || exact Hquiet).
  unfold reconnect. rewrite connect_fresh by (reflexivity || exact Hnew).
  eexists. split; [reflexivity|]. fields.
  repeat split. rewrite <- !app_assoc. reflexivity.
Qed.

Lemma disconnect_is_not_final_witness :
  let rt := mkRuntime (fun _ => None) (fun _ => true) (fun _ => false) (fun _ _ => false) in
  exists s,
    run rt 1 [Disconnect; Closed; TimerFired] (set_ws (Some OPEN) wsService) = Some s ∧
    ws s = Some CONNECTING.
Proof.
  intros rt.
  destruct (disconnect_is_not_final rt 1 (set_ws (Some OPEN) wsService))
    as (s & Hrun & Hws & _).
  - discriminate.
  - reflexivity.
  - constructor.
  - reflexivity.
  - exists s. split; assumption.
Defined.

Lemma sockets_app (es es' : list Effect) : sockets (es ++ es') = sockets es ++ sockets es'.
Proof. unfold sockets. apply flat_map_app. Qed.

Lemma sockets_handlers (handlers : list ConnectionHandler) :
  sockets (map Handler handlers) = [].
Proof. induction handlers as [|h rest IH]; [reflexivity|exact IH]. Qed.

Lemma onerror_run (rt : Runtime) (s : Service) :
  onerror rt s =
  set_isConnecting false
    (emit_all
       (ConsoleError "[WebSocket] Error:" :: map Handler (reached rt (onErrorHandlers s))
        ++ if all_return rt (onErrorHandlers s) then [Reject] else []) s).
Proof.
  unfold onerror. set (s1 := set_isConnecting false _).
  change (onErrorHandlers s1) with (onErrorHandlers s).
  rewrite notify_run. destruct (all_return rt (onErrorHandlers s)); subst s1; same_service.
Qed.

(** X30. A new address given while a connection attempt is interrupted is
    lost.  [disconnect] during an attempt leaves [isConnecting] set, so the
    [connect] that follows it only waits: it neither keeps its address nor
    makes a socket; when the interrupted socket then reports its end (an
    error event or none, then the close event), the reconnection timer makes
    a socket for the first address again. *)
Theorem interrupted_connect_keeps_the_old_address (rt : Runtime) (fuel : nat)
    (first second : string) (failed : bool) (s : Service) :
  ws s = None -> isConnecting s = false ->
  (reconnectAttempts s < maxReconnectAttempts)%Z ->
  Forall (fun h => handler_throws rt h = false) (onDisconnectHandlers s) ->
  WebSocket_constructs rt first = true ->
  exists s',
    run rt fuel ([Connect first; Disconnect; Connect second]
                 ++ (if failed then [Failed] else []) ++ [Closed; TimerFired]) s = Some s' ∧
    sockets (effects s') = sockets (effects s) ++ [first; first] ∧
    wsUrl s' = first ∧ ws s' = Some CONNECTING.
Proof.
  intros Hws Hbusy Hn Hquiet Hnew.
  cbn [app run step]. rewrite (connect_fresh rt first s Hws Hbusy Hnew).
  rewrite disconnect_socket by discriminate.
  set (s2 := set_messageQueue [] _).
  assert (H3 : connect rt second s2 = emit SetInterval s2) by reflexivity.
  rewrite H3. set (s3 := emit SetInterval s2).
  destruct failed; cbn [app run step].
  - rewrite onerror_run. set (s4 := set_isConnecting false _).
    rewrite onclose_reconnects by (exact Hn || exact Hquiet).
    unfold reconnect. rewrite connect_fresh by (reflexivity || exact Hnew).
    eexists. split; [reflexivity|]. subst s4 s3 s2. fields.
    split; [|split; reflexivity].
    rewrite !sockets_app.
    change (sockets (ConsoleError "[WebSocket] Error:"
                     :: map Handler (reached rt (onErrorHandlers s))
                     ++ (if all_return rt (onErrorHandlers s) then [Reject] else [])))
      with (sockets (map Handler (reached rt (onErrorHandlers s))
                     ++ (if all_return rt (onErrorHandlers s) then [Reject] else []))).
    change (sockets (ConsoleLog "[WebSocket] Disconnected" []
                     :: map Handler (onDisconnectHandlers s)))
      with (sockets (map Handler (onDisconnectHandlers s))).
    rewrite sockets_app, !sockets_handlers.
    destruct (all_return rt (onErrorHandlers s)); cbn [sockets flat_map app];
      rewrite <- ?app_assoc; reflexivity.
  - rewrite onclose_reconnects by (exact Hn || exact Hquiet).
    unfold reconnect. rewrite connect_fresh by (reflexivity || exact Hnew).
    eexists. split; [reflexivity|]. subst s3 s2. fields.
    split; [|split; reflexivity].
    rewrite !sockets_app.
    change (sockets (ConsoleLog "[WebSocket] Disconnected" []
                     :: map Handler (onDisconnectHandlers s)))
      with (sockets (map Handler (onDisconnectHandlers s))).
    rewrite !sockets_handlers. cbn [sockets flat_map app].
    rewrite <- ?app_assoc. reflexivity.
Qed.

Lemma interrupted_connect_keeps_the_old_address_witness :
  let rt := mkRuntime (fun _ => None) (fun _ => true) (fun _ => false) (fun _ _ => false) in
  exists s,
    run rt 1 [Connect "ws://127.0.0.1:8765"; Disconnect; Connect "ws://10.0.0.2:8765";
              Failed; Closed; TimerFired] wsService = Some s ∧
    wsUrl s = "ws://127.0.0.1:8765"%string.
Proof.
  intros rt.
  destruct (interrupted_connect_keeps_the_old_address rt 1 "ws://127.0.0.1:8765"
              "ws://10.0.0.2:8765" true wsService eq_refl eq_refl eq_refl
              ltac:(constructor) eq_refl) as (s & Hrun & _ & Hurl & _).
  exists s. split; assumption.
Defined.
